(** * RadioLib ESP-IDF HAL and E07-400MM (CC1101 clone) driver

    A shallow embedding of
      - [spiFrequencyToClockDiv] and the spi_master flavour of [EspHal]
        (src/hal/ESP-IDF/EspHal.hpp),
      - the two revisions of E07400MM.cpp ([convertRSSI], [getRSSI],
        [getPacketLength], [readData], [scanRSSI]),
    followed by the properties established about them. *)

From Stdlib Require Import ZArith List Bool Lia QArith.
From Stdlib Require Import Floats.SpecFloat.
Import ListNotations.

Local Open Scope Z_scope.

(* ================================================================== *)
(** * Single-precision arithmetic *)
(* ================================================================== *)

(** The C [float] of the driver is IEEE-754 binary32: 24 bits of precision,
    maximal exponent 128, round to nearest even. *)
Module F32.

Definition prec : Z := 24.
Definition emax : Z := 128.

Definition t : Type := spec_float.

Definition add : t -> t -> t := SFadd prec emax.
Definition sub : t -> t -> t := SFsub prec emax.
Definition mul : t -> t -> t := SFmul prec emax.
Definition div : t -> t -> t := SFdiv prec emax.
Definition eqb : t -> t -> bool := SFeqb.

(** Conversion of an integer ([int], [size_t], [uint8_t]) to [float]. *)
Definition of_Z (z : Z) : t := binary_normalize prec emax z 0 false.

(** The rational number a finite float stands for. *)
Definition to_Q (x : t) : option Q :=
  match x with
  | S754_zero _ => Some 0%Q
  | S754_finite s m e =>
      let n := if s then Z.neg m else Z.pos m in
      Some (if 0 <=? e then inject_Z (n * 2 ^ e)
            else Qmake n (Z.to_pos (2 ^ (- e))))
  | _ => None
  end.

(** [represents x q]: [x] is finite and its value is exactly [q]. *)
Definition represents (x : t) (q : Q) : Prop :=
  exists q', to_Q x = Some q' /\ (q' == q)%Q.

Definition representsb (x : t) (q : Q) : bool :=
  match to_Q x with
  | Some q' => Qeq_bool q' q
  | None => false
  end.

End F32.

Definition float32 : Type := F32.t.

(* ================================================================== *)
(** * Machine integers *)
(* ================================================================== *)

Definition uint8 (z : Z) : Z := z mod 2 ^ 8.
Definition uint32 (z : Z) : Z := z mod 2 ^ 32.

Definition int8 (z : Z) : Z :=
  let u := z mod 2 ^ 8 in if u <? 2 ^ 7 then u else u - 2 ^ 8.
Definition int32 (z : Z) : Z :=
  let u := z mod 2 ^ 32 in if u <? 2 ^ 31 then u else u - 2 ^ 32.

(** Storing [x] into an unsigned bit-field of [w] bits keeps its low bits. *)
Definition bitfield (w x : Z) : Z := Z.land x (2 ^ w - 1).

(* ================================================================== *)
(** * EspHal.hpp: the SPI clock divider *)
(* ================================================================== *)

Module ClockDivider.

(** [spiClk_t]: the bit-fields of the SPI clock register, lowest bits
    first. *)
Record spiClk_t : Type := mkClk {
  clkcnt_l : Z;        (* : 6  *)
  clkcnt_h : Z;        (* : 6  *)
  clkcnt_n : Z;        (* : 6  *)
  clkdiv_pre : Z;      (* : 13 *)
  clk_equ_sysclk : Z   (* : 1  *)
}.

(** The [value] member of the union. *)
Definition value (r : spiClk_t) : Z :=
  Z.lor (clkcnt_l r)
    (Z.lor (Z.shiftl (clkcnt_h r) 6)
       (Z.lor (Z.shiftl (clkcnt_n r) 12)
          (Z.lor (Z.shiftl (clkdiv_pre r) 18)
             (Z.shiftl (clk_equ_sysclk r) 31)))).

(** Initialising the union through [value], as in
    [spiClk_t reg = {0}] and [minFreqReg = {0x7FFFF000}]. *)
Definition of_value (v : Z) : spiClk_t :=
  {| clkcnt_l := bitfield 6 v;
     clkcnt_h := bitfield 6 (Z.shiftr v 6);
     clkcnt_n := bitfield 6 (Z.shiftr v 12);
     clkdiv_pre := bitfield 13 (Z.shiftr v 18);
     clk_equ_sysclk := bitfield 1 (Z.shiftr v 31) |}.

Definition set_clkcnt_l (r : spiClk_t) (x : Z) : spiClk_t :=
  mkClk (bitfield 6 x) (clkcnt_h r) (clkcnt_n r) (clkdiv_pre r)
        (clk_equ_sysclk r).
Definition set_clkcnt_n (r : spiClk_t) (x : Z) : spiClk_t :=
  mkClk (clkcnt_l r) (clkcnt_h r) (bitfield 6 x) (clkdiv_pre r)
        (clk_equ_sysclk r).
Definition set_clkdiv_pre (r : spiClk_t) (x : Z) : spiClk_t :=
  mkClk (clkcnt_l r) (clkcnt_h r) (clkcnt_n r) (bitfield 13 x)
        (clk_equ_sysclk r).

(** Modelled from the spec: [SPI_CLK_EQU_SYSCLK] comes from soc/spi_reg.h,
    which is not part of the sources; it is the "bypass" encoding, the
    register with only [clk_equ_sysclk] set. *)
Definition SPI_CLK_EQU_SYSCLK : Z := value (mkClk 0 0 0 0 1).

(** Modelled from the spec: [RADIOLIB_ABS] comes from RadioLib's build
    options header, which is not part of the sources; it is the absolute
    value macro [((x) > 0 ? (x) : -(x))], here at type [uint32_t]. *)
Definition RADIOLIB_ABS (x : Z) : Z := if 0 <? x then x else uint32 (- x).

(** Modelled from the spec: [MHZ] is an SDK macro, one million. *)
Definition MHZ : Z := 1000000.

(** [rtc_cpu_freq_config_t], as far as [getApbFrequency] reads it. *)
Record rtc_cpu_freq_config_t : Type := {
  source_freq_mhz : Z;
  div : Z;
  freq_mhz : Z
}.

(** [getApbFrequency], as a function of the configuration that
    [rtc_clk_cpu_freq_get_config] reports. *)
Definition getApbFrequency (conf : rtc_cpu_freq_config_t) : Z :=
  if 80 <=? freq_mhz conf then uint32 (80 * MHZ)
  else uint32 (uint32 (source_freq_mhz conf * MHZ) / div conf).

(** The macro [ClkRegToFreq(reg)]. *)
Definition ClkRegToFreq (apb_freq : Z) (reg : spiClk_t) : Z :=
  uint32 (apb_freq / uint32 ((clkdiv_pre reg + 1) * (clkcnt_n reg + 1))).

(** What one pass through the body of the inner [while] leaves behind. *)
Variant pass : Type :=
| Break (calFreq : Z) (bestReg : spiClk_t)
| Continue (reg : spiClk_t) (calFreq : Z) (bestReg : spiClk_t)
           (bestFreq : Z).

(** The body of [while (calPreVari++ <= 1)], with [calPreVari] already
    incremented. *)
Definition inner_body (apb_freq freq : Z) (calPreVari : Z)
           (reg bestReg : spiClk_t) (bestFreq : Z) : pass :=
  let calPre :=
    int32 (uint32 (uint32 (uint32 (apb_freq / (clkcnt_n reg + 1)) / freq - 1)
                   + uint32 calPreVari)) in
  let reg :=
    if 0x1FFF <? calPre then set_clkdiv_pre reg 0x1FFF
    else if calPre <=? 0 then set_clkdiv_pre reg 0
    else set_clkdiv_pre reg calPre in
  let reg := set_clkcnt_l reg ((clkcnt_n reg + 1) / 2) in
  let calFreq := int32 (ClkRegToFreq apb_freq reg) in
  if calFreq =? int32 freq then Break calFreq reg
  else if calFreq <? int32 freq then
    if RADIOLIB_ABS (uint32 (freq - calFreq))
       <? RADIOLIB_ABS (uint32 (freq - bestFreq))
    then Continue reg calFreq reg calFreq
    else Continue reg calFreq bestReg bestFreq
  else Continue reg calFreq bestReg bestFreq.

(** The inner loop. It yields the last [calFreq], [bestReg] and
    [bestFreq]; [None] only when the fuel runs out. *)
Fixpoint inner_loop (fuel : nat) (apb_freq freq : Z) (calPreVari : Z)
         (reg : spiClk_t) (calFreq : Z) (bestReg : spiClk_t) (bestFreq : Z)
  : option (Z * spiClk_t * Z) :=
  match fuel with
  | O => None
  | S fuel =>
      let test := calPreVari <=? 1 in
      let calPreVari := int8 (calPreVari + 1) in
      if test then
        match inner_body apb_freq freq calPreVari reg bestReg bestFreq with
        | Break calFreq bestReg => Some (calFreq, bestReg, bestFreq)
        | Continue reg calFreq bestReg bestFreq =>
            inner_loop fuel apb_freq freq calPreVari reg calFreq
                       bestReg bestFreq
        end
      else Some (calFreq, bestReg, bestFreq)
  end.

(** The outer loop [while (calN <= 0x3F)]. [calFreq] is declared without
    an initialiser in the C body; the inner loop always assigns it, since
    its first test [-2 <= 1] succeeds, so the [0] passed here is never
    read. *)
Fixpoint outer_loop (fuel : nat) (apb_freq freq : Z) (calN : Z)
         (bestReg : spiClk_t) (bestFreq : Z) : option spiClk_t :=
  match fuel with
  | O => None
  | S fuel =>
      if calN <=? 0x3F then
        let reg := set_clkcnt_n (of_value 0) calN in
        match inner_loop 5 apb_freq freq (-2) reg 0 bestReg bestFreq with
        | None => None
        | Some (calFreq, bestReg, bestFreq) =>
            if calFreq =? int32 freq then Some bestReg
            else outer_loop fuel apb_freq freq (uint8 (calN + 1))
                            bestReg bestFreq
        end
      else Some bestReg
  end.

Definition minFreqReg : spiClk_t := of_value 0x7FFFF000.

(** [uint32_t spiFrequencyToClockDiv(uint32_t freq)]; [apb_freq] is what
    the call of [getApbFrequency()] returned. *)
Definition spiFrequencyToClockDiv (apb_freq freq : Z) : option Z :=
  if apb_freq <=? freq then Some SPI_CLK_EQU_SYSCLK
  else
    let minFreq := ClkRegToFreq apb_freq minFreqReg in
    if freq <? minFreq then Some (value minFreqReg)
    else
      match outer_loop 64 apb_freq freq 1 (of_value 0) 0 with
      | Some bestReg => Some (value bestReg)
      | None => None
      end.

End ClockDivider.

(* ================================================================== *)
(** * E07400MM.cpp: telemetry conversion *)
(* ================================================================== *)

(** [float E07_400MM::convertRSSI(uint8_t rssi_raw)]; the argument is the
    value of the [uint8_t], promoted to [int] before the subtraction. *)
Definition convertRSSI (rssi_raw : Z) : float32 :=
  if 128 <=? rssi_raw
  then F32.sub (F32.div (F32.of_Z (rssi_raw - 256)) (F32.of_Z 2)) (F32.of_Z 74)
  else F32.sub (F32.div (F32.of_Z rssi_raw) (F32.of_Z 2)) (F32.of_Z 74).

(** The value [scanRSSI] stores for a point whose frequency could not be
    programmed: [-999.0f]. *)
Definition SCAN_INVALID : float32 := F32.of_Z (-999).

(* ================================================================== *)
(** * The inherited CC1101 driver, seen from E07400MM.cpp *)
(* ================================================================== *)

Module Driver.

(** Status codes of TypeDef.h that the driver returns or tests. *)
Variant Status : Type :=
| RADIOLIB_ERR_NONE
| RADIOLIB_ERR_INVALID_PAYLOAD
| RADIOLIB_ERR_CRC_MISMATCH
| RADIOLIB_ERR_INVALID_RSSI_OFFSET
| RADIOLIB_ERR_INVALID_FREQUENCY.

Definition Status_eqb (a b : Status) : bool :=
  match a, b with
  | RADIOLIB_ERR_NONE, RADIOLIB_ERR_NONE
  | RADIOLIB_ERR_INVALID_PAYLOAD, RADIOLIB_ERR_INVALID_PAYLOAD
  | RADIOLIB_ERR_CRC_MISMATCH, RADIOLIB_ERR_CRC_MISMATCH
  | RADIOLIB_ERR_INVALID_RSSI_OFFSET, RADIOLIB_ERR_INVALID_RSSI_OFFSET
  | RADIOLIB_ERR_INVALID_FREQUENCY, RADIOLIB_ERR_INVALID_FREQUENCY => true
  | _, _ => false
  end.

(** Command strobes sent with [SPIsendCommand]. *)
Variant Command : Type :=
| RADIOLIB_CC1101_CMD_FLUSH_RX
| RADIOLIB_CC1101_CMD_RX.

(** Modelled from the spec: the register map of CC1101.h is not part of the
    sources; the FIFO is register 0x3F. *)
Definition RADIOLIB_CC1101_REG_FIFO : Z := 0x3F.

(** Modelled from the spec: RSSI is status register 0x34 (the first revision
    of E07400MM.cpp writes the number as a literal). *)
Definition RADIOLIB_CC1101_REG_RSSI : Z := 0x34.

(** Modelled from the spec: the burst-access bit that a read of a status
    register must set is 0x40 (E07400MM.h: [reg | 0x40]). The first revision
    of E07400MM.cpp does not use the macro; it writes [0x34 | 0xC0]. *)
Definition RADIOLIB_CC1101_CMD_ACCESS_STATUS_REG : Z := 0x40.

(** Every access to the hardware that the driver code makes through the
    methods it inherits. *)
Variant Event : Type :=
| EvReadRegisterBurst (reg : Z) (numBytes : nat)
| EvSendCommand (cmd : Command)
| EvStartReceive
| EvSetFrequency (freq : float32)
| EvDelayMicroseconds (us : Z)
| EvStandby.

(** The transceiver behind the SPI bus, as a scripted device: [miso i] is
    the [i]-th byte it will shift out on a read, [tune] tells what
    [setFrequency] answers after a given history, and [log] records the
    accesses made so far, oldest first. *)
Record Chip : Type := mkChip {
  miso : nat -> Z;
  cursor : nat;
  tune : list Event -> float32 -> Status;
  log : list Event
}.

(** The members of [CC1101] that E07400MM.cpp reads or writes, and the
    chip the object drives. *)
Record Radio : Type := mkRadio {
  packetLength : Z;
  packetLengthQueried : bool;
  rawRSSI : Z;
  rawLQI : Z;
  crcOn : bool;
  chip : Chip
}.

(** Member functions run in a state monad over the object. *)
Definition M (A : Type) : Type := Radio -> A * Radio.

Definition ret {A : Type} (a : A) : M A := fun st => (a, st).
Definition bind {A B : Type} (m : M A) (k : A -> M B) : M B :=
  fun st => let (a, st') := m st in k a st'.
Definition get : M Radio := fun st => (st, st).

Definition set_packetLength (v : Z) : M unit :=
  fun st => (tt, mkRadio v (packetLengthQueried st) (rawRSSI st)
                         (rawLQI st) (crcOn st) (chip st)).
Definition set_packetLengthQueried (v : bool) : M unit :=
  fun st => (tt, mkRadio (packetLength st) v (rawRSSI st)
                         (rawLQI st) (crcOn st) (chip st)).
Definition set_rawRSSI (v : Z) : M unit :=
  fun st => (tt, mkRadio (packetLength st) (packetLengthQueried st) v
                         (rawLQI st) (crcOn st) (chip st)).
Definition set_rawLQI (v : Z) : M unit :=
  fun st => (tt, mkRadio (packetLength st) (packetLengthQueried st)
                         (rawRSSI st) v (crcOn st) (chip st)).
Definition with_chip (f : Chip -> Chip) : M unit :=
  fun st => (tt, mkRadio (packetLength st) (packetLengthQueried st)
                         (rawRSSI st) (rawLQI st) (crcOn st)
                         (f (chip st))).

Definition emit (e : Event) : M unit :=
  with_chip (fun c => mkChip (miso c) (cursor c) (tune c) (log c ++ [e])).

(** Modelled from the spec: [Module::SPIreadRegisterBurst] is not part of
    the sources. A burst read of [numBytes] bytes returns the next
    [numBytes] bytes the chip shifts out, each an 8-bit value. *)
Definition SPIreadRegisterBurst (reg : Z) (numBytes : nat) : M (list Z) :=
  fun st =>
    let c := chip st in
    let bytes := map (fun i => uint8 (miso c i)) (seq (cursor c) numBytes) in
    (bytes,
     snd (with_chip (fun c => mkChip (miso c) (cursor c + numBytes) (tune c)
                                 (log c ++ [EvReadRegisterBurst reg numBytes]))
                    st)).

(** Modelled from the spec: [CC1101::SPIsendCommand] is not part of the
    sources; it sends one command strobe. *)
Definition SPIsendCommand (cmd : Command) : M unit :=
  emit (EvSendCommand cmd).

(** Modelled from the spec: [CC1101::startReceive] is not part of the
    sources; it re-arms receive mode. Its status is ignored by every
    caller below. *)
Definition startReceive : M unit := emit EvStartReceive.

(** Modelled from the spec: [CC1101::standby] is not part of the sources;
    it returns the chip to its idle mode. *)
Definition standby : M unit := emit EvStandby.

(** Modelled from the spec: [CC1101::setFrequency] is not part of the
    sources; it programs a frequency in MHz and reports a status. *)
Definition setFrequency (freq : float32) : M Status :=
  fun st =>
    let c := chip st in
    (tune c (log c) freq, snd (emit (EvSetFrequency freq) st)).

(** The platform's microsecond wait ([delayMicroseconds] or
    [esp_rom_delay_us], depending on the build; a build for neither platform
    spins on a counter set to ten times the value instead). *)
Definition delay_us (us : Z) : M unit := emit (EvDelayMicroseconds us).

(** A burst read into [data] overwrites its first cells and leaves the
    others as they were. The caller owns at least as many cells as it asks
    to be filled. *)
Definition store_bytes {A : Type} (bytes data : list A) : list A :=
  bytes ++ skipn (length bytes) data.

(** [array[i] = v]; the caller owns [num_points] cells, a store past the
    end of the list is outside the model and leaves it as it is. *)
Fixpoint store_at {A : Type} (i : nat) (v : A) (array : list A) : list A :=
  match i, array with
  | _, [] => []
  | O, _ :: tl => v :: tl
  | S i, hd :: tl => hd :: store_at i v tl
  end.

(** The frequencies programmed, the waits made, in order. *)
Definition frequencies (evs : list Event) : list float32 :=
  flat_map (fun e => match e with EvSetFrequency f => [f] | _ => [] end) evs.
Definition waits (evs : list Event) : list Z :=
  flat_map (fun e => match e with EvDelayMicroseconds u => [u] | _ => [] end)
           evs.

End Driver.

Declare Scope radio_scope.
Delimit Scope radio_scope with radio.
Notation "x <- c ;; k" := (Driver.bind c (fun x => k))
  (at level 61, c at next level, right associativity) : radio_scope.
Notation "c ;;; k" := (Driver.bind c (fun _ => k))
  (at level 61, right associativity) : radio_scope.

(* ================================================================== *)
(** * E07400MM.cpp, first revision
      (length check in [readData], RX strobe before the scan loop) *)
(* ================================================================== *)

Module Rev1.
Import Driver.
Local Open Scope radio_scope.

Section WithLimits.

(** [RADIOLIB_CC1101_MAX_PACKET_LENGTH] is defined in CC1101.h, which is
    not part of the sources: the code is read for any value of it. *)
Variable RADIOLIB_CC1101_MAX_PACKET_LENGTH : Z.

Definition getRSSI : M float32 :=
  bytes <- SPIreadRegisterBurst (Z.lor 0x34 0xC0) 1 ;;
  let rssi_raw := nth 0 bytes 0 in
  ret (convertRSSI rssi_raw).

Definition getPacketLength (update : bool) : M Z :=
  st <- get ;;
  if negb update && packetLengthQueried st then ret (packetLength st)
  else
    bytes <- SPIreadRegisterBurst (Z.lor 0x3F 0x40) 1 ;;
    let packet_length := nth 0 bytes 0 in
    set_packetLength packet_length ;;;
    set_packetLengthQueried true ;;;
    ret packet_length.

(** [readData(data, len)]: the status and the contents of [data]
    afterwards. *)
Definition readData (data : list Z) (len : nat) : M (Status * list Z) :=
  set_packetLengthQueried false ;;;
  l <- getPacketLength true ;;
  let packet_length := uint8 l in
  if (packet_length =? 0)
     || (RADIOLIB_CC1101_MAX_PACKET_LENGTH <? packet_length)
  then
    SPIsendCommand RADIOLIB_CC1101_CMD_FLUSH_RX ;;;
    startReceive ;;;
    ret (RADIOLIB_ERR_INVALID_PAYLOAD, data)
  else
    let read_length :=
      if packet_length <? Z.of_nat len then Z.to_nat packet_length
      else len in
    payload <- SPIreadRegisterBurst (Z.lor 0x3F 0x40) read_length ;;
    let data := store_bytes payload data in
    r <- SPIreadRegisterBurst (Z.lor 0x3F 0x40) 1 ;;
    q <- SPIreadRegisterBurst (Z.lor 0x3F 0x40) 1 ;;
    let rssi_raw := nth 0 r 0 in
    let lqi_crc := nth 0 q 0 in
    set_rawRSSI rssi_raw ;;;
    set_rawLQI (Z.land lqi_crc 0x7F) ;;;
    let crc_ok := negb (Z.land lqi_crc 0x80 =? 0) in
    st <- get ;;
    if negb crc_ok && crcOn st then
      startReceive ;;;
      ret (RADIOLIB_ERR_CRC_MISMATCH, data)
    else
      startReceive ;;;
      ret (RADIOLIB_ERR_NONE, data).

(** The clamp of [dwell_time_us] at the top of [scanRSSI]. *)
Definition clamp_dwell (dwell_time_us : Z) : Z :=
  if dwell_time_us <? 500 then 500
  else if 50000 <? dwell_time_us then 50000
  else dwell_time_us.

(** The [for] loop of [scanRSSI], [n] points from index [i] on. *)
Fixpoint scan_loop (n i : nat) (dwell_time_us : Z)
         (current_freq step_mhz : float32) (rssi_values : list float32)
  : M (list float32) :=
  match n with
  | O => ret rssi_values
  | S n =>
      state <- setFrequency current_freq ;;
      if negb (Status_eqb state RADIOLIB_ERR_NONE) then
        scan_loop n (S i) dwell_time_us (F32.add current_freq step_mhz)
                  step_mhz (store_at i SCAN_INVALID rssi_values)
      else
        delay_us dwell_time_us ;;;
        v <- getRSSI ;;
        scan_loop n (S i) dwell_time_us (F32.add current_freq step_mhz)
                  step_mhz (store_at i v rssi_values)
  end.

(** [scanRSSI]; [rssi_values = None] is the null pointer. The result is
    the status and the contents of the array afterwards. *)
Definition scanRSSI (rssi_values : option (list float32))
           (num_points : nat) (center_freq step_khz : float32)
           (dwell_time_us : Z) : M (Status * option (list float32)) :=
  match rssi_values with
  | None => ret (RADIOLIB_ERR_INVALID_RSSI_OFFSET, rssi_values)
  | Some values =>
      if Nat.eqb num_points 0
      then ret (RADIOLIB_ERR_INVALID_RSSI_OFFSET, rssi_values)
      else
        let dwell_time_us := clamp_dwell dwell_time_us in
        let start_freq :=
          F32.sub center_freq
            (F32.mul (F32.div (F32.of_Z (Z.of_nat num_points)) (F32.of_Z 2))
                     (F32.div step_khz (F32.of_Z 1000))) in
        let step_mhz := F32.div step_khz (F32.of_Z 1000) in
        SPIsendCommand RADIOLIB_CC1101_CMD_RX ;;;
        values <- scan_loop num_points 0 dwell_time_us start_freq
                            step_mhz values ;;
        standby ;;;
        ret (RADIOLIB_ERR_NONE, Some values)
  end.

End WithLimits.

End Rev1.

(* ================================================================== *)
(** * E07400MM.cpp, second revision
      (length check in [getPacketLength], RX strobe after every retune) *)
(* ================================================================== *)

Module Rev2.
Import Driver.
Local Open Scope radio_scope.

Section WithLimits.

(** As in the first revision, the limit of CC1101.h is a parameter. *)
Variable RADIOLIB_CC1101_MAX_PACKET_LENGTH : Z.

Definition getRSSI : M float32 :=
  bytes <- SPIreadRegisterBurst
             (Z.lor RADIOLIB_CC1101_REG_RSSI
                    RADIOLIB_CC1101_CMD_ACCESS_STATUS_REG) 1 ;;
  let rssi_raw := nth 0 bytes 0 in
  ret (convertRSSI rssi_raw).

Definition getPacketLength (update : bool) : M Z :=
  st <- get ;;
  if negb update && packetLengthQueried st then ret (packetLength st)
  else
    bytes <- SPIreadRegisterBurst RADIOLIB_CC1101_REG_FIFO 1 ;;
    let packet_length := nth 0 bytes 0 in
    if (packet_length =? 0)
       || (RADIOLIB_CC1101_MAX_PACKET_LENGTH <? packet_length)
    then
      SPIsendCommand RADIOLIB_CC1101_CMD_FLUSH_RX ;;;
      startReceive ;;;
      ret 0
    else
      set_packetLength packet_length ;;;
      set_packetLengthQueried true ;;;
      ret packet_length.

(** [readData(data, len)]; the length check of the first revision is
    commented out in this one. *)
Definition readData (data : list Z) (len : nat) : M (Status * list Z) :=
  set_packetLengthQueried false ;;;
  l <- getPacketLength true ;;
  let packet_length := uint8 l in
  let read_length :=
    if packet_length <? Z.of_nat len then Z.to_nat packet_length
    else len in
  payload <- SPIreadRegisterBurst RADIOLIB_CC1101_REG_FIFO read_length ;;
  let data := store_bytes payload data in
  r <- SPIreadRegisterBurst RADIOLIB_CC1101_REG_FIFO 1 ;;
  q <- SPIreadRegisterBurst RADIOLIB_CC1101_REG_FIFO 1 ;;
  let rssi_raw := nth 0 r 0 in
  let lqi_crc := nth 0 q 0 in
  set_rawRSSI rssi_raw ;;;
  set_rawLQI (Z.land lqi_crc 0x7F) ;;;
  let crc_ok := negb (Z.land lqi_crc 0x80 =? 0) in
  st <- get ;;
  if negb crc_ok && crcOn st then
    startReceive ;;;
    ret (RADIOLIB_ERR_CRC_MISMATCH, data)
  else
    startReceive ;;;
    ret (RADIOLIB_ERR_NONE, data).

(** The clamp of [dwell_time_us] at the top of [scanRSSI]. *)
Definition clamp_dwell (dwell_time_us : Z) : Z :=
  if dwell_time_us <? 500 then 500
  else if 50000 <? dwell_time_us then 50000
  else dwell_time_us.

(** The [for] loop of [scanRSSI], [n] points from index [i] on. *)
Fixpoint scan_loop (n i : nat) (dwell_time_us : Z)
         (current_freq step_mhz : float32) (rssi_values : list float32)
  : M (list float32) :=
  match n with
  | O => ret rssi_values
  | S n =>
      state <- setFrequency current_freq ;;
      if negb (Status_eqb state RADIOLIB_ERR_NONE) then
        scan_loop n (S i) dwell_time_us (F32.add current_freq step_mhz)
                  step_mhz (store_at i SCAN_INVALID rssi_values)
      else
        SPIsendCommand RADIOLIB_CC1101_CMD_RX ;;;
        delay_us dwell_time_us ;;;
        v <- getRSSI ;;
        scan_loop n (S i) dwell_time_us (F32.add current_freq step_mhz)
                  step_mhz (store_at i v rssi_values)
  end.

(** [scanRSSI]; [rssi_values = None] is the null pointer. *)
Definition scanRSSI (rssi_values : option (list float32))
           (num_points : nat) (center_freq step_khz : float32)
           (dwell_time_us : Z) : M (Status * option (list float32)) :=
  match rssi_values with
  | None => ret (RADIOLIB_ERR_INVALID_RSSI_OFFSET, rssi_values)
  | Some values =>
      if Nat.eqb num_points 0
      then ret (RADIOLIB_ERR_INVALID_RSSI_OFFSET, rssi_values)
      else
        let dwell_time_us := clamp_dwell dwell_time_us in
        let start_freq :=
          F32.sub center_freq
            (F32.mul (F32.div (F32.of_Z (Z.of_nat num_points)) (F32.of_Z 2))
                     (F32.div step_khz (F32.of_Z 1000))) in
        let step_mhz := F32.div step_khz (F32.of_Z 1000) in
        values <- scan_loop num_points 0 dwell_time_us start_freq
                            step_mhz values ;;
        standby ;;;
        ret (RADIOLIB_ERR_NONE, Some values)
  end.

End WithLimits.

End Rev2.

(* ================================================================== *)
(** * EspHal (spi_master flavour): the life cycle of the bus *)
(* ================================================================== *)

Module SpiMaster.

(** The answers of the ESP-IDF SPI master service that the HAL tells
    apart, and any other error code. *)
Variant esp_err_t : Type :=
| ESP_OK
| ESP_ERR_INVALID_STATE
| ESP_ERR_OTHER (code : Z).

(** The calls the HAL makes to the service when it opens and closes. *)
Variant Call : Type :=
| spi_bus_initialize (host : Z) (mosi miso sclk : Z)
| spi_bus_add_device (host : Z) (spics_io_num : Z) (clock_speed_hz : Z)
| spi_bus_remove_device (handle : Z)
| spi_bus_free (host : Z).

(** The service is scripted: [answer] gives its status for a call after a
    history of calls, [handle] the device handle a successful
    [spi_bus_add_device] hands out; [calls] is the history, oldest
    first. *)
Record Service : Type := mkService {
  answer : list Call -> Call -> esp_err_t;
  handle : list Call -> Z;
  calls : list Call
}.

Definition request (c : Call) (s : Service) : esp_err_t * Service :=
  (answer s (calls s) c, mkService (answer s) (handle s) (calls s ++ [c])).

(** The private members of [EspHal]; a null [spiDevice] is [None]. *)
Record EspHal : Type := mkHal {
  spiSCK : Z;
  spiMISO : Z;
  spiMOSI : Z;
  spiHost : Z;
  spiDevice : option Z;
  busInitialized : bool;
  deviceAdded : bool;
  halInitialized : bool
}.

(** Modelled from the spec: [RADIOLIB_NC], the reserved "not connected"
    pin value, is defined by RadioLib outside the sources as 0xFFFFFFFF. *)
Definition RADIOLIB_NC : Z := 0xFFFFFFFF.

(** The constructor. *)
Definition new (sck miso mosi host : Z) : EspHal :=
  mkHal sck miso mosi host None false false false.

Definition set_spiDevice (h : EspHal) (v : option Z) : EspHal :=
  mkHal (spiSCK h) (spiMISO h) (spiMOSI h) (spiHost h) v
        (busInitialized h) (deviceAdded h) (halInitialized h).
Definition set_busInitialized (h : EspHal) (v : bool) : EspHal :=
  mkHal (spiSCK h) (spiMISO h) (spiMOSI h) (spiHost h) (spiDevice h)
        v (deviceAdded h) (halInitialized h).
Definition set_deviceAdded (h : EspHal) (v : bool) : EspHal :=
  mkHal (spiSCK h) (spiMISO h) (spiMOSI h) (spiHost h) (spiDevice h)
        (busInitialized h) v (halInitialized h).
Definition set_halInitialized (h : EspHal) (v : bool) : EspHal :=
  mkHal (spiSCK h) (spiMISO h) (spiMOSI h) (spiHost h) (spiDevice h)
        (busInitialized h) (deviceAdded h) v.

Definition spiBegin (h : EspHal) (s : Service) : EspHal * Service :=
  let (ret, s) :=
    request (spi_bus_initialize (spiHost h) (spiMOSI h) (spiMISO h)
                                (spiSCK h)) s in
  match ret with
  | ESP_OK => (set_busInitialized h true, s)
  | ESP_ERR_INVALID_STATE => (set_busInitialized h false, s)
  | ESP_ERR_OTHER _ => (h, s)
  end.

Definition spiEnd (h : EspHal) (s : Service) : EspHal * Service :=
  let (h, s) :=
    match deviceAdded h, spiDevice h with
    | true, Some dev =>
        let (_, s) := request (spi_bus_remove_device dev) s in
        (set_deviceAdded (set_spiDevice h None) false, s)
    | _, _ => (h, s)
    end in
  if busInitialized h then
    let (_, s) := request (spi_bus_free (spiHost h)) s in
    (set_busInitialized h false, s)
  else (h, s).

Definition init (h : EspHal) (s : Service) : EspHal * Service :=
  if negb (halInitialized h) then
    let (h, s) := spiBegin h s in
    (set_halInitialized h true, s)
  else (h, s).

Definition term (h : EspHal) (s : Service) : EspHal * Service :=
  if halInitialized h then
    let (h, s) := spiEnd h s in
    (set_halInitialized h false, s)
  else (h, s).

(** [addSpiDevice(csPin, clockHz)]; [csPin] is an [int8_t], compared with
    [RADIOLIB_NC] after the usual conversion to 32 bits. *)
Definition addSpiDevice (csPin clockHz : Z) (h : EspHal) (s : Service)
  : bool * EspHal * Service :=
  if uint32 csPin =? RADIOLIB_NC then (false, h, s)
  else
    let dev := handle s (calls s) in
    let (ret, s) :=
      request (spi_bus_add_device (spiHost h) csPin clockHz) s in
    match ret with
    | ESP_OK => (true, set_deviceAdded (set_spiDevice h (Some dev)) true, s)
    | _ => (false, h, s)
    end.

End SpiMaster.

(* ================================================================== *)
(** * Vocabulary of the statements *)
(* ================================================================== *)

(** What is pending in the receive FIFO when a read starts, counted from the
    chip's read cursor: the length byte, then the payload, then two more
    bytes (raw RSSI, and link quality with the CRC flag in bit 7). *)
Module Frame.
Import Driver.

Definition byte_at (st : Radio) (k : nat) : Z :=
  uint8 (miso (chip st) (cursor (chip st) + k)).

(** The length the frame declares. *)
Definition declared_length (st : Radio) : Z := byte_at st 0.

(** A declared length passes the sanity check for the limit [MAX]. *)
Definition acceptable (MAX d : Z) : bool :=
  negb ((d =? 0) || (MAX <? d)).

(** The second revision's [getPacketLength] answers 0 for a length that
    fails the check. *)
Definition taken_length (MAX d : Z) : Z :=
  if acceptable MAX d then d else 0.

(** How many payload bytes are read for length [l] into [len] cells. *)
Definition read_length (l : Z) (len : nat) : nat :=
  Z.to_nat (Z.min l (Z.of_nat len)).

Definition payload (st : Radio) (n : nat) : list Z :=
  map (byte_at st) (seq 1 n).
Definition rssi_byte (st : Radio) (n : nat) : Z := byte_at st (1 + n).
Definition status_byte (st : Radio) (n : nat) : Z := byte_at st (2 + n).


(** The events logged between two states of the radio. *)
Definition logged (st st' : Radio) (evs : list Event) : Prop :=
  log (chip st') = log (chip st) ++ evs.

End Frame.

(** The frequencies of a scan: [n] values from [f] on, each the
    single-precision sum of the previous one and [step]. *)
Fixpoint ramp (n : nat) (f step : float32) : list float32 :=
  match n with
  | O => []
  | S n => f :: ramp n (F32.add f step) step
  end.

(** The first frequency of a scan, as [scanRSSI] computes it. *)
Definition scan_start (num_points : nat) (center_freq step_khz : float32)
  : float32 :=
  F32.sub center_freq
    (F32.mul (F32.div (F32.of_Z (Z.of_nat num_points)) (F32.of_Z 2))
             (F32.div step_khz (F32.of_Z 1000))).

(** A chip that answers every read with the bytes of [bytes] (then zeros)
    and accepts every frequency, and a radio object in front of it. *)
Definition scripted_chip (bytes : list Z) : Driver.Chip :=
  Driver.mkChip (fun i => nth i bytes 0) 0
                (fun _ _ => Driver.RADIOLIB_ERR_NONE) [].
Definition scripted_radio (crc : bool) (bytes : list Z) : Driver.Radio :=
  Driver.mkRadio 0 false 0 0 crc (scripted_chip bytes).

(** Reading the result of a member function run in the state monad. *)
Definition status_of {A : Type} (r : Driver.Status * A * Driver.Radio)
  : Driver.Status := fst (fst r).
Definition data_of {A : Type} (r : Driver.Status * A * Driver.Radio) : A :=
  snd (fst r).
Definition state_of {A : Type} (r : A * Driver.Radio) : Driver.Radio := snd r.

(** A converted reading lies in [-138, -10.5]. *)
Definition rssi_in_range (x : float32) : bool :=
  match F32.to_Q x with
  | Some q => Qle_bool (-138) q && Qle_bool q (-21 # 2)
  | None => false
  end.

(** A cell of the output array after a scan: left as it was, the
    sentinel, or the conversion of a byte read from the chip. *)
Definition scan_cell (before : option float32) (v : float32) : Prop :=
  before = Some v \/ v = SCAN_INVALID
  \/ exists r, 0 <= r < 256 /\ v = convertRSSI r.

(** The calls [spiEnd] makes for an object in a given state. *)
Definition closing_calls (h : SpiMaster.EspHal) : list SpiMaster.Call :=
  match SpiMaster.deviceAdded h, SpiMaster.spiDevice h with
  | true, Some dev => [SpiMaster.spi_bus_remove_device dev]
  | _, _ => []
  end ++ (if SpiMaster.busInitialized h
          then [SpiMaster.spi_bus_free (SpiMaster.spiHost h)] else []).

(** The search of [spiFrequencyToClockDiv], candidate by candidate. *)
Module Search.
Import ClockDivider.

(** The clamp applied to [calPre] before it is stored in [clkdiv_pre]. *)
Definition clamp_pre (calPre : Z) : Z :=
  if 0x1FFF <? calPre then 0x1FFF
  else if calPre <=? 0 then 0
  else calPre.

(** The prescaler tried for counter [n] and offset [v]: the naive
    quotient [(apb / (n + 1)) / f - 1], moved by [v] and clamped. *)
Definition prescaler (apb f n v : Z) : Z :=
  clamp_pre ((apb / (n + 1)) / f - 1 + v).

(** The register the loops build for counter [n] and offset [v]. *)
Definition candidate (apb f n v : Z) : spiClk_t :=
  mkClk ((n + 1) / 2) 0 n (prescaler apb f n v) 0.

(** The frequency a register encodes:
    bus clock / ((prescaler + 1) (counter + 1)). *)
Definition decoded (apb : Z) (r : spiClk_t) : Z :=
  apb / ((clkdiv_pre r + 1) * (clkcnt_n r + 1)).

(** [k] consecutive integers from [a] on. *)
Fixpoint range (a : Z) (k : nat) : list Z :=
  match k with
  | O => []
  | S k => a :: range (a + 1) k
  end.

(** The counters 1..63, in increasing order. *)
Definition counters : list Z := range 1 63.

(** The candidates for the offsets [vs], in the order of the loops. *)
Definition tried_with (vs : list Z) (apb f : Z) : list spiClk_t :=
  flat_map (fun n => map (candidate apb f n) vs) counters.

(** The three neighbours of the naive prescaler, for every counter. *)
Definition tried : Z -> Z -> list spiClk_t := tried_with [-1; 0; 1].

(** A pass over a list of candidates: stop at the first that decodes to
    [f]; otherwise keep the one that decodes below [f] and strictly closer
    to it than the best so far. The flag tells whether the pass stopped
    on an exact match. *)
Fixpoint search (apb f : Z) (cands : list spiClk_t) (bestReg : spiClk_t)
         (bestFreq : Z) : bool * spiClk_t * Z :=
  match cands with
  | [] => (false, bestReg, bestFreq)
  | c :: rest =>
      let cf := decoded apb c in
      if cf =? f then (true, c, bestFreq)
      else if (cf <? f) && (bestFreq <? cf)
           then search apb f rest c cf
           else search apb f rest bestReg bestFreq
  end.

End Search.

(** The accesses [scanRSSI] makes for one point at frequency [f]: only the
    retune when it fails; otherwise the retune, the RX strobe in the
    revision that sends one per point ([rx_each]), the wait and the read of
    the RSSI register under the number [reg] that the revision passes. *)
Definition scan_block (rx_each : bool) (reg : Z) (dwell : Z) (f : float32)
           (b : list Driver.Event) : Prop :=
  b = [Driver.EvSetFrequency f]
  \/ b = Driver.EvSetFrequency f
         :: (if rx_each
             then [Driver.EvSendCommand Driver.RADIOLIB_CC1101_CMD_RX]
             else [])
         ++ [Driver.EvDelayMicroseconds dwell;
             Driver.EvReadRegisterBurst reg 1].

(** The chip accepts, or refuses, every frequency whatever came before. *)
Definition always_tunes (st : Driver.Radio) : Prop :=
  forall h f, Driver.tune (Driver.chip st) h f = Driver.RADIOLIB_ERR_NONE.
Definition never_tunes (st : Driver.Radio) : Prop :=
  forall h f, Driver.tune (Driver.chip st) h f <> Driver.RADIOLIB_ERR_NONE.

(* ================================================================== *)
(** * E07400MM.cpp, second revision: packet format and sync mode *)
(* ================================================================== *)

Module Config.
Import Driver.

(** The configuration registers these methods name. CC1101.h, which gives
    them their numbers, is not part of the sources: they are told apart by
    name, and any other register by its address. *)
Variant Register : Type :=
| RADIOLIB_CC1101_REG_PKTCTRL1
| RADIOLIB_CC1101_REG_PKTCTRL0
| RADIOLIB_CC1101_REG_MDMCFG2
| REG_AT (addr : Z).

Definition Register_eqb (a b : Register) : bool :=
  match a, b with
  | RADIOLIB_CC1101_REG_PKTCTRL1, RADIOLIB_CC1101_REG_PKTCTRL1
  | RADIOLIB_CC1101_REG_PKTCTRL0, RADIOLIB_CC1101_REG_PKTCTRL0
  | RADIOLIB_CC1101_REG_MDMCFG2, RADIOLIB_CC1101_REG_MDMCFG2 => true
  | REG_AT x, REG_AT y => x =? y
  | _, _ => false
  end.

(** What the methods do to the chip, through the driver they inherit. *)
Variant Access : Type :=
| AcSetRegValue (reg : Register) (value : Z)
| AcGetRegValue (reg : Register)
| AcParentSetOOK (enableOOK : bool)
| AcDelayMicroseconds (us : Z).

(** The register file behind the driver, scripted: [content] is what every
    register holds; [accepts] is the status [SPIsetRegValue] reports for a
    write after a given history, and [rejected] what the register holds
    after a write that was not accepted; [parent] is [CC1101::setOOK], its
    status and the registers as it leaves them; [trace] records the
    accesses, oldest first. *)
Record Regs : Type := mkRegs {
  content : Register -> Z;
  accepts : list Access -> Register -> Z -> Status;
  rejected : list Access -> Register -> Z -> Z;
  parent : list Access -> bool -> (Register -> Z) -> Status * (Register -> Z);
  trace : list Access
}.

Definition update (f : Register -> Z) (reg : Register) (v : Z)
  : Register -> Z :=
  fun r => if Register_eqb r reg then v else f r.

(** Modelled from the spec: [Module::SPIsetRegValue] is not part of the
    sources. Called with a register and a value only, it writes the whole
    byte and reports a status; the register holds the value when the status
    is [RADIOLIB_ERR_NONE]. *)
Definition SPIsetRegValue (reg : Register) (value : Z) (s : Regs)
  : Status * Regs :=
  let state := accepts s (trace s) reg value in
  let stored :=
    if Status_eqb state RADIOLIB_ERR_NONE then uint8 value
    else rejected s (trace s) reg value in
  (state,
   mkRegs (update (content s) reg stored) (accepts s) (rejected s) (parent s)
          (trace s ++ [AcSetRegValue reg value])).

(** Modelled from the spec: [Module::SPIgetRegValue] is not part of the
    sources. Called with a register only, it returns the byte the register
    holds. *)
Definition SPIgetRegValue (reg : Register) (s : Regs) : Z * Regs :=
  (uint8 (content s reg),
   mkRegs (content s) (accepts s) (rejected s) (parent s)
          (trace s ++ [AcGetRegValue reg])).

(** Modelled from the spec: [CC1101::setOOK] is not part of the sources; it
    sets up the modulation and reports a status. *)
Definition CC1101_setOOK (enableOOK : bool) (s : Regs) : Status * Regs :=
  let r := parent s (trace s) enableOOK (content s) in
  (fst r,
   mkRegs (snd r) (accepts s) (rejected s) (parent s)
          (trace s ++ [AcParentSetOOK enableOOK])).

(** The settling wait of [packetMode]: [delay(5)] or
    [esp_rom_delay_us(5000)], depending on the build. *)
Definition settle (s : Regs) : Regs :=
  mkRegs (content s) (accepts s) (rejected s) (parent s)
         (trace s ++ [AcDelayMicroseconds 5000]).

(** Modelled from the spec: the macro [RADIOLIB_ASSERT(state)] is not part
    of the sources; it returns [state] from the calling function unless it
    is [RADIOLIB_ERR_NONE]. [failed] is its test. *)
Definition failed (state : Status) : bool :=
  negb (Status_eqb state RADIOLIB_ERR_NONE).

(** [int16_t E07_400MM::packetMode()]. *)
Definition packetMode (s : Regs) : Status * Regs :=
  let pktctrl1 := 0x0C in
  let (state, s) := SPIsetRegValue RADIOLIB_CC1101_REG_PKTCTRL1 pktctrl1 s in
  if failed state then (state, s)
  else
    let (v, s) := SPIgetRegValue RADIOLIB_CC1101_REG_PKTCTRL0 s in
    let pktctrl0 := uint8 v in
    let pktctrl0 := uint8 (Z.lor (Z.land pktctrl0 0xFC) 0x01) in
    let (state, s) := SPIsetRegValue RADIOLIB_CC1101_REG_PKTCTRL0 pktctrl0 s in
    if failed state then (state, s)
    else (state, settle s).

(** [int16_t E07_400MM::restoreSyncMode()]. *)
Definition restoreSyncMode (s : Regs) : Status * Regs :=
  let (v, s) := SPIgetRegValue RADIOLIB_CC1101_REG_MDMCFG2 s in
  let mdmcfg2 := uint8 v in
  let mdmcfg2 := uint8 (Z.lor (Z.land mdmcfg2 0xF8) 0x02) in
  SPIsetRegValue RADIOLIB_CC1101_REG_MDMCFG2 mdmcfg2 s.

(** [int16_t E07_400MM::setOOK(bool enableOOK)]. *)
Definition setOOK (enableOOK : bool) (s : Regs) : Status * Regs :=
  let (state, s) := CC1101_setOOK enableOOK s in
  if failed state then (state, s)
  else
    let (state, s) := restoreSyncMode s in
    if failed state then (state, s)
    else (state, s).

(** Every write is accepted, whatever came before. *)
Definition always_accepts (s : Regs) : Prop :=
  forall h reg v, accepts s h reg v = RADIOLIB_ERR_NONE.

(** A register file with the given contents that accepts every write and
    whose [CC1101::setOOK] answers [state] after setting [MDMCFG2] to
    [mdmcfg2]. *)
Definition scripted_regs (pktctrl0 mdmcfg2 : Z) (state : Status) : Regs :=
  mkRegs (fun r => match r with
                   | RADIOLIB_CC1101_REG_PKTCTRL0 => pktctrl0
                   | _ => 0
                   end)
         (fun _ _ _ => RADIOLIB_ERR_NONE)
         (fun _ _ _ => 0)
         (fun _ _ c => (state, update c RADIOLIB_CC1101_REG_MDMCFG2 mdmcfg2))
         [].

End Config.

(* ================================================================== *)
(** * EspHal (spi_master flavour): transactions and transfers *)
(* ================================================================== *)

Module SpiBus.
Import SpiMaster.

(** The calls the HAL makes to the service to move bytes. *)
Variant Transfer : Type :=
| spi_device_acquire_bus (dev : Z)
| spi_device_release_bus (dev : Z)
| spi_device_polling_transmit (dev : Z) (length_bits : Z) (tx : list Z).

(** The bus, scripted: [reply] gives, for a transmission to a device after
    a history of calls, the status and the bytes the service stored in the
    receive buffer; [transfers] is the history, oldest first. Logging, and
    the counter that limits it, leave no trace in the results and are left
    out. *)
Record Bus : Type := mkBus {
  reply : list Transfer -> Z -> list Z -> esp_err_t * list Z;
  transfers : list Transfer
}.

Definition record (t : Transfer) (b : Bus) : Bus :=
  mkBus (reply b) (transfers b ++ [t]).

Definition spiBeginTransaction (h : EspHal) (b : Bus) : Bus :=
  match spiDevice h with
  | Some dev => record (spi_device_acquire_bus dev) b
  | None => b
  end.

Definition spiEndTransaction (h : EspHal) (b : Bus) : Bus :=
  match spiDevice h with
  | Some dev => record (spi_device_release_bus dev) b
  | None => b
  end.

(** [uint8_t spiTransferByte(uint8_t b)]. *)
Definition spiTransferByte (byte : Z) (h : EspHal) (b : Bus) : Z * Bus :=
  match spiDevice h with
  | None => (0xFF, b)
  | Some dev =>
      let tx := [uint8 byte] in
      let r := reply b (transfers b) dev tx in
      let b := record (spi_device_polling_transmit dev 8 tx) b in
      match fst r with
      | ESP_OK => (uint8 (nth 0 (snd r) 0), b)
      | _ => (0xFF, b)
      end
  end.

(** [void spiTransfer(uint8_t *out, size_t len, uint8_t *in)]: the contents
    of [in] afterwards. The service fills the receive buffer; the HAL only
    logs a failure. *)
Definition spiTransfer (out : list Z) (len : nat) (inb : list Z)
           (h : EspHal) (b : Bus) : list Z * Bus :=
  match spiDevice h with
  | None => (inb, b)
  | Some dev =>
      if Nat.eqb len 0 then (inb, b)
      else
        let tx := firstn len out in
        let r := reply b (transfers b) dev tx in
        (Driver.store_bytes (firstn len (map uint8 (snd r))) inb,
         record (spi_device_polling_transmit dev (Z.of_nat len * 8) tx) b)
  end.

End SpiBus.

(** The states an [EspHal] and the service reach from a freshly constructed
    object through [init], [term] and [addSpiDevice]. *)
Inductive reachable : SpiMaster.EspHal -> SpiMaster.Service -> Prop :=
| reach_new (sck miso mosi host : Z) (s : SpiMaster.Service) :
    reachable (SpiMaster.new sck miso mosi host) s
| reach_init (h : SpiMaster.EspHal) (s : SpiMaster.Service) :
    reachable h s ->
    reachable (fst (SpiMaster.init h s)) (snd (SpiMaster.init h s))
| reach_term (h : SpiMaster.EspHal) (s : SpiMaster.Service) :
    reachable h s ->
    reachable (fst (SpiMaster.term h s)) (snd (SpiMaster.term h s))
| reach_add (csPin clockHz : Z) (h : SpiMaster.EspHal)
            (s : SpiMaster.Service) :
    reachable h s ->
    reachable (snd (fst (SpiMaster.addSpiDevice csPin clockHz h s)))
              (snd (SpiMaster.addSpiDevice csPin clockHz h s)).

(** The handle and its flag go together, and the bus is owned only while
    the HAL is initialised. *)
Definition consistent (h : SpiMaster.EspHal) : Prop :=
  (SpiMaster.deviceAdded h = true <-> SpiMaster.spiDevice h <> None)
  /\ (SpiMaster.halInitialized h = false ->
      SpiMaster.busInitialized h = false).

(* ================================================================== *)
(** * EspHal (register flavour): the microsecond wait *)
(* ================================================================== *)

Module Clock.

Definition uint64 (z : Z) : Z := z mod 2 ^ 64.

(** The monotonic clock, scripted: the [i]-th call of
    [esp_timer_get_time()] returns [now i]; [reads] counts the calls made
    so far. *)
Record Timer : Type := mkTimer {
  now : nat -> Z;
  reads : nat
}.

Definition esp_timer_get_time (t : Timer) : Z * Timer :=
  (now t (reads t), mkTimer (now t) (S (reads t))).

(** [while ((uint64_t)esp_timer_get_time() > e) NOP();] *)
Fixpoint spin_while_above (fuel : nat) (e : Z) (t : Timer) : option Timer :=
  match fuel with
  | O => None
  | S fuel =>
      let (v, t) := esp_timer_get_time t in
      if e <? uint64 v then spin_while_above fuel e t else Some t
  end.

(** [while ((uint64_t)esp_timer_get_time() < e) NOP();] *)
Fixpoint spin_while_below (fuel : nat) (e : Z) (t : Timer) : option Timer :=
  match fuel with
  | O => None
  | S fuel =>
      let (v, t) := esp_timer_get_time t in
      if uint64 v <? e then spin_while_below fuel e t else Some t
  end.

(** [void delayMicroseconds(unsigned long us)]; each loop may poll the
    clock [fuel] times, and [None] is a loop that polled that often without
    leaving. *)
Definition delayMicroseconds (fuel : nat) (us : Z) (t : Timer)
  : option Timer :=
  let (v, t) := esp_timer_get_time t in
  let m := uint64 v in
  if negb (us =? 0) then
    let e := uint64 (m + us) in
    match (if e <? m then spin_while_above fuel e t else Some t) with
    | None => None
    | Some t => spin_while_below fuel e t
    end
  else Some t.

(** A clock whose next [n] readings fit 64 bits and grow from one call to
    the next. *)
Definition advancing (n : nat) (t : Timer) : Prop :=
  forall i, (reads t <= i < reads t + n)%nat ->
            0 <= now t i < 2 ^ 64 /\ now t i < now t (S i).

End Clock.


(* ================================================================== *)
(** * Properties: telemetry conversion *)
(* ================================================================== *)

Lemma byte_cases (P : Z -> bool) :
  forallb P (map Z.of_nat (seq 0 256)) = true ->
  forall r, 0 <= r < 256 -> P r = true.
Proof.
  intros Hall r Hr.
  rewrite forallb_forall in Hall.
  apply Hall.
  replace r with (Z.of_nat (Z.to_nat r)) by lia.
  apply in_map, in_seq. lia.
Qed.

Lemma representsb_sound (x : float32) (q : Q) :
  F32.representsb x q = true -> F32.represents x q.
Proof.
  unfold F32.representsb, F32.represents.
  destruct (F32.to_Q x) as [q'|]; [|discriminate].
  intros H. exists q'. split; [reflexivity|].
  now apply Qeq_bool_iff.
Qed.

Lemma convertRSSI_cases (r : Z) :
  0 <= r < 256 ->
  F32.representsb (convertRSSI r)
    (if r <? 128 then inject_Z r / 2 - 74
     else inject_Z (r - 256) / 2 - 74)%Q = true.
Proof.
  revert r.
  apply (byte_cases (fun r => F32.representsb (convertRSSI r)
    (if r <? 128 then inject_Z r / 2 - 74
     else inject_Z (r - 256) / 2 - 74)%Q)).
  vm_compute. reflexivity.
Qed.

(** C6. For every raw byte [r] in [0,255], [convertRSSI r] is exactly
    [r/2 - 74] when [r < 128] and [(r-256)/2 - 74] when [r >= 128]; at the
    seam, [r = 127] gives -10.5 and [r = 128] gives -138. *)
Theorem convertRSSI_two_piece_formula (r : Z) (Hr : 0 <= r < 256) :
  F32.represents (convertRSSI r)
    (if r <? 128 then inject_Z r / 2 - 74
     else inject_Z (r - 256) / 2 - 74)%Q
  /\ F32.represents (convertRSSI 127) (-21 # 2)%Q
  /\ F32.represents (convertRSSI 128) (-138)%Q.
Proof.
  split; [|split].
  - apply representsb_sound, convertRSSI_cases, Hr.
  - apply representsb_sound. vm_compute. reflexivity.
  - apply representsb_sound. vm_compute. reflexivity.
Qed.

Lemma convertRSSI_two_piece_formula_witness :
  0 <= 200 < 256
  /\ F32.represents (convertRSSI 200) (inject_Z (200 - 256) / 2 - 74)%Q.
Proof.
  split; [lia|].
  exact (proj1 (convertRSSI_two_piece_formula 200 ltac:(lia))).
Defined.

(* ================================================================== *)
(** * Properties: packet reception *)
(* ================================================================== *)

Section Reception.
Import Driver.

Lemma uint8_idem z : uint8 (uint8 z) = uint8 z.
Proof. unfold uint8. apply Z.mod_mod. lia. Qed.
Lemma uint8_range z : 0 <= uint8 z < 256.
Proof. unfold uint8. change (2^8) with 256. apply Z.mod_pos_bound. lia. Qed.

Lemma read_length_eq (l : Z) (len : nat) :
  (if l <? Z.of_nat len then Z.to_nat l else len) = Frame.read_length l len.
Proof.
  unfold Frame.read_length. destruct (Z.ltb_spec l (Z.of_nat len)).
  - now rewrite Z.min_l by lia.
  - rewrite Z.min_r by lia. now rewrite Nat2Z.id.
Qed.

Ltac run :=
  unfold bind, ret, get, set_packetLength, set_packetLengthQueried,
    set_rawRSSI, set_rawLQI, SPIsendCommand, startReceive, standby,
    delay_us, setFrequency, emit, SPIreadRegisterBurst, with_chip; simpl.


Lemma map_seq_offset {A : Type} (f : nat -> A) (c k n : nat) :
  map f (seq (c + k) n) = map (fun j => f (c + j)%nat) (seq k n).
Proof.
  revert k. induction n as [|n IH]; intros k; simpl; [reflexivity|].
  f_equal. rewrite <- IH. f_equal. f_equal. lia.
Qed.

Lemma Rev1_readData_eq MAX data len st :
  Rev1.readData MAX data len st =
  let d := Frame.declared_length st in
  let c := chip st in
  if Frame.acceptable MAX d then
    let n := Frame.read_length d len in
    let sb := Frame.status_byte st n in
    ((if negb (negb (Z.land sb 0x80 =? 0)) && crcOn st
      then RADIOLIB_ERR_CRC_MISMATCH else RADIOLIB_ERR_NONE,
      store_bytes (Frame.payload st n) data),
     mkRadio d true (Frame.rssi_byte st n) (Z.land sb 0x7F) (crcOn st)
       (mkChip (miso c) (cursor c + S (S (S n))) (tune c)
          (log c ++ [EvReadRegisterBurst 127 1; EvReadRegisterBurst 127 n;
                     EvReadRegisterBurst 127 1; EvReadRegisterBurst 127 1;
                     EvStartReceive])))
  else
    ((RADIOLIB_ERR_INVALID_PAYLOAD, data),
     mkRadio d true (rawRSSI st) (rawLQI st) (crcOn st)
       (mkChip (miso c) (cursor c + 1) (tune c)
          (log c ++ [EvReadRegisterBurst 127 1;
                     EvSendCommand RADIOLIB_CC1101_CMD_FLUSH_RX;
                     EvStartReceive]))).
Proof.
  destruct st as [pl plq rr rl crc [mi cu tu lg]].
  unfold Rev1.readData, Rev1.getPacketLength. run.
  unfold Frame.declared_length, Frame.acceptable, Frame.byte_at. simpl.
  rewrite Nat.add_0_r, uint8_idem.
  destruct ((uint8 (mi cu) =? 0) || (MAX <? uint8 (mi cu))); simpl.
  - rewrite <- !app_assoc. reflexivity.
  - rewrite read_length_eq.
    unfold Frame.status_byte, Frame.rssi_byte, Frame.payload, Frame.byte_at.
    simpl.
    set (n := Frame.read_length (uint8 (mi cu)) len).
    replace (cu + 1 + n + 1 + 1)%nat with (cu + S (S (S n)))%nat by lia.
    replace (cu + 1 + n + 1)%nat with (cu + S (S n))%nat by lia.
    replace (cu + 1 + n)%nat with (cu + S n)%nat by lia.
    rewrite (map_seq_offset (fun i => uint8 (mi i)) cu 1 n).
    destruct (negb (negb (Z.land (uint8 (mi (cu + S (S n))%nat)) 128 =? 0)) && crc);
      simpl; rewrite <- !app_assoc; reflexivity.
Qed.

Lemma Rev2_readData_eq MAX data len st :
  Rev2.readData MAX data len st =
  let d := Frame.declared_length st in
  let c := chip st in
  let ok := Frame.acceptable MAX d in
  let n := Frame.read_length (Frame.taken_length MAX d) len in
  let sb := Frame.status_byte st n in
  ((if negb (negb (Z.land sb 0x80 =? 0)) && crcOn st
    then RADIOLIB_ERR_CRC_MISMATCH else RADIOLIB_ERR_NONE,
    store_bytes (Frame.payload st n) data),
   mkRadio (if ok then d else packetLength st) ok
     (Frame.rssi_byte st n) (Z.land sb 0x7F) (crcOn st)
     (mkChip (miso c) (cursor c + S (S (S n))) (tune c)
        (log c ++ [EvReadRegisterBurst 63 1]
               ++ (if ok then []
                   else [EvSendCommand RADIOLIB_CC1101_CMD_FLUSH_RX;
                         EvStartReceive])
               ++ [EvReadRegisterBurst 63 n; EvReadRegisterBurst 63 1;
                   EvReadRegisterBurst 63 1; EvStartReceive]))).
Proof.
  destruct st as [pl plq rr rl crc [mi cu tu lg]].
  unfold Rev2.readData, Rev2.getPacketLength. run.
  unfold Frame.declared_length, Frame.taken_length, Frame.acceptable,
    Frame.byte_at. simpl.
  rewrite Nat.add_0_r.
  destruct ((uint8 (mi cu) =? 0) || (MAX <? uint8 (mi cu))); simpl.
  - change (uint8 0) with 0. rewrite read_length_eq.
    unfold Frame.status_byte, Frame.rssi_byte, Frame.payload, Frame.byte_at.
    simpl.
    set (n := Frame.read_length 0 len).
    replace (cu + 1 + n + 1 + 1)%nat with (cu + S (S (S n)))%nat by lia.
    replace (cu + 1 + n + 1)%nat with (cu + S (S n))%nat by lia.
    replace (cu + 1 + n)%nat with (cu + S n)%nat by lia.
    rewrite (map_seq_offset (fun i => uint8 (mi i)) cu 1 n).
    destruct (negb (negb (Z.land (uint8 (mi (cu + S (S n))%nat)) 128 =? 0)) && crc);
      simpl; rewrite <- !app_assoc; reflexivity.
  - rewrite uint8_idem, read_length_eq.
    unfold Frame.status_byte, Frame.rssi_byte, Frame.payload, Frame.byte_at.
    simpl.
    set (n := Frame.read_length (uint8 (mi cu)) len).
    replace (cu + 1 + n + 1 + 1)%nat with (cu + S (S (S n)))%nat by lia.
    replace (cu + 1 + n + 1)%nat with (cu + S (S n))%nat by lia.
    replace (cu + 1 + n)%nat with (cu + S n)%nat by lia.
    rewrite (map_seq_offset (fun i => uint8 (mi i)) cu 1 n).
    destruct (negb (negb (Z.land (uint8 (mi (cu + S (S n))%nat)) 128 =? 0)) && crc);
      simpl; rewrite <- !app_assoc; reflexivity.
Qed.

Lemma crc_flag (b : Z) : (Z.land b 0x80 =? 0) = negb (Z.testbit b 7).
Proof.
  destruct (Z.testbit b 7) eqn:Hb; simpl.
  - apply Z.eqb_neq. intros H.
    assert (Z.testbit (Z.land b 128) 7 = false) by (rewrite H; apply Z.bits_0).
    rewrite Z.land_spec, Hb in H0. discriminate.
  - apply Z.eqb_eq. apply Z.bits_inj'. intros n Hn.
    rewrite Z.land_spec, Z.bits_0.
    destruct (Z.eq_dec n 7) as [->|Hne].
    + rewrite Hb. reflexivity.
    + change 128 with (2 ^ 7). rewrite Z.pow2_bits_eqb by lia.
      replace (7 =? n) with false by (symmetry; apply Z.eqb_neq; lia).
      apply andb_false_r.
Qed.

Lemma read_length_zero (len : nat) : Frame.read_length 0 len = 0%nat.
Proof. unfold Frame.read_length. rewrite Z.min_l by lia. reflexivity. Qed.


Lemma declared_length_range (st : Radio) :
  0 <= Frame.declared_length st < 256.
Proof. apply uint8_range. Qed.





Lemma payload_length (st : Radio) (n : nat) :
  length (Frame.payload st n) = n.
Proof. unfold Frame.payload. now rewrite length_map, length_seq. Qed.

(** C1, as the code has it. When the declared length is 0 or above the
    limit, the first revision's [readData] reads nothing more, flushes the
    FIFO, re-arms reception and returns [RADIOLIB_ERR_INVALID_PAYLOAD] with
    the buffer untouched. In the second revision the check sits in
    [getPacketLength], which flushes, re-arms and answers 0: [readData] then
    reads no payload byte and leaves the buffer untouched, but goes on to
    read the two status bytes and returns what the CRC rule gives, never
    [RADIOLIB_ERR_INVALID_PAYLOAD]. *)
Theorem readData_invalid_length (MAX : Z) (data : list Z) (len : nat)
        (st : Radio)
        (Hbad : Frame.acceptable MAX (Frame.declared_length st) = false) :
  (let r := Rev1.readData MAX data len st in
   status_of r = RADIOLIB_ERR_INVALID_PAYLOAD
   /\ data_of r = data
   /\ Frame.logged st (state_of r)
        [EvReadRegisterBurst 127 1;
         EvSendCommand RADIOLIB_CC1101_CMD_FLUSH_RX; EvStartReceive])
  /\
  (let r := Rev2.readData MAX data len st in
   status_of r =
     (if crcOn st && negb (Z.testbit (Frame.status_byte st 0) 7)
      then RADIOLIB_ERR_CRC_MISMATCH else RADIOLIB_ERR_NONE)
   /\ status_of r <> RADIOLIB_ERR_INVALID_PAYLOAD
   /\ data_of r = data
   /\ Frame.logged st (state_of r)
        [EvReadRegisterBurst 63 1;
         EvSendCommand RADIOLIB_CC1101_CMD_FLUSH_RX; EvStartReceive;
         EvReadRegisterBurst 63 0; EvReadRegisterBurst 63 1;
         EvReadRegisterBurst 63 1; EvStartReceive]).
Proof.
  split.
  - rewrite Rev1_readData_eq. cbv zeta. rewrite Hbad.
    unfold status_of, data_of, state_of, Frame.logged. simpl. auto.
  - rewrite Rev2_readData_eq. cbv zeta.
    unfold Frame.taken_length. rewrite Hbad, read_length_zero.
    unfold status_of, data_of, state_of, Frame.logged. simpl.
    rewrite crc_flag, negb_involutive, andb_comm.
    repeat split.
    destruct (crcOn st && negb (Z.testbit (Frame.status_byte st 0) 7));
      discriminate.
Qed.

Lemma readData_invalid_length_witness :
  Frame.acceptable 255 (Frame.declared_length (scripted_radio true [0; 9; 128]))
  = false
  /\ status_of (Rev1.readData 255 [7; 7] 2 (scripted_radio true [0; 9; 128]))
     = RADIOLIB_ERR_INVALID_PAYLOAD
  /\ status_of (Rev2.readData 255 [7; 7] 2 (scripted_radio true [0; 9; 128]))
     <> RADIOLIB_ERR_INVALID_PAYLOAD.
Proof.
  pose proof (readData_invalid_length 255 [7; 7] 2
                (scripted_radio true [0; 9; 128]) eq_refl) as [H1 H2].
  split; [reflexivity|]. split; [apply H1 | apply H2].
Defined.

(** C1, refuted as stated: with a declared length of 0 and the CRC flag set
    in the status byte that follows, the second revision's [readData]
    returns success. *)
Lemma readData_rev2_zero_length_succeeds :
  let st := scripted_radio true [0; 9; 128] in
  Frame.declared_length st = 0
  /\ status_of (Rev2.readData 255 [7; 7] 2 st) = RADIOLIB_ERR_NONE.
Proof. split; reflexivity. Qed.




(** C3. Whatever the outcome (invalid length, CRC mismatch, success), the
    last access [readData] makes to the chip before it returns is
    [startReceive], in both revisions. *)
Theorem readData_always_rearms (MAX : Z) (data : list Z) (len : nat)
        (st : Radio) :
  (exists evs,
      Frame.logged st (state_of (Rev1.readData MAX data len st))
                   (evs ++ [EvStartReceive]))
  /\ (exists evs,
         Frame.logged st (state_of (Rev2.readData MAX data len st))
                      (evs ++ [EvStartReceive])).
Proof.
  split.
  - rewrite Rev1_readData_eq. cbv zeta. unfold Frame.logged, state_of.
    destruct (Frame.acceptable MAX (Frame.declared_length st)); simpl.
    + eexists [_; _; _; _]. reflexivity.
    + eexists [_; _]. reflexivity.
  - rewrite Rev2_readData_eq. cbv zeta. unfold Frame.logged, state_of.
    destruct (Frame.acceptable MAX (Frame.declared_length st)); simpl.
    + eexists [_; _; _; _]. reflexivity.
    + eexists [_; _; _; _; _; _]. reflexivity.
Qed.




End Reception.

(* ================================================================== *)
(** * Properties: spectrum scan *)
(* ================================================================== *)

Section Scan.
Import Driver.

Lemma logged_refl (st : Radio) : Frame.logged st st [].
Proof. unfold Frame.logged. now rewrite app_nil_r. Qed.

Lemma logged_trans (a b c : Radio) (e1 e2 : list Event) :
  Frame.logged a b e1 -> Frame.logged b c e2 -> Frame.logged a c (e1 ++ e2).
Proof. unfold Frame.logged. intros H1 H2. now rewrite H2, H1, app_assoc. Qed.

Lemma frequencies_app (a b : list Event) :
  frequencies (a ++ b) = frequencies a ++ frequencies b.
Proof. apply flat_map_app. Qed.

Lemma waits_app (a b : list Event) : waits (a ++ b) = waits a ++ waits b.
Proof. apply flat_map_app. Qed.

Lemma emit_logged (e : Event) (st : Radio) :
  Frame.logged st (snd (emit e st)) [e].
Proof. reflexivity. Qed.

Lemma setFrequency_logged (f : float32) (st : Radio) :
  Frame.logged st (snd (setFrequency f st)) [EvSetFrequency f].
Proof. reflexivity. Qed.

Lemma Rev1_getRSSI_spec (st : Radio) :
  exists r, 0 <= r < 256
    /\ fst (Rev1.getRSSI st) = convertRSSI r
    /\ Frame.logged st (snd (Rev1.getRSSI st)) [EvReadRegisterBurst 244 1].
Proof.
  exists (uint8 (miso (chip st) (cursor (chip st)))).
  split; [apply uint8_range | split; reflexivity].
Qed.

Lemma Rev2_getRSSI_spec (st : Radio) :
  exists r, 0 <= r < 256
    /\ fst (Rev2.getRSSI st) = convertRSSI r
    /\ Frame.logged st (snd (Rev2.getRSSI st)) [EvReadRegisterBurst 116 1].
Proof.
  exists (uint8 (miso (chip st) (cursor (chip st)))).
  split; [apply uint8_range | split; reflexivity].
Qed.

Lemma store_at_nth_error {A : Type} (i : nat) (v : A) (l : list A) (j : nat)
      (w : A) :
  nth_error (store_at i v l) j = Some w ->
  w = v \/ nth_error l j = Some w.
Proof.
  revert l j. induction i as [|i IH]; intros [|hd tl] [|j]; simpl; intros H;
    try discriminate; auto.
  injection H as <-. auto.
Qed.

Lemma Rev1_scan_loop_S n i dw f step values st :
  Rev1.scan_loop (S n) i dw f step values st =
  let st1 := snd (setFrequency f st) in
  if negb (Status_eqb (fst (setFrequency f st)) RADIOLIB_ERR_NONE)
  then Rev1.scan_loop n (S i) dw (F32.add f step) step
                      (store_at i SCAN_INVALID values) st1
  else
    let st2 := snd (emit (EvDelayMicroseconds dw) st1) in
    Rev1.scan_loop n (S i) dw (F32.add f step) step
                   (store_at i (fst (Rev1.getRSSI st2)) values)
                   (snd (Rev1.getRSSI st2)).
Proof.
  cbn [Rev1.scan_loop]. unfold bind at 1.
  destruct (setFrequency f st) as [state st1]. cbn [fst snd].
  destruct (negb (Status_eqb state RADIOLIB_ERR_NONE)); reflexivity.
Qed.

Lemma Rev1_scan_loop_log (n : nat) :
  forall i dw f step values st,
  exists evs,
    Frame.logged st (snd (Rev1.scan_loop n i dw f step values st)) evs
    /\ frequencies evs = ramp n f step
    /\ Forall (eq dw) (waits evs)
    /\ forall j v,
         nth_error (fst (Rev1.scan_loop n i dw f step values st)) j = Some v ->
         scan_cell (nth_error values j) v.
Proof.
  induction n as [|n IH]; intros i dw f step values st.
  - exists []. simpl. split; [apply logged_refl|].
    split; [reflexivity|]. split; [constructor|].
    intros j v H. left. exact H.
  - rewrite Rev1_scan_loop_S. cbv zeta. cbn [ramp].
    pose proof (setFrequency_logged f st) as Hlog1.
    set (st1 := snd (setFrequency f st)) in *.
    destruct (negb (Status_eqb (fst (setFrequency f st)) RADIOLIB_ERR_NONE)).
    + destruct (IH (S i) dw (F32.add f step) step
                   (store_at i SCAN_INVALID values) st1)
        as (evs & Hl & Hf & Hw & Hc).
      exists ([EvSetFrequency f] ++ evs). split; [|split; [|split]].
      * eapply logged_trans; eassumption.
      * rewrite frequencies_app, Hf. reflexivity.
      * rewrite waits_app. simpl. exact Hw.
      * intros j v Hj. destruct (Hc j v Hj) as [Hold|Hnew]; [|right; exact Hnew].
        apply store_at_nth_error in Hold. destruct Hold as [->|Hold].
        -- right. left. reflexivity.
        -- left. exact Hold.
    + pose proof (emit_logged (EvDelayMicroseconds dw) st1) as Hlog2.
      set (st2 := snd (emit (EvDelayMicroseconds dw) st1)) in *.
      destruct (Rev1_getRSSI_spec st2) as (r & Hr & Hv & Hlog3).
      rewrite Hv.
      destruct (IH (S i) dw (F32.add f step) step
                   (store_at i (convertRSSI r) values) (snd (Rev1.getRSSI st2)))
        as (evs & Hl & Hf & Hw & Hc).
      exists ([EvSetFrequency f] ++ [EvDelayMicroseconds dw]
              ++ [EvReadRegisterBurst 244 1] ++ evs).
      split; [|split; [|split]].
      * eapply logged_trans; [eassumption|].
        eapply logged_trans; [eassumption|].
        eapply logged_trans; eassumption.
      * rewrite !frequencies_app, Hf. reflexivity.
      * rewrite !waits_app. simpl. constructor; [reflexivity | exact Hw].
      * intros j w Hj. destruct (Hc j w Hj) as [Hold|Hnew]; [|right; exact Hnew].
        apply store_at_nth_error in Hold. destruct Hold as [->|Hold].
        -- right. right. exists r. split; [assumption | reflexivity].
        -- left. exact Hold.
Qed.

Lemma Rev2_scan_loop_S n i dw f step values st :
  Rev2.scan_loop (S n) i dw f step values st =
  let st1 := snd (setFrequency f st) in
  if negb (Status_eqb (fst (setFrequency f st)) RADIOLIB_ERR_NONE)
  then Rev2.scan_loop n (S i) dw (F32.add f step) step
                      (store_at i SCAN_INVALID values) st1
  else
    let st2 := snd (emit (EvDelayMicroseconds dw)
                      (snd (emit (EvSendCommand RADIOLIB_CC1101_CMD_RX) st1))) in
    Rev2.scan_loop n (S i) dw (F32.add f step) step
                   (store_at i (fst (Rev2.getRSSI st2)) values)
                   (snd (Rev2.getRSSI st2)).
Proof.
  cbn [Rev2.scan_loop]. unfold bind at 1.
  destruct (setFrequency f st) as [state st1]. cbn [fst snd].
  destruct (negb (Status_eqb state RADIOLIB_ERR_NONE)); reflexivity.
Qed.

Lemma Rev2_scan_loop_log (n : nat) :
  forall i dw f step values st,
  exists evs,
    Frame.logged st (snd (Rev2.scan_loop n i dw f step values st)) evs
    /\ frequencies evs = ramp n f step
    /\ Forall (eq dw) (waits evs)
    /\ forall j v,
         nth_error (fst (Rev2.scan_loop n i dw f step values st)) j = Some v ->
         scan_cell (nth_error values j) v.
Proof.
  induction n as [|n IH]; intros i dw f step values st.
  - exists []. simpl. split; [apply logged_refl|].
    split; [reflexivity|]. split; [constructor|].
    intros j v H. left. exact H.
  - rewrite Rev2_scan_loop_S. cbv zeta. cbn [ramp].
    pose proof (setFrequency_logged f st) as Hlog1.
    set (st1 := snd (setFrequency f st)) in *.
    destruct (negb (Status_eqb (fst (setFrequency f st)) RADIOLIB_ERR_NONE)).
    + destruct (IH (S i) dw (F32.add f step) step
                   (store_at i SCAN_INVALID values) st1)
        as (evs & Hl & Hf & Hw & Hc).
      exists ([EvSetFrequency f] ++ evs). split; [|split; [|split]].
      * eapply logged_trans; eassumption.
      * rewrite frequencies_app, Hf. reflexivity.
      * rewrite waits_app. simpl. exact Hw.
      * intros j v Hj. destruct (Hc j v Hj) as [Hold|Hnew]; [|right; exact Hnew].
        apply store_at_nth_error in Hold. destruct Hold as [->|Hold].
        -- right. left. reflexivity.
        -- left. exact Hold.
    + pose proof (emit_logged (EvSendCommand RADIOLIB_CC1101_CMD_RX) st1)
        as Hlog2.
      set (st1' := snd (emit (EvSendCommand RADIOLIB_CC1101_CMD_RX) st1)) in *.
      pose proof (emit_logged (EvDelayMicroseconds dw) st1') as Hlog2'.
      set (st2 := snd (emit (EvDelayMicroseconds dw) st1')) in *.
      destruct (Rev2_getRSSI_spec st2) as (r & Hr & Hv & Hlog3).
      rewrite Hv.
      destruct (IH (S i) dw (F32.add f step) step
                   (store_at i (convertRSSI r) values) (snd (Rev2.getRSSI st2)))
        as (evs & Hl & Hf & Hw & Hc).
      exists ([EvSetFrequency f] ++ [EvSendCommand RADIOLIB_CC1101_CMD_RX]
              ++ [EvDelayMicroseconds dw]
              ++ [EvReadRegisterBurst 116 1] ++ evs).
      split; [|split; [|split]].
      * eapply logged_trans; [eassumption|].
        eapply logged_trans; [eassumption|].
        eapply logged_trans; [eassumption|].
        eapply logged_trans; eassumption.
      * rewrite !frequencies_app, Hf. reflexivity.
      * rewrite !waits_app. simpl. constructor; [reflexivity | exact Hw].
      * intros j w Hj. destruct (Hc j w Hj) as [Hold|Hnew]; [|right; exact Hnew].
        apply store_at_nth_error in Hold. destruct Hold as [->|Hold].
        -- right. right. exists r. split; [assumption | reflexivity].
        -- left. exact Hold.
Qed.

Lemma clamp_dwell_spec (d : Z) :
  500 <= Rev1.clamp_dwell d <= 50000
  /\ (d < 500 -> Rev1.clamp_dwell d = 500)
  /\ (50000 < d -> Rev1.clamp_dwell d = 50000)
  /\ (500 <= d <= 50000 -> Rev1.clamp_dwell d = d)
  /\ Rev2.clamp_dwell d = Rev1.clamp_dwell d.
Proof.
  unfold Rev1.clamp_dwell, Rev2.clamp_dwell.
  destruct (Z.ltb_spec d 500); destruct (Z.ltb_spec 50000 d); lia.
Qed.

Lemma represents_of_list (xs : list float32) (qs : list Q) :
  forallb (fun p => F32.representsb (fst p) (snd p)) (combine xs qs) = true ->
  length xs = length qs ->
  Forall2 F32.represents xs qs.
Proof.
  revert qs. induction xs as [|x xs IH]; intros [|q qs]; simpl;
    try discriminate; [constructor|].
  intros H Hlen. apply andb_true_iff in H. destruct H as [H1 H2].
  constructor; [now apply representsb_sound | apply IH; [exact H2 | lia]].
Qed.

Lemma represents_complete (x : float32) (q : Q) :
  F32.represents x q -> F32.representsb x q = true.
Proof.
  unfold F32.represents, F32.representsb.
  intros (q' & -> & H). now apply Qeq_bool_iff.
Qed.

Lemma Rev1_scanRSSI_eq values n c s d st :
  n <> 0%nat ->
  Rev1.scanRSSI (Some values) n c s d st =
  let st0 := snd (emit (EvSendCommand RADIOLIB_CC1101_CMD_RX) st) in
  let r := Rev1.scan_loop n 0 (Rev1.clamp_dwell d) (scan_start n c s)
                          (F32.div s (F32.of_Z 1000)) values st0 in
  (RADIOLIB_ERR_NONE, Some (fst r), snd (emit EvStandby (snd r))).
Proof.
  intros Hn. apply Nat.eqb_neq in Hn.
  unfold Rev1.scanRSSI. rewrite Hn. fold (scan_start n c s).
  unfold bind, SPIsendCommand, standby, ret. cbv zeta.
  destruct (emit (EvSendCommand RADIOLIB_CC1101_CMD_RX) st) as [u st0].
  cbn [snd].
  destruct (Rev1.scan_loop n 0 (Rev1.clamp_dwell d) (scan_start n c s)
              (F32.div s (F32.of_Z 1000)) values st0) as [vs st1].
  cbn [fst snd]. destruct (emit EvStandby st1). reflexivity.
Qed.

Lemma Rev2_scanRSSI_eq values n c s d st :
  n <> 0%nat ->
  Rev2.scanRSSI (Some values) n c s d st =
  let r := Rev2.scan_loop n 0 (Rev2.clamp_dwell d) (scan_start n c s)
                          (F32.div s (F32.of_Z 1000)) values st in
  (RADIOLIB_ERR_NONE, Some (fst r), snd (emit EvStandby (snd r))).
Proof.
  intros Hn. apply Nat.eqb_neq in Hn.
  unfold Rev2.scanRSSI. rewrite Hn. fold (scan_start n c s).
  unfold bind, standby, ret. cbv zeta.
  destruct (Rev2.scan_loop n 0 (Rev2.clamp_dwell d) (scan_start n c s)
              (F32.div s (F32.of_Z 1000)) values st) as [vs st1].
  cbn [fst snd]. destruct (emit EvStandby st1). reflexivity.
Qed.

(** C4, as the code has it. With a non-null array and a non-zero point
    count, every wait of the scan lasts the dwell time clamped into
    [500, 50000] microseconds, and the frequencies programmed are, in order,
    [start], [start + step], [(start + step) + step], ... in single
    precision, where [step = step_khz / 1000] and
    [start = center_freq - (num_points / 2.0) * (step_khz / 1000)]: the
    division of the point count by two is a division of floats, 2.5 for five
    points. A scan of 5 points around 433.0 MHz in steps of 250 kHz therefore
    programs 432.375, 432.625, 432.875, 433.125 and 433.375 MHz. *)
Theorem scanRSSI_dwell_and_frequencies (values : list float32) (n : nat)
        (c s : float32) (d : Z) (st : Radio) (Hn : n <> 0%nat) :
  let start := scan_start n c s in
  let step := F32.div s (F32.of_Z 1000) in
  (500 <= Rev1.clamp_dwell d <= 50000
   /\ (d < 500 -> Rev1.clamp_dwell d = 500)
   /\ (50000 < d -> Rev1.clamp_dwell d = 50000)
   /\ (500 <= d <= 50000 -> Rev1.clamp_dwell d = d)
   /\ Rev2.clamp_dwell d = Rev1.clamp_dwell d)
  /\ (let r := Rev1.scanRSSI (Some values) n c s d st in
      status_of r = RADIOLIB_ERR_NONE
      /\ exists evs,
          Frame.logged st (state_of r) evs
          /\ frequencies evs = ramp n start step
          /\ Forall (eq (Rev1.clamp_dwell d)) (waits evs))
  /\ (let r := Rev2.scanRSSI (Some values) n c s d st in
      status_of r = RADIOLIB_ERR_NONE
      /\ exists evs,
          Frame.logged st (state_of r) evs
          /\ frequencies evs = ramp n start step
          /\ Forall (eq (Rev2.clamp_dwell d)) (waits evs))
  /\ Forall2 F32.represents
       (ramp 5 (scan_start 5 (F32.of_Z 433) (F32.of_Z 250))
             (F32.div (F32.of_Z 250) (F32.of_Z 1000)))
       [3459 # 8; 3461 # 8; 3463 # 8; 3465 # 8; 3467 # 8]%Q.
Proof.
  cbv zeta. split; [apply clamp_dwell_spec|].
  split; [|split].
  - rewrite (Rev1_scanRSSI_eq values n c s d st Hn). cbv zeta.
    unfold status_of, state_of. cbn [fst snd]. split; [reflexivity|].
    set (st0 := snd (emit (EvSendCommand RADIOLIB_CC1101_CMD_RX) st)).
    destruct (Rev1_scan_loop_log n 0 (Rev1.clamp_dwell d) (scan_start n c s)
                (F32.div s (F32.of_Z 1000)) values st0)
      as (evs & Hl & Hf & Hw & _).
    exists ([EvSendCommand RADIOLIB_CC1101_CMD_RX] ++ evs ++ [EvStandby]).
    split; [|split].
    + eapply logged_trans; [apply emit_logged|].
      eapply logged_trans; [exact Hl | apply emit_logged].
    + rewrite !frequencies_app, Hf. simpl. now rewrite app_nil_r.
    + rewrite !waits_app. simpl. now rewrite app_nil_r.
  - rewrite (Rev2_scanRSSI_eq values n c s d st Hn). cbv zeta.
    unfold status_of, state_of. cbn [fst snd]. split; [reflexivity|].
    destruct (Rev2_scan_loop_log n 0 (Rev2.clamp_dwell d) (scan_start n c s)
                (F32.div s (F32.of_Z 1000)) values st)
      as (evs & Hl & Hf & Hw & _).
    exists (evs ++ [EvStandby]).
    split; [|split].
    + eapply logged_trans; [exact Hl | apply emit_logged].
    + rewrite !frequencies_app, Hf. simpl. now rewrite app_nil_r.
    + rewrite !waits_app. simpl. now rewrite app_nil_r.
  - apply represents_of_list; vm_compute; reflexivity.
Qed.

Lemma scanRSSI_dwell_and_frequencies_witness :
  let st := scripted_radio true [] in
  let zeros := repeat (F32.of_Z 0) 5 in
  5%nat <> 0%nat
  /\ exists evs,
      Frame.logged st
        (state_of (Rev2.scanRSSI (Some zeros) 5 (F32.of_Z 433) (F32.of_Z 250)
                                 100 st)) evs
      /\ frequencies evs
         = ramp 5 (scan_start 5 (F32.of_Z 433) (F32.of_Z 250))
                (F32.div (F32.of_Z 250) (F32.of_Z 1000))
      /\ Forall (eq 500) (waits evs).
Proof.
  cbv zeta. split; [discriminate|].
  exact (proj2 (proj1 (proj2 (proj2
           (scanRSSI_dwell_and_frequencies (repeat (F32.of_Z 0) 5) 5
              (F32.of_Z 433) (F32.of_Z 250) 100 (scripted_radio true [])
              ltac:(discriminate)))))).
Defined.

(** C4, refuted as stated: the scan of 5 points around 433.0 MHz in steps
    of 250 kHz does not program 432.5, 432.75, 433.0, 433.25, 433.5 MHz. *)
Lemma scanRSSI_example_is_off_by_half_a_step :
  let st := scripted_radio true [] in
  let zeros := repeat (F32.of_Z 0) 5 in
  let r := Rev2.scanRSSI (Some zeros) 5 (F32.of_Z 433) (F32.of_Z 250) 3000 st in
  ~ Forall2 F32.represents (frequencies (log (chip (state_of r))))
      [865 # 2; 1731 # 4; 433 # 1; 1733 # 4; 867 # 2]%Q.
Proof.
  cbv zeta. intros H.
  set (fs := frequencies _) in H. vm_compute in fs. subst fs.
  inversion H as [|x q xs qs Hx _]; subst.
  apply represents_complete in Hx. vm_compute in Hx. discriminate.
Qed.

(** C8. [scanRSSI] called with a null array, or with a point count of zero,
    returns the parameter error [RADIOLIB_ERR_INVALID_RSSI_OFFSET] and leaves
    the object and the chip as they were: nothing is sent, programmed or
    read. *)
Theorem scanRSSI_rejects_null_or_empty (values : option (list float32))
        (n : nat) (c s : float32) (d : Z) (st : Radio) :
  Rev1.scanRSSI None n c s d st
    = (RADIOLIB_ERR_INVALID_RSSI_OFFSET, None, st)
  /\ Rev1.scanRSSI values 0 c s d st
    = (RADIOLIB_ERR_INVALID_RSSI_OFFSET, values, st)
  /\ Rev2.scanRSSI None n c s d st
    = (RADIOLIB_ERR_INVALID_RSSI_OFFSET, None, st)
  /\ Rev2.scanRSSI values 0 c s d st
    = (RADIOLIB_ERR_INVALID_RSSI_OFFSET, values, st)
  /\ RADIOLIB_ERR_INVALID_RSSI_OFFSET <> RADIOLIB_ERR_NONE.
Proof.
  repeat split; try discriminate; destruct values; reflexivity.
Qed.

Lemma rssi_in_range_cases (r : Z) :
  0 <= r < 256 ->
  rssi_in_range (convertRSSI r)
  && negb (F32.eqb (convertRSSI r) SCAN_INVALID) = true.
Proof.
  revert r.
  apply (byte_cases (fun r => rssi_in_range (convertRSSI r)
                              && negb (F32.eqb (convertRSSI r) SCAN_INVALID))).
  vm_compute. reflexivity.
Qed.

(** C10. For every raw byte [r] in [0,255] the converted reading lies in
    [-138, -10.5] dBm, so it differs from the value -999 that [scanRSSI]
    stores for a point it could not tune to; and after a scan every cell of
    the array is either as it was before, that sentinel, or such a
    reading. *)
Theorem convertRSSI_range_excludes_sentinel (r : Z) (Hr : 0 <= r < 256) :
  (exists q, F32.to_Q (convertRSSI r) = Some q
             /\ (-138 <= q)%Q /\ (q <= -21 # 2)%Q)
  /\ F32.represents SCAN_INVALID (-999)%Q
  /\ convertRSSI r <> SCAN_INVALID
  /\ F32.eqb (convertRSSI r) SCAN_INVALID = false
  /\ (forall values n c s d st vs j v,
        (data_of (Rev1.scanRSSI (Some values) n c s d st) = Some vs
         \/ data_of (Rev2.scanRSSI (Some values) n c s d st) = Some vs) ->
        nth_error vs j = Some v ->
        scan_cell (nth_error values j) v).
Proof.
  pose proof (rssi_in_range_cases r Hr) as H.
  apply andb_true_iff in H. destruct H as [Hrange Hneq].
  apply negb_true_iff in Hneq.
  split; [|split; [|split; [|split]]].
  - unfold rssi_in_range in Hrange.
    destruct (F32.to_Q (convertRSSI r)) as [q|]; [|discriminate].
    apply andb_true_iff in Hrange. destruct Hrange as [H1 H2].
    exists q. split; [reflexivity|].
    split; now apply Qle_bool_iff.
  - apply representsb_sound. vm_compute. reflexivity.
  - intros Heq. rewrite Heq in Hneq. vm_compute in Hneq. discriminate.
  - exact Hneq.
  - intros values n c s d st vs j v Hvs Hj.
    destruct (Nat.eq_dec n 0) as [->|Hn].
    + assert (vs = values) as ->.
      { destruct Hvs as [Hvs|Hvs]; unfold data_of in Hvs; simpl in Hvs;
          now injection Hvs. }
      left. exact Hj.
    + destruct Hvs as [Hvs|Hvs].
      * rewrite (Rev1_scanRSSI_eq values n c s d st Hn) in Hvs.
        unfold data_of in Hvs. cbn [fst snd] in Hvs. injection Hvs as <-.
        destruct (Rev1_scan_loop_log n 0 (Rev1.clamp_dwell d)
                    (scan_start n c s) (F32.div s (F32.of_Z 1000)) values
                    (snd (emit (EvSendCommand RADIOLIB_CC1101_CMD_RX) st)))
          as (evs & _ & _ & _ & Hc).
        apply Hc. exact Hj.
      * rewrite (Rev2_scanRSSI_eq values n c s d st Hn) in Hvs.
        unfold data_of in Hvs. cbn [fst snd] in Hvs. injection Hvs as <-.
        destruct (Rev2_scan_loop_log n 0 (Rev2.clamp_dwell d)
                    (scan_start n c s) (F32.div s (F32.of_Z 1000)) values st)
          as (evs & _ & _ & _ & Hc).
        apply Hc. exact Hj.
Qed.

Lemma convertRSSI_range_excludes_sentinel_witness :
  0 <= 128 < 256
  /\ convertRSSI 128 <> SCAN_INVALID
  /\ F32.eqb (convertRSSI 128) SCAN_INVALID = false.
Proof.
  split; [lia|].
  pose proof (convertRSSI_range_excludes_sentinel 128 ltac:(lia))
    as (_ & _ & H1 & H2 & _).
  split; [exact H1 | exact H2].
Defined.

End Scan.

(* ================================================================== *)
(** * Properties: the life cycle of the shared bus *)
(* ================================================================== *)

Section BusLifeCycle.
Import SpiMaster.

Lemma spiEnd_spec (h : EspHal) (s : Service) :
  calls (snd (spiEnd h s)) = calls s ++ closing_calls h
  /\ busInitialized (fst (spiEnd h s)) = false
  /\ (deviceAdded h = true -> spiDevice (fst (spiEnd h s)) = None).
Proof.
  unfold spiEnd, closing_calls, request.
  destruct h as [k mi mo ho [dev|] [|] [|] hi]; simpl;
    rewrite <- ?app_assoc, ?app_nil_r; repeat split; auto; discriminate.
Qed.

Lemma term_spec (h : EspHal) (s : Service) :
  halInitialized h = true ->
  calls (snd (term h s)) = calls s ++ closing_calls h
  /\ busInitialized (fst (term h s)) = false
  /\ (deviceAdded h = true -> spiDevice (fst (term h s)) = None).
Proof.
  intros Hi. unfold term. rewrite Hi.
  destruct (spiEnd_spec h s) as (H1 & H2 & H3).
  destruct (spiEnd h s) as [h' s']. simpl in *. auto.
Qed.

Lemma init_new_spec (sck miso mosi host : Z) (s : Service) :
  let h := fst (init (new sck miso mosi host) s) in
  halInitialized h = true
  /\ spiHost h = host
  /\ spiDevice h = None
  /\ deviceAdded h = false
  /\ (busInitialized h = true <->
      answer s (calls s) (spi_bus_initialize host mosi miso sck) = ESP_OK).
Proof.
  unfold init, new, spiBegin, request. simpl.
  destruct (answer s (calls s) (spi_bus_initialize host mosi miso sck));
    simpl; repeat split; auto; discriminate.
Qed.

Lemma addSpiDevice_spec (cs clk : Z) (h : EspHal) (s : Service) :
  let r := addSpiDevice cs clk h s in
  let h' := snd (fst r) in
  halInitialized h' = halInitialized h
  /\ busInitialized h' = busInitialized h
  /\ spiHost h' = spiHost h
  /\ (fst (fst r) = true ->
      deviceAdded h' = true /\ exists dev, spiDevice h' = Some dev)
  /\ (fst (fst r) = false -> h' = h).
Proof.
  unfold addSpiDevice, request.
  destruct (uint32 cs =? RADIOLIB_NC); simpl.
  - repeat split; auto; discriminate.
  - destruct (answer s (calls s) (spi_bus_add_device (spiHost h) cs clk));
      simpl; repeat split; auto; try discriminate.
    eexists; reflexivity.
Qed.

(** C7. An [EspHal] that is constructed, opened with [init], given its
    device with [addSpiDevice] and closed with [term] calls [spi_bus_free]
    in [term] exactly when its own [spi_bus_initialize] had answered
    [ESP_OK]; when the bus was found already initialised
    ([ESP_ERR_INVALID_STATE]) no bus is freed; the device registered by a
    successful [addSpiDevice] is removed either way, before any
    [spi_bus_free]. *)
Theorem term_frees_only_its_own_bus (sck miso mosi host cs clk : Z)
        (s : Service) :
  let opened := init (new sck miso mosi host) s in
  let added := addSpiDevice cs clk (fst opened) (snd opened) in
  let closed := term (snd (fst added)) (snd added) in
  let ret := answer s (calls s) (spi_bus_initialize host mosi miso sck) in
  exists evs,
    calls (snd closed) = calls (snd added) ++ evs
    /\ (In (spi_bus_free host) evs <-> ret = ESP_OK)
    /\ (ret = ESP_ERR_INVALID_STATE -> forall h, ~ In (spi_bus_free h) evs)
    /\ (fst (fst added) = true ->
        exists dev rest,
          spiDevice (snd (fst added)) = Some dev
          /\ evs = spi_bus_remove_device dev :: rest
          /\ spiDevice (fst closed) = None)
    /\ busInitialized (fst closed) = false.
Proof.
  cbv zeta.
  destruct (init_new_spec sck miso mosi host s) as (Hi & Hh & Hd & Ha & Hb).
  cbv zeta in Hi, Hh, Hd, Ha, Hb.
  set (opened := init (new sck miso mosi host) s) in *.
  destruct (addSpiDevice_spec cs clk (fst opened) (snd opened))
    as (Hi' & Hb' & Hh' & Hok & Hko).
  cbv zeta in Hi', Hb', Hh', Hok, Hko.
  set (added := addSpiDevice cs clk (fst opened) (snd opened)) in *.
  destruct (term_spec (snd (fst added)) (snd added)) as (Hc & Hbf & Hdn).
  { now rewrite Hi'. }
  exists (closing_calls (snd (fst added))).
  split; [exact Hc|].
  assert (Hfree : forall h, In (spi_bus_free h) (closing_calls (snd (fst added)))
                    <-> busInitialized (fst opened) = true /\ h = host).
  { intros h. unfold closing_calls. rewrite Hb', Hh', Hh.
    destruct (deviceAdded (snd (fst added))), (spiDevice (snd (fst added))),
      (busInitialized (fst opened)); simpl; split;
      intros H; repeat destruct H as [H|H]; try discriminate;
      try contradiction; try (injection H as <-); auto;
      destruct H as [H ->]; try discriminate; auto. }
  split; [|split; [|split]].
  - rewrite Hfree, Hb. tauto.
  - intros Hret h Hin. apply Hfree in Hin. destruct Hin as [Hin _].
    apply Hb in Hin. rewrite Hin in Hret. discriminate.
  - intros Hadded. destruct (Hok Hadded) as (Hda & dev & Hdev).
    exists dev. eexists. split; [exact Hdev|]. split.
    + unfold closing_calls. rewrite Hda, Hdev. reflexivity.
    + apply Hdn. exact Hda.
  - exact Hbf.
Qed.

Lemma term_frees_only_its_own_bus_witness :
  let s_free := mkService (fun _ _ => ESP_OK) (fun _ => 7) [] in
  let s_shared :=
    mkService (fun _ c => match c with
                          | spi_bus_initialize _ _ _ _ => ESP_ERR_INVALID_STATE
                          | _ => ESP_OK
                          end) (fun _ => 7) [] in
  let run s :=
    let opened := init (new 18 19 23 2) s in
    let added := addSpiDevice 5 500000 (fst opened) (snd opened) in
    calls (snd (term (snd (fst added)) (snd added))) in
  run s_free = [spi_bus_initialize 2 23 19 18; spi_bus_add_device 2 5 500000;
                spi_bus_remove_device 7; spi_bus_free 2]
  /\ run s_shared = [spi_bus_initialize 2 23 19 18;
                     spi_bus_add_device 2 5 500000; spi_bus_remove_device 7]
  /\ (forall h,
        ~ In (spi_bus_free h)
             (skipn 2 (run s_shared))).
Proof.
  cbv zeta. split; [reflexivity|]. split; [reflexivity|].
  destruct (term_frees_only_its_own_bus 18 19 23 2 5 500000
              (mkService (fun _ c => match c with
                          | spi_bus_initialize _ _ _ _ => ESP_ERR_INVALID_STATE
                          | _ => ESP_OK
                          end) (fun _ => 7) []))
    as (evs & Hc & _ & Hshared & _).
  simpl in Hc. injection Hc as <-.
  intros h. apply (Hshared eq_refl h).
Defined.

End BusLifeCycle.

Section Divider.
Import ClockDivider Search.

Lemma uint8_small (z : Z) : 0 <= z < 2 ^ 8 -> uint8 z = z.
Proof. intros H. unfold uint8. now apply Z.mod_small. Qed.

Lemma uint32_small (z : Z) : 0 <= z < 2 ^ 32 -> uint32 z = z.
Proof. intros H. unfold uint32. now apply Z.mod_small. Qed.

Lemma int32_small (z : Z) : - 2 ^ 31 <= z < 2 ^ 31 -> int32 z = z.
Proof.
  intros H. unfold int32. cbv zeta.
  destruct (Z_lt_le_dec z 0) as [Hneg|Hpos].
  - replace (z mod 2 ^ 32) with (z + 2 ^ 32).
    + destruct (Z.ltb_spec (z + 2 ^ 32) (2 ^ 31)); lia.
    + apply Z.mod_unique with (-1); lia.
  - rewrite Z.mod_small by lia.
    destruct (Z.ltb_spec z (2 ^ 31)); lia.
Qed.

Lemma int32_uint32 (z : Z) : int32 (uint32 z) = int32 z.
Proof. unfold int32, uint32. now rewrite Z.mod_mod by lia. Qed.

Lemma uint32_add (a b : Z) : uint32 (uint32 a + uint32 b) = uint32 (a + b).
Proof. unfold uint32. now rewrite <- Zplus_mod. Qed.

Lemma bitfield_small (w x : Z) : 0 <= w -> 0 <= x < 2 ^ w -> bitfield w x = x.
Proof.
  intros Hw Hx. unfold bitfield.
  replace (2 ^ w - 1) with (Z.ones w) by (rewrite Z.ones_equiv; lia).
  rewrite Z.land_ones by lia. now apply Z.mod_small.
Qed.

Lemma clamp_pre_range (x : Z) : 0 <= clamp_pre x <= 8191.
Proof.
  unfold clamp_pre.
  destruct (Z.ltb_spec 8191 x); [lia|]. destruct (Z.leb_spec x 0); lia.
Qed.

Lemma clamp_pre_mono (x y : Z) : x <= y -> clamp_pre x <= clamp_pre y.
Proof.
  unfold clamp_pre. intros H.
  destruct (Z.ltb_spec 8191 x), (Z.ltb_spec 8191 y),
    (Z.leb_spec x 0), (Z.leb_spec y 0); lia.
Qed.

Lemma decoded_range (apb : Z) (r : spiClk_t) :
  0 <= apb -> 0 <= clkdiv_pre r -> 0 <= clkcnt_n r ->
  0 <= decoded apb r <= apb.
Proof.
  intros Ha Hp Hn. unfold decoded. split.
  - apply Z.div_pos; nia.
  - apply Z.div_le_upper_bound; nia.
Qed.

Lemma quotient_range (apb f n : Z) :
  0 < f -> 0 <= apb < 2 ^ 31 -> 1 <= n ->
  0 <= apb / (n + 1) < 2 ^ 30 /\ 0 <= apb / (n + 1) / f < 2 ^ 30.
Proof.
  intros Hf Ha Hn.
  assert (H1 : 0 <= apb / (n + 1)) by (apply Z.div_pos; lia).
  assert (H2 : apb / (n + 1) < 2 ^ 30).
  { apply Z.div_lt_upper_bound; [lia|]. nia. }
  split; [lia|]. split.
  - apply Z.div_pos; lia.
  - apply Z.le_lt_trans with (apb / (n + 1)); [|lia].
    apply Z.div_le_upper_bound; [lia|]. nia.
Qed.

Lemma inner_body_eq (apb f n v : Z) (reg bR : spiClk_t) (bF : Z) :
  0 < f < apb -> apb < 2 ^ 31 -> 1 <= n <= 63 -> -1 <= v <= 2 ->
  0 <= bF < f ->
  clkcnt_n reg = n -> clkcnt_h reg = 0 -> clk_equ_sysclk reg = 0 ->
  inner_body apb f v reg bR bF =
  let c := candidate apb f n v in
  let cf := decoded apb c in
  if cf =? f then Break cf c
  else if (cf <? f) && (bF <? cf) then Continue c cf c cf
  else Continue c cf bR bF.
Proof.
  intros Hf Ha Hn Hv HbF Hrn Hrh Hre.
  destruct (quotient_range apb f n) as [HA Hq]; try lia.
  unfold inner_body. rewrite Hrn.
  rewrite (uint32_small (apb / (n + 1))) by lia.
  rewrite uint32_add, int32_uint32.
  rewrite (int32_small (apb / (n + 1) / f - 1 + v)) by lia.
  set (calPre := apb / (n + 1) / f - 1 + v).
  assert (Hreg :
    set_clkcnt_l
      (if 8191 <? calPre then set_clkdiv_pre reg 8191
       else if calPre <=? 0 then set_clkdiv_pre reg 0
            else set_clkdiv_pre reg calPre)
      ((clkcnt_n
          (if 8191 <? calPre then set_clkdiv_pre reg 8191
           else if calPre <=? 0 then set_clkdiv_pre reg 0
                else set_clkdiv_pre reg calPre) + 1) / 2)
    = candidate apb f n v).
  { unfold candidate, prescaler, clamp_pre. fold calPre.
    assert (Hl : 0 <= (n + 1) / 2 < 2 ^ 6).
    { split; [apply Z.div_pos; lia|].
      apply Z.div_lt_upper_bound; lia. }
    destruct (8191 <? calPre) eqn:E1; [|destruct (calPre <=? 0) eqn:E2];
      unfold set_clkcnt_l, set_clkdiv_pre; cbn [clkcnt_l clkcnt_h clkcnt_n
        clkdiv_pre clk_equ_sysclk]; rewrite Hrn, Hrh, Hre;
      rewrite (bitfield_small 6 ((n + 1) / 2)) by lia;
      rewrite bitfield_small; try reflexivity; try lia. }
  cbv zeta. rewrite Hreg.
  set (c := candidate apb f n v).
  assert (Hc : 0 <= decoded apb c <= apb).
  { apply decoded_range; [lia| |]; unfold c, candidate;
      cbn [clkdiv_pre clkcnt_n]; [apply clamp_pre_range | lia]. }
  assert (Hfreq : int32 (ClkRegToFreq apb c) = decoded apb c).
  { unfold ClkRegToFreq. fold (decoded apb c) in *.
    pose proof (clamp_pre_range (apb / (n + 1) / f - 1 + v)) as Hp.
    assert (Hprod : uint32 ((clkdiv_pre c + 1) * (clkcnt_n c + 1))
                    = (clkdiv_pre c + 1) * (clkcnt_n c + 1)).
    { apply uint32_small. unfold c, candidate, prescaler.
      cbn [clkdiv_pre clkcnt_n]. nia. }
    rewrite Hprod. fold (decoded apb c).
    rewrite uint32_small by lia. apply int32_small. lia. }
  rewrite Hfreq, (int32_small f) by lia.
  destruct (decoded apb c =? f); [reflexivity|].
  destruct (Z.ltb_spec (decoded apb c) f) as [Hlt|Hge]; [|reflexivity].
  cbn [andb].
  rewrite (uint32_small (f - decoded apb c)) by lia.
  rewrite (uint32_small (f - bF)) by lia.
  unfold RADIOLIB_ABS.
  destruct (Z.ltb_spec 0 (f - decoded apb c)); [|lia].
  destruct (Z.ltb_spec 0 (f - bF)); [|lia].
  destruct (Z.ltb_spec (f - decoded apb c) (f - bF)),
    (Z.ltb_spec bF (decoded apb c)); try reflexivity; lia.
Qed.

Lemma int8_small (z : Z) : - 2 ^ 7 <= z < 2 ^ 7 -> int8 z = z.
Proof.
  intros H. unfold int8. cbv zeta.
  destruct (Z_lt_le_dec z 0) as [Hneg|Hpos].
  - replace (z mod 2 ^ 8) with (z + 2 ^ 8).
    + destruct (Z.ltb_spec (z + 2 ^ 8) (2 ^ 7)); lia.
    + apply Z.mod_unique with (-1); lia.
  - rewrite Z.mod_small by lia.
    destruct (Z.ltb_spec z (2 ^ 7)); lia.
Qed.

Lemma search_app (apb f : Z) (l1 l2 : list spiClk_t) :
  forall b bF,
  search apb f (l1 ++ l2) b bF =
  let s := search apb f l1 b bF in
  if fst (fst s) then s else search apb f l2 (snd (fst s)) (snd s).
Proof.
  induction l1 as [|c l1 IH]; intros b bF; cbn [app search]; [reflexivity|].
  cbv zeta.
  destruct (decoded apb c =? f); [reflexivity|].
  destruct ((decoded apb c <? f) && (bF <? decoded apb c)); apply IH.
Qed.

Lemma search_best_range (apb f : Z) (l : list spiClk_t) :
  forall b bF, 0 <= bF < f ->
  bF <= snd (search apb f l b bF) < f.
Proof.
  induction l as [|c l IH]; intros b bF H; cbn [search snd]; [lia|].
  cbv zeta.
  destruct (decoded apb c =? f); [cbn [snd]; lia|].
  destruct (Z.ltb_spec (decoded apb c) f), (Z.ltb_spec bF (decoded apb c));
    cbn [andb]; try (apply IH; lia).
  specialize (IH c (decoded apb c)). lia.
Qed.

Section FixedClock.

Variables apb f : Z.
Hypothesis Hf : 0 < f < apb.
Hypothesis Hapb : apb < 2 ^ 31.

Lemma candidate_decoded_range (n v : Z) :
  1 <= n <= 63 -> 0 <= decoded apb (candidate apb f n v) <= apb.
Proof.
  intros Hn. apply decoded_range; [lia| |]; unfold candidate;
    cbn [clkdiv_pre clkcnt_n]; [apply clamp_pre_range | lia].
Qed.

Lemma inner_loop_from (n : Z) (Hn : 1 <= n <= 63) (k : nat) :
  forall v reg cf0 bR bF,
  v = 2 - Z.of_nat k -> (k <= 4)%nat ->
  clkcnt_n reg = n -> clkcnt_h reg = 0 -> clk_equ_sysclk reg = 0 ->
  0 <= bF < f -> (k = 4%nat \/ cf0 <> f) ->
  let s := search apb f (map (candidate apb f n) (range (v + 1) k)) bR bF in
  exists cf,
    inner_loop (S k) apb f v reg cf0 bR bF = Some (cf, snd (fst s), snd s)
    /\ (cf =? f) = fst (fst s).
Proof.
  induction k as [|k IH]; intros v reg cf0 bR bF Hv Hk Hrn Hrh Hre HbF Hcf0.
  - cbn [range map search inner_loop fst snd].
    destruct (Z.leb_spec v 1); [lia|].
    exists cf0. split; [reflexivity|].
    apply Z.eqb_neq. destruct Hcf0; [discriminate | assumption].
  - cbn [range map search]. cbv zeta.
    remember (S k) as k1. cbn [inner_loop]. subst k1.
    destruct (Z.leb_spec v 1); [|lia].
    rewrite (int8_small (v + 1)) by lia.
    rewrite (inner_body_eq apb f n (v + 1) reg bR bF) by (assumption || lia).
    cbv zeta.
    set (c := candidate apb f n (v + 1)).
    pose proof (candidate_decoded_range n (v + 1) Hn) as Hc. fold c in Hc.
    destruct (Z.eqb_spec (decoded apb c) f) as [Heq|Hne].
    + exists (decoded apb c). cbn [fst snd]. split; [reflexivity|].
      now apply Z.eqb_eq.
    + destruct (Z.ltb_spec (decoded apb c) f), (Z.ltb_spec bF (decoded apb c));
        cbn [andb].
      * apply IH; try reflexivity; try lia; auto.
      * apply IH; try reflexivity; try lia; auto.
      * apply IH; try reflexivity; try lia; auto.
      * apply IH; try reflexivity; try lia; auto.
Qed.

Lemma outer_loop_from (k : nat) :
  forall n bR bF,
  n = 64 - Z.of_nat k -> (k <= 63)%nat -> 0 <= bF < f ->
  outer_loop (S k) apb f n bR bF =
  Some (snd (fst (search apb f
                    (flat_map (fun m => map (candidate apb f m)
                                            [-1; 0; 1; 2])
                              (range n k)) bR bF))).
Proof.
  induction k as [|k IH]; intros n bR bF Hn Hk HbF.
  - cbn [range flat_map search fst snd outer_loop].
    destruct (Z.leb_spec n 63); [lia | reflexivity].
  - cbn [range flat_map]. rewrite search_app. cbv zeta.
    remember (S k) as k1. cbn [outer_loop]. subst k1.
    destruct (Z.leb_spec n 63); [|lia].
    assert (Hreg : set_clkcnt_n (of_value 0) n = mkClk 0 0 n 0 0).
    { unfold set_clkcnt_n. rewrite bitfield_small by lia. reflexivity. }
    rewrite Hreg.
    destruct (inner_loop_from n ltac:(lia) 4 (-2) (mkClk 0 0 n 0 0) 0 bR bF)
      as (cf & Hrun & Hflag); try reflexivity; try lia; auto.
    cbv zeta in Hrun, Hflag. change (range (-2 + 1) 4) with [-1; 0; 1; 2] in *.
    rewrite Hrun, (int32_small f), Hflag by lia.
    set (s := search apb f (map (candidate apb f n) [-1; 0; 1; 2]) bR bF).
    destruct (fst (fst s)); [reflexivity|].
    rewrite (uint8_small (n + 1)) by lia.
    apply IH; [lia | lia |].
    pose proof (search_best_range apb f
                  (map (candidate apb f n) [-1; 0; 1; 2]) bR bF HbF).
    fold s in H0. lia.
Qed.


Lemma search_spec (l : list spiClk_t) :
  forall b bF, 0 <= bF < f ->
  let r := snd (fst (search apb f l b bF)) in
  (r = b /\ forall c, In c l -> decoded apb c <= f -> decoded apb c <= bF)
  \/ (exists before c after,
        l = before ++ c :: after /\ r = c
        /\ bF < decoded apb c <= f
        /\ (forall c', In c' before -> decoded apb c' <= f ->
                       decoded apb c' < decoded apb c)
        /\ (forall c', In c' after -> decoded apb c' <= f ->
                       decoded apb c' <= decoded apb c)).
Proof.
  induction l as [|c l IH]; intros b bF HbF; cbv zeta.
  - left. split; [reflexivity|]. intros c [].
  - cbn [search]. cbv zeta.
    destruct (Z.eqb_spec (decoded apb c) f) as [Heq|Hne].
    + right. exists [], c, l. cbn [fst snd app].
      split; [reflexivity|]. split; [reflexivity|]. split; [lia|].
      split; [intros c' [] | intros c' _ H; lia].
    + destruct (Z.ltb_spec (decoded apb c) f) as [Hlt|Hge];
        destruct (Z.ltb_spec bF (decoded apb c)) as [Hbt|Hnb]; cbn [andb].
      * destruct (IH c (decoded apb c) ltac:(lia))
          as [[Hr Hall] | (before & c2 & after & Hl & Hr & Hd & Hb & Ha)].
        -- right. exists [], c, l. cbn [app].
           split; [reflexivity|]. split; [assumption|]. split; [lia|].
           split; [intros c' [] | exact Hall].
        -- right. exists (c :: before), c2, after.
           split; [cbn [app]; now f_equal|].
           split; [assumption|]. split; [lia|].
           split; [|assumption].
           intros c' [<-|Hin] Hle; [lia | now apply Hb].
      * destruct (IH b bF HbF)
          as [[Hr Hall] | (before & c2 & after & Hl & Hr & Hd & Hb & Ha)].
        -- left. split; [assumption|].
           intros c' [<-|Hin] Hle; [lia | now apply Hall].
        -- right. exists (c :: before), c2, after.
           split; [cbn [app]; now f_equal|].
           split; [assumption|]. split; [lia|].
           split; [|assumption].
           intros c' [<-|Hin] Hle; [lia | now apply Hb].
      * destruct (IH b bF HbF)
          as [[Hr Hall] | (before & c2 & after & Hl & Hr & Hd & Hb & Ha)].
        -- left. split; [assumption|].
           intros c' [<-|Hin] Hle; [lia | now apply Hall].
        -- right. exists (c :: before), c2, after.
           split; [cbn [app]; now f_equal|].
           split; [assumption|]. split; [lia|].
           split; [|assumption].
           intros c' [<-|Hin] Hle; [lia | now apply Hb].
      * destruct (IH b bF HbF)
          as [[Hr Hall] | (before & c2 & after & Hl & Hr & Hd & Hb & Ha)].
        -- left. split; [assumption|].
           intros c' [<-|Hin] Hle; [lia | now apply Hall].
        -- right. exists (c :: before), c2, after.
           split; [cbn [app]; now f_equal|].
           split; [assumption|]. split; [lia|].
           split; [|assumption].
           intros c' [<-|Hin] Hle; [lia | now apply Hb].
Qed.

(** With the prescaler one above the naive one, the frequency is below the
    target unless the clamp at 8191 cut it. *)
Lemma above_naive_is_below_target (n : Z) :
  1 <= n <= 63 -> apb / (n + 1) / f <= 8191 ->
  decoded apb (candidate apb f n 1) < f.
Proof.
  intros Hn Hq.
  destruct (quotient_range apb f n) as [HA Hq0]; try lia.
  unfold decoded, candidate, prescaler, clamp_pre.
  cbn [clkdiv_pre clkcnt_n].
  set (A := apb / (n + 1)) in *. set (q := A / f) in *.
  replace (q - 1 + 1) with q by lia.
  destruct (Z.ltb_spec 8191 q); [lia|].
  assert (Hpre : (if q <=? 0 then 0 else q) = q)
    by (destruct (Z.leb_spec q 0); lia).
  rewrite Hpre.
  apply Z.div_lt_upper_bound; [nia|].
  assert (H1 : apb < (n + 1) * Z.succ A)
    by (apply Z.mul_succ_div_gt; lia).
  assert (H2 : A < f * Z.succ q) by (apply Z.mul_succ_div_gt; lia).
  nia.
Qed.

Lemma fourth_candidate (n : Z) :
  1 <= n <= 63 ->
  decoded apb (candidate apb f n 2) <= decoded apb (candidate apb f n 1)
  /\ (f < decoded apb (candidate apb f n 1) ->
      f < decoded apb (candidate apb f n 2)).
Proof.
  intros Hn.
  pose proof (clamp_pre_range (apb / (n + 1) / f - 1 + 1)) as H1.
  pose proof (clamp_pre_range (apb / (n + 1) / f - 1 + 2)) as H2.
  pose proof (clamp_pre_mono (apb / (n + 1) / f - 1 + 1)
                             (apb / (n + 1) / f - 1 + 2) ltac:(lia)) as Hm.
  split.
  - unfold decoded, candidate, prescaler. cbn [clkdiv_pre clkcnt_n].
    apply Z.div_le_compat_l; [lia|]. nia.
  - intros Habove.
    destruct (Z_le_gt_dec (apb / (n + 1) / f) 8191) as [Hle|Hgt].
    + pose proof (above_naive_is_below_target n Hn Hle). lia.
    + replace (candidate apb f n 2) with (candidate apb f n 1); [assumption|].
      unfold candidate, prescaler, clamp_pre. f_equal.
      destruct (Z.ltb_spec 8191 (apb / (n + 1) / f - 1 + 1)); [|lia].
      destruct (Z.ltb_spec 8191 (apb / (n + 1) / f - 1 + 2)); [|lia].
      reflexivity.
Qed.

Lemma search_fourth (n : Z) (b : spiClk_t) (bF : Z) :
  1 <= n <= 63 -> 0 <= bF < f ->
  search apb f (map (candidate apb f n) [-1; 0; 1; 2]) b bF
  = search apb f (map (candidate apb f n) [-1; 0; 1]) b bF.
Proof.
  intros Hn HbF.
  change [-1; 0; 1; 2] with ([-1; 0] ++ [1; 2]).
  change [-1; 0; 1] with ([-1; 0] ++ [1]).
  rewrite !map_app, !search_app. cbv zeta.
  pose proof (search_best_range apb f (map (candidate apb f n) [-1; 0])
                                b bF HbF) as Hrange.
  destruct (search apb f (map (candidate apb f n) [-1; 0]) b bF)
    as [[fd b'] bF']. cbn [fst snd] in *.
  destruct fd; [reflexivity|].
  destruct (fourth_candidate n Hn) as [Hle Habove].
  cbn [map search]. cbv zeta.
  set (d1 := decoded apb (candidate apb f n 1)) in *.
  set (d2 := decoded apb (candidate apb f n 2)) in *.
  destruct (Z.eqb_spec d1 f); [reflexivity|].
  destruct (Z.ltb_spec d1 f), (Z.ltb_spec bF' d1); cbn [andb];
    destruct (Z.eqb_spec d2 f); try lia;
    destruct (Z.ltb_spec d2 f); cbn [andb]; try reflexivity;
    match goal with
    | |- context [?x <? d2] => destruct (Z.ltb_spec x d2)
    end; try reflexivity; lia.
Qed.

Lemma in_range (x a : Z) (k : nat) :
  In x (range a k) <-> a <= x < a + Z.of_nat k.
Proof.
  revert a. induction k as [|k IH]; intros a; cbn [range In].
  - lia.
  - rewrite IH. lia.
Qed.

Lemma search_tried_fourth (ns : list Z) :
  (forall n, In n ns -> 1 <= n <= 63) ->
  forall b bF, 0 <= bF < f ->
  search apb f (flat_map (fun m => map (candidate apb f m) [-1; 0; 1; 2]) ns)
         b bF
  = search apb f (flat_map (fun m => map (candidate apb f m) [-1; 0; 1]) ns)
           b bF.
Proof.
  induction ns as [|n ns IH]; intros Hns b bF HbF; [reflexivity|].
  cbn [flat_map]. rewrite !search_app. cbv zeta.
  rewrite search_fourth by (auto with datatypes).
  pose proof (search_best_range apb f (map (candidate apb f n) [-1; 0; 1])
                                b bF HbF) as Hrange.
  destruct (fst (fst (search apb f (map (candidate apb f n) [-1; 0; 1]) b bF)));
    [reflexivity|].
  apply IH; [|lia]. intros m Hm. apply Hns. now right.
Qed.

End FixedClock.

Lemma minFreq_eq (apb : Z) :
  0 <= apb < 2 ^ 32 -> ClkRegToFreq apb minFreqReg = apb / 524288.
Proof.
  intros H. unfold ClkRegToFreq.
  change (uint32 ((clkdiv_pre minFreqReg + 1) * (clkcnt_n minFreqReg + 1)))
    with 524288.
  apply uint32_small. split.
  - apply Z.div_pos; lia.
  - apply Z.le_lt_trans with apb; [|lia].
    apply Z.div_le_upper_bound; lia.
Qed.

Lemma slowest_candidate (apb f : Z) :
  524288 <= apb < 2 ^ 31 -> apb / 524288 <= f < apb ->
  In (candidate apb f 63 1) (tried apb f)
  /\ 1 <= decoded apb (candidate apb f 63 1) <= f.
Proof.
  intros Hapb Hf.
  assert (Hf0 : 0 < f).
  { assert (1 <= apb / 524288) by (apply Z.div_le_lower_bound; lia). lia. }
  split.
  - unfold tried, tried_with. apply in_flat_map. exists 63. split.
    + apply in_range. lia.
    + cbn [map In]. auto.
  - pose proof (clamp_pre_range (apb / (63 + 1) / f - 1 + 1)) as Hp.
    split.
    + unfold decoded, candidate, prescaler. cbn [clkdiv_pre clkcnt_n].
      apply Z.div_le_lower_bound; lia.
    + destruct (Z_le_gt_dec (apb / (63 + 1) / f) 8191) as [Hle|Hgt].
      * pose proof (above_naive_is_below_target apb f ltac:(lia)
                      ltac:(lia) 63 ltac:(lia) Hle). lia.
      * unfold decoded, candidate, prescaler, clamp_pre.
        cbn [clkdiv_pre clkcnt_n].
        destruct (Z.ltb_spec 8191 (apb / (63 + 1) / f - 1 + 1)); [|lia].
        change ((8191 + 1) * (63 + 1)) with 524288. lia.
Qed.







(** Why the bus clock is taken below 2^31 Hz: beyond it a target can exceed
    the range of [int32_t], the cast [(int32_t)freq] is then negative, no
    candidate compares below it, and the function returns the initial
    [bestReg], 0, an encoding with counter 0. *)
Lemma spiFrequencyToClockDiv_beyond_int32 :
  0 < 2500000000 < 3000000000
  /\ 3000000000 < 2 ^ 32
  /\ decoded 3000000000 (candidate 3000000000 2500000000 1 0) = 1500000000
  /\ spiFrequencyToClockDiv 3000000000 2500000000 = Some 0.
Proof. split; [lia|]. split; [lia|]. split; vm_compute; reflexivity. Qed.

End Divider.

(* ================================================================== *)
(** * Further properties: the clock register and the divider search *)
(* ================================================================== *)

Section DividerMore.
Import ClockDivider Search.

Lemma land_low_high (a c k : Z) :
  0 <= a < 2 ^ k -> 0 <= c -> 0 <= k -> Z.land a (c * 2 ^ k) = 0.
Proof.
  intros Ha Hc Hk. apply Z.bits_inj'. intros n Hn.
  rewrite Z.land_spec, Z.bits_0.
  destruct (Z_lt_le_dec n k) as [Hlt|Hge].
  - rewrite <- Z.shiftl_mul_pow2 by lia.
    rewrite Z.shiftl_spec_low by lia. apply andb_false_r.
  - destruct (Z.eq_dec a 0) as [->|Hne]; [now rewrite Z.bits_0|].
    rewrite (Z.bits_above_log2 a n); [reflexivity | lia |].
    apply Z.lt_le_trans with k; [|lia].
    apply Z.log2_lt_pow2; lia.
Qed.

Lemma lor_low_high (a c k : Z) :
  0 <= a < 2 ^ k -> 0 <= c -> 0 <= k -> Z.lor a (c * 2 ^ k) = a + c * 2 ^ k.
Proof.
  intros Ha Hc Hk.
  pose proof (land_low_high a c k Ha Hc Hk) as Hland.
  rewrite <- Z.lxor_lor by exact Hland.
  symmetry. apply Z.add_nocarry_lxor. exact Hland.
Qed.

(** The register value as a sum, when every field fits its width. *)
Lemma value_sum (l h n p e : Z) :
  0 <= l < 64 -> 0 <= h < 64 -> 0 <= n < 64 -> 0 <= p < 8192 -> 0 <= e < 2 ->
  value (mkClk l h n p e)
  = l + 64 * h + 4096 * n + 262144 * p + 2147483648 * e.
Proof.
  intros Hl Hh Hn Hp He. unfold value.
  cbn [clkcnt_l clkcnt_h clkcnt_n clkdiv_pre clk_equ_sysclk].
  rewrite !Z.shiftl_mul_pow2 by lia.
  replace (Z.lor (p * 2 ^ 18) (e * 2 ^ 31))
    with (p * 2 ^ 18 + e * 2 ^ 31).
  2:{ replace (p * 2 ^ 18) with ((p * 2 ^ 18) + 0 * 2 ^ 31) at 2 by lia.
      symmetry. rewrite Z.add_0_r. apply lor_low_high; lia. }
  replace (p * 2 ^ 18 + e * 2 ^ 31) with ((p + e * 2 ^ 13) * 2 ^ 18) by lia.
  rewrite (lor_low_high (n * 2 ^ 12)) by lia.
  replace (n * 2 ^ 12 + (p + e * 2 ^ 13) * 2 ^ 18)
    with ((n + (p + e * 2 ^ 13) * 2 ^ 6) * 2 ^ 12) by lia.
  rewrite (lor_low_high (h * 2 ^ 6)) by lia.
  replace (h * 2 ^ 6 + (n + (p + e * 2 ^ 13) * 2 ^ 6) * 2 ^ 12)
    with ((h + (n + (p + e * 2 ^ 13) * 2 ^ 6) * 2 ^ 6) * 2 ^ 6) by lia.
  rewrite (lor_low_high l) by lia.
  lia.
Qed.

Lemma bitfield_mod (w x : Z) : 0 <= w -> bitfield w x = x mod 2 ^ w.
Proof.
  intros Hw. unfold bitfield.
  replace (2 ^ w - 1) with (Z.ones w) by (rewrite Z.ones_equiv; lia).
  now apply Z.land_ones.
Qed.

Lemma of_value_fields (v : Z) :
  of_value v = mkClk (v mod 64) ((v / 64) mod 64) ((v / 4096) mod 64)
                     ((v / 262144) mod 8192) ((v / 2147483648) mod 2).
Proof.
  unfold of_value. rewrite !bitfield_mod by lia.
  rewrite !Z.shiftr_div_pow2 by lia. reflexivity.
Qed.

(** X1. The register value and its bit-fields determine each other: packing
    the fields of a 32-bit value gives the value back, and unpacking a value
    packed from fields that fit their widths gives the fields back. *)
Theorem spiClk_value_round_trip :
  (forall v, 0 <= v < 2 ^ 32 -> value (of_value v) = v)
  /\ (forall l h n p e,
        0 <= l < 64 -> 0 <= h < 64 -> 0 <= n < 64 -> 0 <= p < 8192 ->
        0 <= e < 2 ->
        of_value (value (mkClk l h n p e)) = mkClk l h n p e).
Proof.
  split.
  - intros v Hv. rewrite of_value_fields.
    rewrite value_sum by (apply Z.mod_pos_bound; lia).
    change (2 ^ 32) with 4294967296 in Hv.
    Z.div_mod_to_equations. lia.
  - intros l h n p e Hl Hh Hn Hp He.
    rewrite value_sum by assumption. rewrite of_value_fields.
    f_equal; Z.div_mod_to_equations; lia.
Qed.

Lemma spiClk_value_round_trip_witness :
  0 <= 0x004C1001 < 2 ^ 32
  /\ value (of_value 0x004C1001) = 0x004C1001
  /\ of_value (value (mkClk 1 0 1 19 0)) = mkClk 1 0 1 19 0.
Proof.
  split; [lia|]. split.
  - apply (proj1 spiClk_value_round_trip). lia.
  - apply (proj2 spiClk_value_round_trip); lia.
Defined.


Lemma in_tried (apb f : Z) (c : spiClk_t) :
  In c (tried apb f) <->
  exists n v, 1 <= n <= 63 /\ -1 <= v <= 1 /\ c = candidate apb f n v.
Proof.
  unfold tried, tried_with. rewrite in_flat_map. split.
  - intros (n & Hn & Hc). apply in_range in Hn. cbn [map In] in Hc.
    exists n. destruct Hc as [ <- | [ <- | [ <- | [] ] ] ];
      [exists (-1) | exists 0 | exists 1]; repeat split; lia.
  - intros (n & v & Hn & Hv & ->). exists n. split; [apply in_range; lia|].
    cbn [map In].
    assert (Hcases : v = -1 \/ v = 0 \/ v = 1) by lia.
    destruct Hcases as [ -> | [ -> | -> ] ]; auto.
Qed.

(** What the search returns for a target it can reach from below. *)
Lemma search_outcome (apb f : Z) :
  524288 <= apb < 2 ^ 31 -> apb / 524288 <= f < apb ->
  exists n v,
    1 <= n <= 63 /\ -1 <= v <= 1
    /\ spiFrequencyToClockDiv apb f = Some (value (candidate apb f n v))
    /\ 1 <= decoded apb (candidate apb f n v) <= f
    /\ (forall c, In c (tried apb f) -> decoded apb c <= f ->
                  decoded apb c <= decoded apb (candidate apb f n v)).
Proof.
  intros Hapb Hmid.
  assert (Hmin : 1 <= apb / 524288) by (apply Z.div_le_lower_bound; lia).
  unfold spiFrequencyToClockDiv.
  destruct (Z.leb_spec apb f); [lia|].
  rewrite minFreq_eq by lia.
  destruct (Z.ltb_spec f (apb / 524288)); [lia|].
  assert (Hf' : 0 < f < apb) by lia.
  assert (Hapb' : apb < 2 ^ 31) by lia.
  rewrite (outer_loop_from apb f Hf' Hapb' 63 1 (of_value 0) 0)
    by (reflexivity || lia).
  fold counters.
  rewrite (search_tried_fourth apb f Hf' Hapb' counters)
    by (try lia; intros n Hn; apply in_range in Hn; lia).
  fold (tried_with [-1; 0; 1] apb f). fold (tried apb f).
  destruct (slowest_candidate apb f Hapb Hmid) as [Hin Hslow].
  destruct (search_spec apb f (tried apb f) (of_value 0) 0 ltac:(lia))
    as [[_ Hall] | (before & c & after & Hl & Hr & Hd & Hb & Ha)].
  - specialize (Hall _ Hin ltac:(lia)). lia.
  - cbv zeta in Hr. rewrite Hr.
    assert (Hc : In c (tried apb f))
      by (rewrite Hl; apply in_or_app; right; left; reflexivity).
    assert (Hbest : forall c', In c' (tried apb f) -> decoded apb c' <= f ->
                               decoded apb c' <= decoded apb c).
    { intros c' Hc' Hle. rewrite Hl in Hc'. apply in_app_or in Hc'.
      destruct Hc' as [Hi | [ <- | Hi ] ]; [|lia|].
      - specialize (Hb _ Hi Hle). lia.
      - exact (Ha _ Hi Hle). }
    apply in_tried in Hc. destruct Hc as (n & v & Hn & Hv & ->).
    exists n, v. repeat split; try lia; try assumption.
Qed.

(** X2. For a bus clock of at least 524288 Hz and a target between the
    lowest reachable frequency and the bus clock, the register value
    returned has the bypass bit clear, a counter in 1..63, a low-phase count
    of half the counter period and a zero high-phase count; the frequency it
    encodes is at least 1 Hz and never above the target. *)
Theorem spiFrequencyToClockDiv_never_faster (apb f : Z)
        (Hapb : 524288 <= apb < 2 ^ 31) (Hf : apb / 524288 <= f < apb) :
  exists r,
    spiFrequencyToClockDiv apb f = Some (value r)
    /\ of_value (value r) = r
    /\ clk_equ_sysclk r = 0 /\ clkcnt_h r = 0
    /\ 1 <= clkcnt_n r <= 63
    /\ clkcnt_l r = (clkcnt_n r + 1) / 2
    /\ 0 <= clkdiv_pre r <= 8191
    /\ 1 <= decoded apb r <= f
    /\ 0 <= value r < 2 ^ 31.
Proof.
  destruct (search_outcome apb f Hapb Hf) as (n & v & Hn & Hv & Hr & Hd & _).
  exists (candidate apb f n v).
  pose proof (clamp_pre_range (apb / (n + 1) / f - 1 + v)) as Hp.
  assert (Hl : 0 <= (n + 1) / 2 < 64).
  { split; [apply Z.div_pos; lia | apply Z.div_lt_upper_bound; lia]. }
  assert (Hsum : value (candidate apb f n v)
                 = (n + 1) / 2 + 64 * 0 + 4096 * n
                   + 262144 * prescaler apb f n v + 2147483648 * 0).
  { unfold candidate. apply value_sum; unfold prescaler; lia. }
  split; [exact Hr|]. split.
  { unfold candidate. rewrite value_sum by (unfold prescaler; lia).
    rewrite of_value_fields. unfold prescaler in *.
    f_equal; Z.div_mod_to_equations; lia. }
  cbn [candidate clk_equ_sysclk clkcnt_h clkcnt_n clkcnt_l clkdiv_pre].
  repeat split; try lia; try (unfold prescaler; lia).
  - rewrite Hsum. unfold prescaler. lia.
  - rewrite Hsum. unfold prescaler. lia.
Qed.

Lemma spiFrequencyToClockDiv_never_faster_witness :
  524288 <= 80000000 < 2 ^ 31 /\ 80000000 / 524288 <= 3000000 < 80000000
  /\ exists r,
      spiFrequencyToClockDiv 80000000 3000000 = Some (value r)
      /\ 1 <= decoded 80000000 r <= 3000000.
Proof.
  split; [lia|].
  split; [change (80000000 / 524288) with 152; lia|].
  destruct (spiFrequencyToClockDiv_never_faster 80000000 3000000 ltac:(lia)
              ltac:(change (80000000 / 524288) with 152; lia))
    as (r & Hr & _ & _ & _ & _ & _ & _ & Hd & _).
  exists r. split; assumption.
Defined.



(** X4. A target below the lowest reachable frequency [apb / 524288] gets
    the register value 0x7FFFF000: counter 63 and prescaler 8191, which
    encode [apb / 524288], the lowest frequency any counter and prescaler
    encode; the clock then runs faster than the target asked for. *)
Theorem spiFrequencyToClockDiv_floor (apb f : Z)
        (Hapb : 0 <= apb < 2 ^ 32) (Hf : f < apb / 524288) :
  spiFrequencyToClockDiv apb f = Some 0x7FFFF000
  /\ of_value 0x7FFFF000 = mkClk 0 0 63 8191 0
  /\ decoded apb (of_value 0x7FFFF000) = apb / 524288
  /\ f < decoded apb (of_value 0x7FFFF000)
  /\ (forall r, 0 <= clkcnt_n r <= 63 -> 0 <= clkdiv_pre r <= 8191 ->
                apb / 524288 <= decoded apb r).
Proof.
  assert (Hlt : apb / 524288 <= apb)
    by (apply Z.div_le_upper_bound; lia).
  split; [|split; [|split; [|split]]].
  - unfold spiFrequencyToClockDiv.
    destruct (Z.leb_spec apb f); [lia|].
    rewrite minFreq_eq by lia.
    destruct (Z.ltb_spec f (apb / 524288)); [reflexivity | lia].
  - reflexivity.
  - reflexivity.
  - exact Hf.
  - intros r Hn Hp. unfold decoded.
    apply Z.div_le_compat_l; [lia|]. nia.
Qed.

Lemma spiFrequencyToClockDiv_floor_witness :
  0 <= 80000000 < 2 ^ 32 /\ 100 < 80000000 / 524288
  /\ spiFrequencyToClockDiv 80000000 100 = Some 0x7FFFF000
  /\ decoded 80000000 (of_value 0x7FFFF000) = 152.
Proof.
  split; [lia|].
  split; [change (80000000 / 524288) with 152; lia|].
  destruct (spiFrequencyToClockDiv_floor 80000000 100 ltac:(lia)
              ltac:(change (80000000 / 524288) with 152; lia))
    as (H1 & _ & H3 & _).
  split; [exact H1 | exact H3].
Defined.

End DividerMore.

(* ================================================================== *)
(** * Further properties: packet length and packet reception *)
(* ================================================================== *)

Section ReceptionMore.
Import Driver.

Ltac run_monad :=
  unfold bind, ret, get, set_packetLength, set_packetLengthQueried,
    set_rawRSSI, set_rawLQI, SPIsendCommand, startReceive, standby,
    delay_us, setFrequency, emit, SPIreadRegisterBurst, with_chip; simpl.

Lemma Rev1_getPacketLength_fresh (st : Radio) :
  Rev1.getPacketLength true st =
  (Frame.declared_length st,
   mkRadio (Frame.declared_length st) true (rawRSSI st) (rawLQI st)
           (crcOn st)
           (mkChip (miso (chip st)) (cursor (chip st) + 1) (tune (chip st))
                   (log (chip st) ++ [EvReadRegisterBurst 127 1]))).
Proof.
  destruct st as [pl plq rr rl crc [mi cu tu lg]].
  unfold Rev1.getPacketLength. run_monad.
  unfold Frame.declared_length, Frame.byte_at. simpl.
  now rewrite Nat.add_0_r.
Qed.

Lemma Rev2_getPacketLength_fresh (MAX : Z) (st : Radio) :
  Rev2.getPacketLength MAX true st =
  let d := Frame.declared_length st in
  let c := chip st in
  if Frame.acceptable MAX d then
    (d, mkRadio d true (rawRSSI st) (rawLQI st) (crcOn st)
                (mkChip (miso c) (cursor c + 1) (tune c)
                        (log c ++ [EvReadRegisterBurst 63 1])))
  else
    (0, mkRadio (packetLength st) (packetLengthQueried st) (rawRSSI st)
                (rawLQI st) (crcOn st)
                (mkChip (miso c) (cursor c + 1) (tune c)
                        (log c ++ [EvReadRegisterBurst 63 1;
                                   EvSendCommand RADIOLIB_CC1101_CMD_FLUSH_RX;
                                   EvStartReceive]))).
Proof.
  destruct st as [pl plq rr rl crc [mi cu tu lg]].
  unfold Rev2.getPacketLength. run_monad.
  unfold Frame.declared_length, Frame.acceptable, Frame.byte_at. simpl.
  rewrite Nat.add_0_r.
  destruct ((uint8 (mi cu) =? 0) || (MAX <? uint8 (mi cu))); simpl;
    rewrite <- ?app_assoc; reflexivity.
Qed.

(** X5. Once [readData] has taken a frame whose declared length passed the
    check, [getPacketLength(false)] answers that length from the cache: the
    object and the chip are left exactly as they were, in both revisions. *)
Theorem getPacketLength_cached_after_readData (MAX : Z) (data : list Z)
        (len : nat) (st : Radio)
        (Hok : Frame.acceptable MAX (Frame.declared_length st) = true) :
  (let st' := state_of (Rev1.readData MAX data len st) in
   Rev1.getPacketLength false st' = (Frame.declared_length st, st'))
  /\ (let st' := state_of (Rev2.readData MAX data len st) in
      Rev2.getPacketLength MAX false st' = (Frame.declared_length st, st')).
Proof.
  split; cbv zeta.
  - rewrite Rev1_readData_eq. cbv zeta. rewrite Hok. reflexivity.
  - rewrite Rev2_readData_eq. cbv zeta. rewrite Hok. reflexivity.
Qed.

Lemma getPacketLength_cached_after_readData_witness :
  let st := scripted_radio true [2; 10; 11; 60; 133] in
  Frame.acceptable 255 (Frame.declared_length st) = true
  /\ fst (Rev2.getPacketLength 255 false
            (state_of (Rev2.readData 255 [0; 0; 0] 3 st))) = 2.
Proof.
  cbv zeta. split; [reflexivity|].
  rewrite (proj2 (getPacketLength_cached_after_readData 255 [0; 0; 0] 3
                    (scripted_radio true [2; 10; 11; 60; 133]) eq_refl)).
  reflexivity.
Defined.

(** X6. For a declared length of 0 or above the limit the two revisions of
    [getPacketLength] part ways. The first returns the length as read,
    caches it and sends nothing more. The second returns 0, flushes the
    FIFO and re-arms reception, and leaves the cached length and its flag as
    they were. *)
Theorem getPacketLength_invalid_length (MAX : Z) (st : Radio)
        (Hbad : Frame.acceptable MAX (Frame.declared_length st) = false) :
  (let r := Rev1.getPacketLength true st in
   fst r = Frame.declared_length st
   /\ packetLength (snd r) = Frame.declared_length st
   /\ packetLengthQueried (snd r) = true
   /\ Frame.logged st (snd r) [EvReadRegisterBurst 127 1])
  /\ (let r := Rev2.getPacketLength MAX true st in
      fst r = 0
      /\ packetLength (snd r) = packetLength st
      /\ packetLengthQueried (snd r) = packetLengthQueried st
      /\ Frame.logged st (snd r)
           [EvReadRegisterBurst 63 1;
            EvSendCommand RADIOLIB_CC1101_CMD_FLUSH_RX; EvStartReceive]).
Proof.
  split; cbv zeta.
  - rewrite Rev1_getPacketLength_fresh. repeat split.
  - rewrite Rev2_getPacketLength_fresh. cbv zeta. rewrite Hbad. repeat split.
Qed.

Lemma getPacketLength_invalid_length_witness :
  let st := Driver.mkRadio 17 true 0 0 true (scripted_chip [0; 9; 128]) in
  Frame.acceptable 255 (Frame.declared_length st) = false
  /\ fst (Rev2.getPacketLength 255 true st) = 0
  /\ packetLength (snd (Rev2.getPacketLength 255 true st)) = 17.
Proof.
  cbv zeta.
  pose proof (proj2 (getPacketLength_invalid_length 255
                       (Driver.mkRadio 17 true 0 0 true
                                       (scripted_chip [0; 9; 128])) eq_refl))
    as (H1 & H2 & _).
  split; [reflexivity|]. split; [exact H1 | exact H2].
Defined.

Lemma land_7F_range (b : Z) : 0 <= Z.land b 0x7F < 128.
Proof.
  change 0x7F with (Z.ones 7). rewrite Z.land_ones by lia.
  apply Z.mod_pos_bound. lia.
Qed.

Lemma byte_at_range (st : Radio) (k : nat) : 0 <= Frame.byte_at st k < 256.
Proof. apply uint8_range. Qed.

Lemma payload_bytes (st : Radio) (n : nat) :
  Forall (fun b => 0 <= b < 256) (Frame.payload st n).
Proof.
  unfold Frame.payload. apply Forall_forall. intros b Hb.
  apply in_map_iff in Hb. destruct Hb as (k & <- & _). apply byte_at_range.
Qed.

(** X7. When the buffer offers at least as many cells as the frame declares
    ([len] at least the declared length, which passed the check) and the
    frame's CRC flag is set or [crcOn] is clear, [readData] returns
    [RADIOLIB_ERR_NONE]; the buffer then starts with the declared number of
    payload bytes, in FIFO order, and keeps its other cells; [rawRSSI] is
    the byte after the payload, [rawLQI] the low seven bits of the last one;
    and the whole frame, declared length plus three bytes, has been read. Both
    revisions agree. *)
Theorem readData_delivers_frame (MAX : Z) (data : list Z) (len : nat)
        (st : Radio)
        (Hok : Frame.acceptable MAX (Frame.declared_length st) = true)
        (Hlen : Frame.declared_length st <= Z.of_nat len)
        (Hcrc : crcOn st = false
                \/ Z.testbit (Frame.status_byte st
                                (Z.to_nat (Frame.declared_length st))) 7
                   = true) :
  let n := Z.to_nat (Frame.declared_length st) in
  let expected :=
    (RADIOLIB_ERR_NONE, Frame.payload st n ++ skipn n data) in
  (let r := Rev1.readData MAX data len st in
   fst r = expected
   /\ rawRSSI (snd r) = Frame.rssi_byte st n
   /\ rawLQI (snd r) = Z.land (Frame.status_byte st n) 0x7F
   /\ cursor (chip (snd r)) = (cursor (chip st) + (n + 3))%nat)
  /\ (let r := Rev2.readData MAX data len st in
      fst r = expected
      /\ rawRSSI (snd r) = Frame.rssi_byte st n
      /\ rawLQI (snd r) = Z.land (Frame.status_byte st n) 0x7F
      /\ cursor (chip (snd r)) = (cursor (chip st) + (n + 3))%nat).
Proof.
  cbv zeta.
  pose proof (declared_length_range st) as Hd.
  assert (Hn : Frame.read_length (Frame.declared_length st) len
               = Z.to_nat (Frame.declared_length st)).
  { unfold Frame.read_length. now rewrite Z.min_l by lia. }
  assert (Hstatus :
    (if negb (negb (Z.land (Frame.status_byte st
                              (Z.to_nat (Frame.declared_length st))) 128 =? 0))
        && crcOn st
     then RADIOLIB_ERR_CRC_MISMATCH else RADIOLIB_ERR_NONE)
    = RADIOLIB_ERR_NONE).
  { rewrite crc_flag, negb_involutive.
    destruct Hcrc as [-> | ->]; [now rewrite andb_false_r | reflexivity]. }
  split.
  - rewrite Rev1_readData_eq. cbv zeta. rewrite Hok, Hn.
    cbn [fst snd rawRSSI rawLQI chip cursor]. rewrite Hstatus.
    unfold store_bytes. rewrite payload_length.
    repeat split. lia.
  - rewrite Rev2_readData_eq. cbv zeta. unfold Frame.taken_length.
    rewrite Hok, Hn.
    cbn [fst snd rawRSSI rawLQI chip cursor]. rewrite Hstatus.
    unfold store_bytes. rewrite payload_length.
    repeat split. lia.
Qed.

Lemma readData_delivers_frame_witness :
  let st := scripted_radio true [2; 10; 11; 60; 133] in
  Frame.acceptable 255 (Frame.declared_length st) = true
  /\ Frame.declared_length st <= 4
  /\ fst (Rev1.readData 255 [7; 7; 7; 7] 4 st)
     = (RADIOLIB_ERR_NONE, [10; 11; 7; 7])
  /\ rawLQI (snd (Rev1.readData 255 [7; 7; 7; 7] 4 st)) = 5.
Proof.
  cbv zeta.
  pose proof (proj1 (readData_delivers_frame 255 [7; 7; 7; 7] 4
                       (scripted_radio true [2; 10; 11; 60; 133]) eq_refl
                       ltac:(vm_compute; discriminate)
                       (or_intror eq_refl)))
    as (H1 & _ & H3 & _).
  split; [reflexivity|]. split; [vm_compute; discriminate|].
  split; [exact H1 | exact H3].
Defined.


Lemma payload_nth (st : Radio) (n k : nat) :
  (k < n)%nat -> nth k (Frame.payload st n) 0 = Frame.byte_at st (1 + k).
Proof.
  intros Hk. unfold Frame.payload.
  rewrite (nth_indep _ 0 (Frame.byte_at st 0))
    by (now rewrite length_map, length_seq).
  rewrite map_nth. now rewrite seq_nth.
Qed.

(** X8. When the buffer is shorter than the declared length (which passed
    the check), [readData] fills the [len] cells with the first [len]
    payload bytes and then takes the next two FIFO bytes as the status
    bytes: [rawRSSI] is the payload byte number [len], not the RSSI byte
    that ends the frame, and the frame is left partly unread. Both revisions
    agree. *)
Theorem readData_short_buffer (MAX : Z) (data : list Z) (len : nat)
        (st : Radio)
        (Hok : Frame.acceptable MAX (Frame.declared_length st) = true)
        (Hshort : Z.of_nat len < Frame.declared_length st) :
  let d := Z.to_nat (Frame.declared_length st) in
  (let r := Rev1.readData MAX data len st in
   data_of r = Frame.payload st len ++ skipn len data
   /\ rawRSSI (state_of r) = nth len (Frame.payload st d) 0
   /\ (cursor (chip (state_of r)) < cursor (chip st) + (d + 3))%nat)
  /\ (let r := Rev2.readData MAX data len st in
      data_of r = Frame.payload st len ++ skipn len data
      /\ rawRSSI (state_of r) = nth len (Frame.payload st d) 0
      /\ (cursor (chip (state_of r)) < cursor (chip st) + (d + 3))%nat).
Proof.
  cbv zeta.
  assert (Hn : Frame.read_length (Frame.declared_length st) len = len).
  { unfold Frame.read_length. rewrite Z.min_r by lia. apply Nat2Z.id. }
  rewrite payload_nth by lia.
  split.
  - rewrite Rev1_readData_eq. cbv zeta. rewrite Hok, Hn.
    unfold data_of, state_of, store_bytes.
    cbn [fst snd rawRSSI chip cursor]. rewrite payload_length.
    repeat split. lia.
  - rewrite Rev2_readData_eq. cbv zeta. unfold Frame.taken_length.
    rewrite Hok, Hn.
    unfold data_of, state_of, store_bytes.
    cbn [fst snd rawRSSI chip cursor]. rewrite payload_length.
    repeat split. lia.
Qed.

Lemma readData_short_buffer_witness :
  let st := scripted_radio false [3; 10; 11; 12; 60; 133] in
  Frame.acceptable 255 (Frame.declared_length st) = true
  /\ 1 < Frame.declared_length st
  /\ data_of (Rev2.readData 255 [7; 7] 1 st) = [10; 7]
  /\ rawRSSI (state_of (Rev2.readData 255 [7; 7] 1 st)) = 11.
Proof.
  cbv zeta.
  pose proof (proj2 (readData_short_buffer 255 [7; 7] 1
                       (scripted_radio false [3; 10; 11; 12; 60; 133])
                       eq_refl ltac:(vm_compute; reflexivity)))
    as (H1 & H2 & _).
  split; [reflexivity|]. split; [vm_compute; reflexivity|].
  split; [exact H1 | exact H2].
Defined.

(** X9. Whenever [readData] does not return
    [RADIOLIB_ERR_INVALID_PAYLOAD], the telemetry it stored is well formed:
    [rawRSSI] is a byte and [rawLQI] is below 128, the CRC flag being
    stripped from it. [crcOn] is never changed, and the second revision
    never returns [RADIOLIB_ERR_INVALID_PAYLOAD] at all. *)
Theorem readData_telemetry_well_formed (MAX : Z) (data : list Z)
        (len : nat) (st : Radio) :
  (let r := Rev1.readData MAX data len st in
   crcOn (state_of r) = crcOn st
   /\ (status_of r <> RADIOLIB_ERR_INVALID_PAYLOAD ->
       0 <= rawRSSI (state_of r) < 256
       /\ 0 <= rawLQI (state_of r) < 128
       /\ Z.testbit (rawLQI (state_of r)) 7 = false))
  /\ (let r := Rev2.readData MAX data len st in
      crcOn (state_of r) = crcOn st
      /\ status_of r <> RADIOLIB_ERR_INVALID_PAYLOAD
      /\ 0 <= rawRSSI (state_of r) < 256
      /\ 0 <= rawLQI (state_of r) < 128
      /\ Z.testbit (rawLQI (state_of r)) 7 = false).
Proof.
  assert (Hbit : forall b, Z.testbit (Z.land b 0x7F) 7 = false).
  { intros b. rewrite Z.land_spec. change 0x7F with (Z.ones 7).
    rewrite (Z.ones_spec_high 7 7) by lia. apply andb_false_r. }
  split; cbv zeta.
  - rewrite Rev1_readData_eq. cbv zeta.
    destruct (Frame.acceptable MAX (Frame.declared_length st));
      unfold status_of, state_of; cbn [fst snd crcOn rawRSSI rawLQI].
    + split; [reflexivity|]. intros _.
      split; [apply byte_at_range|]. split; [apply land_7F_range|apply Hbit].
    + split; [reflexivity|]. intros H. now contradiction H.
  - rewrite Rev2_readData_eq. cbv zeta.
    unfold status_of, state_of; cbn [fst snd crcOn rawRSSI rawLQI].
    split; [reflexivity|]. split.
    { destruct (negb _ && crcOn st); discriminate. }
    split; [apply byte_at_range|]. split; [apply land_7F_range|apply Hbit].
Qed.

Lemma readData_telemetry_well_formed_witness :
  let st := scripted_radio true [2; 10; 11; 60; 133] in
  status_of (Rev1.readData 255 [0; 0] 2 st) <> RADIOLIB_ERR_INVALID_PAYLOAD
  /\ 0 <= rawLQI (state_of (Rev1.readData 255 [0; 0] 2 st)) < 128.
Proof.
  cbv zeta.
  assert (H : status_of (Rev1.readData 255 [0; 0] 2
                           (scripted_radio true [2; 10; 11; 60; 133]))
              <> RADIOLIB_ERR_INVALID_PAYLOAD) by (vm_compute; discriminate).
  split; [exact H|].
  exact (proj1 (proj2 (proj2 (proj1 (readData_telemetry_well_formed 255
           [0; 0] 2 (scripted_radio true [2; 10; 11; 60; 133]))) H))).
Defined.

(** X10. On a frame whose declared length passes the check the two
    revisions of [readData] are interchangeable: same status, same buffer,
    same cached length, same telemetry, same number of bytes taken from the
    chip, and the same sequence of accesses but for the register number
    used to address the FIFO (0x7F against 0x3F). *)
Theorem readData_revisions_agree_on_valid_frames (MAX : Z) (data : list Z)
        (len : nat) (st : Radio)
        (Hok : Frame.acceptable MAX (Frame.declared_length st) = true) :
  let r1 := Rev1.readData MAX data len st in
  let r2 := Rev2.readData MAX data len st in
  let fifo e :=
    match e with
    | EvReadRegisterBurst _ n => EvReadRegisterBurst 0 n
    | _ => e
    end in
  fst r1 = fst r2
  /\ packetLength (snd r1) = packetLength (snd r2)
  /\ packetLengthQueried (snd r1) = packetLengthQueried (snd r2)
  /\ rawRSSI (snd r1) = rawRSSI (snd r2)
  /\ rawLQI (snd r1) = rawLQI (snd r2)
  /\ cursor (chip (snd r1)) = cursor (chip (snd r2))
  /\ exists e1 e2,
      Frame.logged st (snd r1) e1 /\ Frame.logged st (snd r2) e2
      /\ map fifo e1 = map fifo e2.
Proof.
  cbv zeta. rewrite Rev1_readData_eq, Rev2_readData_eq. cbv zeta.
  unfold Frame.taken_length. rewrite Hok.
  cbn [fst snd packetLength packetLengthQueried rawRSSI rawLQI chip cursor].
  repeat split.
  unfold Frame.logged. cbn [chip log app].
  eexists. eexists. split; [reflexivity|]. split; [reflexivity|].
  reflexivity.
Qed.

Lemma readData_revisions_agree_on_valid_frames_witness :
  let st := scripted_radio true [2; 10; 11; 60; 5] in
  Frame.acceptable 255 (Frame.declared_length st) = true
  /\ fst (Rev1.readData 255 [0; 0; 0] 3 st)
     = fst (Rev2.readData 255 [0; 0; 0] 3 st).
Proof.
  cbv zeta. split; [reflexivity|].
  exact (proj1 (readData_revisions_agree_on_valid_frames 255 [0; 0; 0] 3
                  (scripted_radio true [2; 10; 11; 60; 5]) eq_refl)).
Defined.

End ReceptionMore.

(* ================================================================== *)
(** * Further properties: spectrum scan *)
(* ================================================================== *)

Section ScanMore.
Import Driver.

Lemma store_at_length {A : Type} (i : nat) (v : A) (l : list A) :
  length (store_at i v l) = length l.
Proof.
  revert l. induction i as [|i IH]; intros [|hd tl]; simpl; auto.
Qed.

Lemma store_at_other {A : Type} (i j : nat) (v : A) (l : list A) :
  j <> i -> nth_error (store_at i v l) j = nth_error l j.
Proof.
  revert l j. induction i as [|i IH]; intros [|hd tl] [|j] H; simpl; auto;
    try contradiction.
Qed.

Lemma store_at_same {A : Type} (i : nat) (v : A) (l : list A) :
  (i < length l)%nat -> nth_error (store_at i v l) i = Some v.
Proof.
  revert l. induction i as [|i IH]; intros [|hd tl] H; simpl in *;
    try lia; auto.
  apply IH. lia.
Qed.

Lemma chip_after_emit (e : Event) (st : Radio) :
  miso (chip (snd (emit e st))) = miso (chip st)
  /\ tune (chip (snd (emit e st))) = tune (chip st)
  /\ cursor (chip (snd (emit e st))) = cursor (chip st).
Proof. repeat split. Qed.

Lemma Rev1_scan_loop_shape (n : nat) :
  forall i dw f step values st,
  let r := Rev1.scan_loop n i dw f step values st in
  (exists blocks,
      Frame.logged st (snd r) (concat blocks)
      /\ Forall2 (scan_block false 0xF4 dw) (ramp n f step) blocks)
  /\ length (fst r) = length values
  /\ (forall j, (j < i \/ i + n <= j)%nat ->
                nth_error (fst r) j = nth_error values j)
  /\ miso (chip (snd r)) = miso (chip st)
  /\ tune (chip (snd r)) = tune (chip st).
Proof.
  induction n as [|n IH]; intros i dw f step values st; cbv zeta.
  - cbn [Rev1.scan_loop ramp fst snd ret].
    split; [exists []; split; [apply logged_refl | constructor]|].
    repeat split.
  - rewrite Rev1_scan_loop_S. cbv zeta. cbn [ramp].
    pose proof (setFrequency_logged f st) as Hlog1.
    set (st1 := snd (setFrequency f st)) in *.
    assert (Hchip1 : miso (chip st1) = miso (chip st)
                     /\ tune (chip st1) = tune (chip st)) by (split; reflexivity).
    destruct (negb (Status_eqb (fst (setFrequency f st)) RADIOLIB_ERR_NONE)).
    + destruct (IH (S i) dw (F32.add f step) step
                   (store_at i SCAN_INVALID values) st1)
        as ((blocks & Hl & Hb) & Hlen & Hout & Hm & Ht).
      split; [|split; [|split; [|split]]].
      * exists ([EvSetFrequency f] :: blocks). split.
        -- cbn [concat]. eapply logged_trans; eassumption.
        -- constructor; [left; reflexivity | exact Hb].
      * rewrite Hlen. apply store_at_length.
      * intros j Hj. rewrite Hout by lia. apply store_at_other. lia.
      * rewrite Hm. apply Hchip1.
      * rewrite Ht. apply Hchip1.
    + pose proof (emit_logged (EvDelayMicroseconds dw) st1) as Hlog2.
      set (st2 := snd (emit (EvDelayMicroseconds dw) st1)) in *.
      destruct (Rev1_getRSSI_spec st2) as (r & Hr & Hv & Hlog3).
      rewrite Hv.
      assert (Hchip3 : miso (chip (snd (Rev1.getRSSI st2))) = miso (chip st)
                       /\ tune (chip (snd (Rev1.getRSSI st2)))
                          = tune (chip st)) by (split; reflexivity).
      destruct (IH (S i) dw (F32.add f step) step
                   (store_at i (convertRSSI r) values)
                   (snd (Rev1.getRSSI st2)))
        as ((blocks & Hl & Hb) & Hlen & Hout & Hm & Ht).
      split; [|split; [|split; [|split]]].
      * exists ([EvSetFrequency f; EvDelayMicroseconds dw;
                  EvReadRegisterBurst 244 1] :: blocks). split.
        -- cbn [concat app].
           change (EvSetFrequency f :: EvDelayMicroseconds dw
                     :: EvReadRegisterBurst 244 1 :: concat blocks)
             with ([EvSetFrequency f] ++ [EvDelayMicroseconds dw]
                   ++ [EvReadRegisterBurst 244 1] ++ concat blocks).
           eapply logged_trans; [eassumption|].
           eapply logged_trans; [eassumption|].
           eapply logged_trans; eassumption.
        -- constructor; [right; reflexivity | exact Hb].
      * rewrite Hlen. apply store_at_length.
      * intros j Hj. rewrite Hout by lia. apply store_at_other. lia.
      * rewrite Hm. apply Hchip3.
      * rewrite Ht. apply Hchip3.
Qed.

Lemma Rev1_scan_loop_all_tuned (n : nat) :
  forall i dw f step values st,
  always_tunes st ->
  let r := Rev1.scan_loop n i dw f step values st in
  cursor (chip (snd r)) = (cursor (chip st) + n)%nat
  /\ (forall j, (i <= j < i + n)%nat -> (j < length values)%nat ->
                nth_error (fst r) j
                = Some (convertRSSI (Frame.byte_at st (j - i)))).
Proof.
  induction n as [|n IH]; intros i dw f step values st Htune; cbv zeta.
  - cbn [Rev1.scan_loop fst snd ret]. split; [lia|]. intros j Hj. lia.
  - rewrite Rev1_scan_loop_S. cbv zeta.
    assert (Hok : fst (setFrequency f st) = RADIOLIB_ERR_NONE)
      by apply Htune.
    rewrite Hok. cbn [Status_eqb negb].
    set (st3 := snd (Rev1.getRSSI _)).
    assert (Hv : fst (Rev1.getRSSI
                        (snd (emit (EvDelayMicroseconds dw) (snd (setFrequency f st)))))
                 = convertRSSI (Frame.byte_at st 0)).
    { unfold Frame.byte_at. rewrite Nat.add_0_r. reflexivity. }
    rewrite Hv.
    assert (Hchip : miso (chip st3) = miso (chip st)
                    /\ tune (chip st3) = tune (chip st)
                    /\ cursor (chip st3) = S (cursor (chip st))).
    { subst st3. repeat split. cbn. lia. }
    destruct Hchip as (Hm & Ht & Hc).
    assert (Htune3 : always_tunes st3).
    { intros h x. rewrite Ht. apply Htune. }
    destruct (IH (S i) dw (F32.add f step) step
                 (store_at i (convertRSSI (Frame.byte_at st 0)) values)
                 st3 Htune3) as (Hcur & Hcells).
    destruct (Rev1_scan_loop_shape n (S i) dw (F32.add f step) step
                 (store_at i (convertRSSI (Frame.byte_at st 0)) values) st3)
      as (_ & _ & Hout & _).
    split; [rewrite Hcur, Hc; lia|].
    intros j Hj Hlen.
    destruct (Nat.eq_dec j i) as [->|Hne].
    + rewrite Hout by lia. rewrite Nat.sub_diag. now apply store_at_same.
    + rewrite Hcells by (rewrite ?store_at_length; lia).
      f_equal. f_equal. unfold Frame.byte_at. rewrite Hm, Hc.
      f_equal. f_equal. lia.
Qed.

Lemma Rev1_scan_loop_none_tuned (n : nat) :
  forall i dw f step values st,
  never_tunes st ->
  let r := Rev1.scan_loop n i dw f step values st in
  Frame.logged st (snd r) (map EvSetFrequency (ramp n f step))
  /\ cursor (chip (snd r)) = cursor (chip st)
  /\ (forall j, (i <= j < i + n)%nat -> (j < length values)%nat ->
                nth_error (fst r) j = Some SCAN_INVALID).
Proof.
  induction n as [|n IH]; intros i dw f step values st Htune; cbv zeta.
  - cbn [Rev1.scan_loop fst snd ret ramp map].
    split; [apply logged_refl|]. split; [reflexivity|]. intros j Hj. lia.
  - rewrite Rev1_scan_loop_S. cbv zeta. cbn [ramp map].
    assert (Hko : negb (Status_eqb (fst (setFrequency f st))
                                   RADIOLIB_ERR_NONE) = true).
    { specialize (Htune (log (chip st)) f).
      change (fst (setFrequency f st)) with (tune (chip st) (log (chip st)) f).
      destruct (tune (chip st) (log (chip st)) f); try reflexivity.
      now contradiction Htune. }
    rewrite Hko.
    set (st1 := snd (setFrequency f st)).
    assert (Htune1 : never_tunes st1) by (intros h x; apply Htune).
    destruct (IH (S i) dw (F32.add f step) step
                 (store_at i SCAN_INVALID values) st1 Htune1)
      as (Hl & Hcur & Hcells).
    destruct (Rev1_scan_loop_shape n (S i) dw (F32.add f step) step
                 (store_at i SCAN_INVALID values) st1) as (_ & _ & Hout & _).
    split; [|split].
    + change (EvSetFrequency f :: map EvSetFrequency
                (ramp n (F32.add f step) step))
        with ([EvSetFrequency f] ++ map EvSetFrequency
                (ramp n (F32.add f step) step)).
      eapply logged_trans; [apply setFrequency_logged | exact Hl].
    + rewrite Hcur. reflexivity.
    + intros j Hj Hlen.
      destruct (Nat.eq_dec j i) as [->|Hne].
      * rewrite Hout by lia. now apply store_at_same.
      * apply Hcells; [lia | now rewrite store_at_length].
Qed.

Lemma Rev2_scan_loop_shape (n : nat) :
  forall i dw f step values st,
  let r := Rev2.scan_loop n i dw f step values st in
  (exists blocks,
      Frame.logged st (snd r) (concat blocks)
      /\ Forall2 (scan_block true 0x74 dw) (ramp n f step) blocks)
  /\ length (fst r) = length values
  /\ (forall j, (j < i \/ i + n <= j)%nat ->
                nth_error (fst r) j = nth_error values j)
  /\ miso (chip (snd r)) = miso (chip st)
  /\ tune (chip (snd r)) = tune (chip st).
Proof.
  induction n as [|n IH]; intros i dw f step values st; cbv zeta.
  - cbn [Rev2.scan_loop ramp fst snd ret].
    split; [exists []; split; [apply logged_refl | constructor]|].
    repeat split.
  - rewrite Rev2_scan_loop_S. cbv zeta. cbn [ramp].
    pose proof (setFrequency_logged f st) as Hlog1.
    set (st1 := snd (setFrequency f st)) in *.
    assert (Hchip1 : miso (chip st1) = miso (chip st)
                     /\ tune (chip st1) = tune (chip st)) by (split; reflexivity).
    destruct (negb (Status_eqb (fst (setFrequency f st)) RADIOLIB_ERR_NONE)).
    + destruct (IH (S i) dw (F32.add f step) step
                   (store_at i SCAN_INVALID values) st1)
        as ((blocks & Hl & Hb) & Hlen & Hout & Hm & Ht).
      split; [|split; [|split; [|split]]].
      * exists ([EvSetFrequency f] :: blocks). split.
        -- cbn [concat]. eapply logged_trans; eassumption.
        -- constructor; [left; reflexivity | exact Hb].
      * rewrite Hlen. apply store_at_length.
      * intros j Hj. rewrite Hout by lia. apply store_at_other. lia.
      * rewrite Hm. apply Hchip1.
      * rewrite Ht. apply Hchip1.
    + pose proof (emit_logged (EvSendCommand RADIOLIB_CC1101_CMD_RX) st1)
        as Hlog2.
      set (st1' := snd (emit (EvSendCommand RADIOLIB_CC1101_CMD_RX) st1)) in *.
      pose proof (emit_logged (EvDelayMicroseconds dw) st1') as Hlog2'.
      set (st2 := snd (emit (EvDelayMicroseconds dw) st1')) in *.
      destruct (Rev2_getRSSI_spec st2) as (r & Hr & Hv & Hlog3).
      rewrite Hv.
      assert (Hchip3 : miso (chip (snd (Rev2.getRSSI st2))) = miso (chip st)
                       /\ tune (chip (snd (Rev2.getRSSI st2)))
                          = tune (chip st)) by (split; reflexivity).
      destruct (IH (S i) dw (F32.add f step) step
                   (store_at i (convertRSSI r) values)
                   (snd (Rev2.getRSSI st2)))
        as ((blocks & Hl & Hb) & Hlen & Hout & Hm & Ht).
      split; [|split; [|split; [|split]]].
      * exists ([EvSetFrequency f; EvSendCommand RADIOLIB_CC1101_CMD_RX;
                  EvDelayMicroseconds dw; EvReadRegisterBurst 116 1] :: blocks). split.
        -- cbn [concat app].
           change (EvSetFrequency f :: EvSendCommand RADIOLIB_CC1101_CMD_RX
                     :: EvDelayMicroseconds dw
                     :: EvReadRegisterBurst 116 1 :: concat blocks)
             with ([EvSetFrequency f] ++ [EvSendCommand RADIOLIB_CC1101_CMD_RX]
                   ++ [EvDelayMicroseconds dw]
                   ++ [EvReadRegisterBurst 116 1] ++ concat blocks).
           eapply logged_trans; [eassumption|].
           eapply logged_trans; [eassumption|].
           eapply logged_trans; [eassumption|].
           eapply logged_trans; eassumption.
        -- constructor; [right; reflexivity | exact Hb].
      * rewrite Hlen. apply store_at_length.
      * intros j Hj. rewrite Hout by lia. apply store_at_other. lia.
      * rewrite Hm. apply Hchip3.
      * rewrite Ht. apply Hchip3.
Qed.

Lemma Rev2_scan_loop_all_tuned (n : nat) :
  forall i dw f step values st,
  always_tunes st ->
  let r := Rev2.scan_loop n i dw f step values st in
  cursor (chip (snd r)) = (cursor (chip st) + n)%nat
  /\ (forall j, (i <= j < i + n)%nat -> (j < length values)%nat ->
                nth_error (fst r) j
                = Some (convertRSSI (Frame.byte_at st (j - i)))).
Proof.
  induction n as [|n IH]; intros i dw f step values st Htune; cbv zeta.
  - cbn [Rev2.scan_loop fst snd ret]. split; [lia|]. intros j Hj. lia.
  - rewrite Rev2_scan_loop_S. cbv zeta.
    assert (Hok : fst (setFrequency f st) = RADIOLIB_ERR_NONE)
      by apply Htune.
    rewrite Hok. cbn [Status_eqb negb].
    set (st3 := snd (Rev2.getRSSI _)).
    assert (Hv : fst (Rev2.getRSSI
                        (snd (emit (EvDelayMicroseconds dw) (snd (emit (EvSendCommand RADIOLIB_CC1101_CMD_RX)
                                   (snd (setFrequency f st)))))))
                 = convertRSSI (Frame.byte_at st 0)).
    { unfold Frame.byte_at. rewrite Nat.add_0_r. reflexivity. }
    rewrite Hv.
    assert (Hchip : miso (chip st3) = miso (chip st)
                    /\ tune (chip st3) = tune (chip st)
                    /\ cursor (chip st3) = S (cursor (chip st))).
    { subst st3. repeat split. cbn. lia. }
    destruct Hchip as (Hm & Ht & Hc).
    assert (Htune3 : always_tunes st3).
    { intros h x. rewrite Ht. apply Htune. }
    destruct (IH (S i) dw (F32.add f step) step
                 (store_at i (convertRSSI (Frame.byte_at st 0)) values)
                 st3 Htune3) as (Hcur & Hcells).
    destruct (Rev2_scan_loop_shape n (S i) dw (F32.add f step) step
                 (store_at i (convertRSSI (Frame.byte_at st 0)) values) st3)
      as (_ & _ & Hout & _).
    split; [rewrite Hcur, Hc; lia|].
    intros j Hj Hlen.
    destruct (Nat.eq_dec j i) as [->|Hne].
    + rewrite Hout by lia. rewrite Nat.sub_diag. now apply store_at_same.
    + rewrite Hcells by (rewrite ?store_at_length; lia).
      f_equal. f_equal. unfold Frame.byte_at. rewrite Hm, Hc.
      f_equal. f_equal. lia.
Qed.

Lemma Rev2_scan_loop_none_tuned (n : nat) :
  forall i dw f step values st,
  never_tunes st ->
  let r := Rev2.scan_loop n i dw f step values st in
  Frame.logged st (snd r) (map EvSetFrequency (ramp n f step))
  /\ cursor (chip (snd r)) = cursor (chip st)
  /\ (forall j, (i <= j < i + n)%nat -> (j < length values)%nat ->
                nth_error (fst r) j = Some SCAN_INVALID).
Proof.
  induction n as [|n IH]; intros i dw f step values st Htune; cbv zeta.
  - cbn [Rev2.scan_loop fst snd ret ramp map].
    split; [apply logged_refl|]. split; [reflexivity|]. intros j Hj. lia.
  - rewrite Rev2_scan_loop_S. cbv zeta. cbn [ramp map].
    assert (Hko : negb (Status_eqb (fst (setFrequency f st))
                                   RADIOLIB_ERR_NONE) = true).
    { specialize (Htune (log (chip st)) f).
      change (fst (setFrequency f st)) with (tune (chip st) (log (chip st)) f).
      destruct (tune (chip st) (log (chip st)) f); try reflexivity.
      now contradiction Htune. }
    rewrite Hko.
    set (st1 := snd (setFrequency f st)).
    assert (Htune1 : never_tunes st1) by (intros h x; apply Htune).
    destruct (IH (S i) dw (F32.add f step) step
                 (store_at i SCAN_INVALID values) st1 Htune1)
      as (Hl & Hcur & Hcells).
    destruct (Rev2_scan_loop_shape n (S i) dw (F32.add f step) step
                 (store_at i SCAN_INVALID values) st1) as (_ & _ & Hout & _).
    split; [|split].
    + change (EvSetFrequency f :: map EvSetFrequency
                (ramp n (F32.add f step) step))
        with ([EvSetFrequency f] ++ map EvSetFrequency
                (ramp n (F32.add f step) step)).
      eapply logged_trans; [apply setFrequency_logged | exact Hl].
    + rewrite Hcur. reflexivity.
    + intros j Hj Hlen.
      destruct (Nat.eq_dec j i) as [->|Hne].
      * rewrite Hout by lia. now apply store_at_same.
      * apply Hcells; [lia | now rewrite store_at_length].
Qed.




(** X12. When the chip accepts every frequency, a scan over an array of at
    least [num_points] cells stores in cell [j] the conversion of the
    [j]-th byte the chip returns, for every [j] below [num_points], and
    reads exactly [num_points] bytes. Both revisions agree. *)
Theorem scanRSSI_records_readings_in_order (values : list float32)
        (n : nat) (c s : float32) (d : Z) (st : Radio)
        (Hn : n <> 0%nat) (Hsize : (n <= length values)%nat)
        (Htune : always_tunes st) :
  (let r := Rev1.scanRSSI (Some values) n c s d st in
   exists vs,
     fst r = (RADIOLIB_ERR_NONE, Some vs)
     /\ cursor (chip (snd r)) = (cursor (chip st) + n)%nat
     /\ forall j, (j < n)%nat ->
                  nth_error vs j = Some (convertRSSI (Frame.byte_at st j)))
  /\ (let r := Rev2.scanRSSI (Some values) n c s d st in
      exists vs,
        fst r = (RADIOLIB_ERR_NONE, Some vs)
        /\ cursor (chip (snd r)) = (cursor (chip st) + n)%nat
        /\ forall j, (j < n)%nat ->
                     nth_error vs j = Some (convertRSSI (Frame.byte_at st j))).
Proof.
  cbv zeta. split.
  - rewrite (Rev1_scanRSSI_eq values n c s d st Hn). cbv zeta.
    set (st0 := snd (emit (EvSendCommand RADIOLIB_CC1101_CMD_RX) st)).
    assert (Htune0 : always_tunes st0) by (intros h x; apply Htune).
    destruct (Rev1_scan_loop_all_tuned n 0 (Rev1.clamp_dwell d)
                (scan_start n c s) (F32.div s (F32.of_Z 1000)) values st0
                Htune0) as (Hcur & Hcells).
    eexists. cbn [fst snd]. split; [reflexivity|]. split.
    + cbn [emit with_chip snd chip cursor]. exact Hcur.
    + intros j Hj. rewrite Hcells by lia. now rewrite Nat.sub_0_r.
  - rewrite (Rev2_scanRSSI_eq values n c s d st Hn). cbv zeta.
    destruct (Rev2_scan_loop_all_tuned n 0 (Rev2.clamp_dwell d)
                (scan_start n c s) (F32.div s (F32.of_Z 1000)) values st
                Htune) as (Hcur & Hcells).
    eexists. cbn [fst snd]. split; [reflexivity|]. split.
    + cbn [emit with_chip snd chip cursor]. exact Hcur.
    + intros j Hj. rewrite Hcells by lia. now rewrite Nat.sub_0_r.
Qed.

Lemma scanRSSI_records_readings_in_order_witness :
  let st := scripted_radio true [40; 200] in
  let zero := F32.of_Z 0 in
  always_tunes st
  /\ exists vs,
      fst (Rev1.scanRSSI (Some [zero; zero]) 2 (F32.of_Z 433) (F32.of_Z 250)
                         3000 st)
      = (RADIOLIB_ERR_NONE, Some vs)
      /\ nth_error vs 1 = Some (convertRSSI 200).
Proof.
  cbv zeta.
  assert (Ht : always_tunes (scripted_radio true [40; 200]))
    by (intros h f; reflexivity).
  split; [exact Ht|].
  destruct (proj1 (scanRSSI_records_readings_in_order
                     [F32.of_Z 0; F32.of_Z 0] 2 (F32.of_Z 433) (F32.of_Z 250)
                     3000 (scripted_radio true [40; 200])
                     ltac:(discriminate) ltac:(simpl; lia) Ht))
    as (vs & Hr & _ & Hcells).
  exists vs. split; [exact Hr|]. apply (Hcells 1%nat). lia.
Defined.

(** X13. When the chip refuses every frequency, the scan still goes through
    all [num_points] frequencies, neither waits nor reads a single byte,
    marks every cell below [num_points] with the sentinel -999, returns to
    standby, and reports [RADIOLIB_ERR_NONE]. *)
Theorem scanRSSI_all_points_failing (values : list float32) (n : nat)
        (c s : float32) (d : Z) (st : Radio)
        (Hn : n <> 0%nat) (Hsize : (n <= length values)%nat)
        (Htune : never_tunes st) :
  let retunes :=
    map EvSetFrequency
        (ramp n (scan_start n c s) (F32.div s (F32.of_Z 1000))) in
  (let r := Rev1.scanRSSI (Some values) n c s d st in
   exists vs,
     fst r = (RADIOLIB_ERR_NONE, Some vs)
     /\ Frame.logged st (snd r)
          ([EvSendCommand RADIOLIB_CC1101_CMD_RX] ++ retunes ++ [EvStandby])
     /\ cursor (chip (snd r)) = cursor (chip st)
     /\ forall j, (j < n)%nat -> nth_error vs j = Some SCAN_INVALID)
  /\ (let r := Rev2.scanRSSI (Some values) n c s d st in
      exists vs,
        fst r = (RADIOLIB_ERR_NONE, Some vs)
        /\ Frame.logged st (snd r) (retunes ++ [EvStandby])
        /\ cursor (chip (snd r)) = cursor (chip st)
        /\ forall j, (j < n)%nat -> nth_error vs j = Some SCAN_INVALID).
Proof.
  cbv zeta. split.
  - rewrite (Rev1_scanRSSI_eq values n c s d st Hn). cbv zeta.
    set (st0 := snd (emit (EvSendCommand RADIOLIB_CC1101_CMD_RX) st)).
    assert (Htune0 : never_tunes st0) by (intros h x; apply Htune).
    destruct (Rev1_scan_loop_none_tuned n 0 (Rev1.clamp_dwell d)
                (scan_start n c s) (F32.div s (F32.of_Z 1000)) values st0
                Htune0) as (Hl & Hcur & Hcells).
    eexists. cbn [fst snd]. split; [reflexivity|]. split; [|split].
    + eapply logged_trans; [apply emit_logged|].
      eapply logged_trans; [exact Hl | apply emit_logged].
    + cbn [emit with_chip snd chip cursor]. exact Hcur.
    + intros j Hj. apply Hcells; lia.
  - rewrite (Rev2_scanRSSI_eq values n c s d st Hn). cbv zeta.
    destruct (Rev2_scan_loop_none_tuned n 0 (Rev2.clamp_dwell d)
                (scan_start n c s) (F32.div s (F32.of_Z 1000)) values st
                Htune) as (Hl & Hcur & Hcells).
    eexists. cbn [fst snd]. split; [reflexivity|]. split; [|split].
    + eapply logged_trans; [exact Hl | apply emit_logged].
    + cbn [emit with_chip snd chip cursor]. exact Hcur.
    + intros j Hj. apply Hcells; lia.
Qed.

Lemma scanRSSI_all_points_failing_witness :
  let st :=
    mkRadio 0 false 0 0 true
            (mkChip (fun _ => 7) 0 (fun _ _ => RADIOLIB_ERR_INVALID_FREQUENCY)
                    []) in
  let zero := F32.of_Z 0 in
  never_tunes st
  /\ exists vs,
      fst (Rev2.scanRSSI (Some [zero; zero]) 2 (F32.of_Z 433) (F32.of_Z 250)
                         3000 st)
      = (RADIOLIB_ERR_NONE, Some vs)
      /\ nth_error vs 0 = Some SCAN_INVALID.
Proof.
  cbv zeta.
  assert (Ht : never_tunes
                 (mkRadio 0 false 0 0 true
                    (mkChip (fun _ => 7) 0
                       (fun _ _ => RADIOLIB_ERR_INVALID_FREQUENCY) [])))
    by (intros h f; discriminate).
  split; [exact Ht|].
  destruct (proj2 (scanRSSI_all_points_failing
                     [F32.of_Z 0; F32.of_Z 0] 2 (F32.of_Z 433) (F32.of_Z 250)
                     3000 _ ltac:(discriminate) ltac:(simpl; lia) Ht))
    as (vs & Hr & _ & _ & Hcells).
  exists vs. split; [exact Hr|]. apply (Hcells 0%nat). lia.
Defined.

End ScanMore.

(* ================================================================== *)
(** * Further properties: packet format and sync mode (second revision) *)
(* ================================================================== *)

Section ConfigMore.
Import Driver Config.

Lemma rmw_bits (c keep force i : Z) :
  0 <= i < 8 ->
  Z.testbit (uint8 (Z.lor (Z.land (uint8 (uint8 c)) keep) force)) i
  = (Z.testbit c i && Z.testbit keep i) || Z.testbit force i.
Proof.
  intros Hi. unfold uint8.
  rewrite Z.mod_pow2_bits_low by lia.
  rewrite Z.lor_spec, Z.land_spec.
  now rewrite !Z.mod_pow2_bits_low by lia.
Qed.

Lemma update_same (f : Register -> Z) (reg : Register) (v : Z) :
  update f reg v reg = v.
Proof.
  unfold update. destruct reg; simpl; try reflexivity.
  now rewrite Z.eqb_refl.
Qed.

Lemma update_other (f : Register -> Z) (reg r : Register) (v : Z) :
  r <> reg -> update f reg v r = f r.
Proof.
  intros H. unfold update.
  destruct r, reg; simpl; try reflexivity; try (now contradiction H).
  destruct (Z.eqb_spec addr addr0); [subst; now contradiction H | reflexivity].
Qed.

Lemma bit_cases (P : Z -> Prop) (lo : Z) :
  P lo -> P (lo + 1) -> P (lo + 2) -> P (lo + 3) -> P (lo + 4) ->
  forall i, lo <= i < lo + 5 -> P i.
Proof.
  intros H0 H1 H2 H3 H4 i Hi.
  assert (Hc : i = lo \/ i = lo + 1 \/ i = lo + 2 \/ i = lo + 3 \/ i = lo + 4)
    by lia.
  destruct Hc as [ -> | [ -> | [ -> | [ -> | -> ] ] ] ]; assumption.
Qed.

(** X14. When the chip accepts the writes, [packetMode] returns
    [RADIOLIB_ERR_NONE] after exactly four accesses: PKTCTRL1 written with
    0x0C (bits 2 and 3 set, all others clear), PKTCTRL0 read, PKTCTRL0
    written back with bits 1..0 forced to 01 and bits 7..2 as they were
    read, and a wait of 5000 microseconds. No other register changes. *)
Theorem packetMode_forces_variable_length (s : Regs)
        (Hacc : always_accepts s) :
  let r := packetMode s in
  let old := content s RADIOLIB_CC1101_REG_PKTCTRL0 in
  let new := content (snd r) RADIOLIB_CC1101_REG_PKTCTRL0 in
  fst r = RADIOLIB_ERR_NONE
  /\ content (snd r) RADIOLIB_CC1101_REG_PKTCTRL1 = 0x0C
  /\ 0 <= new < 256
  /\ Z.testbit new 0 = true /\ Z.testbit new 1 = false
  /\ (forall i, 2 <= i < 8 -> Z.testbit new i = Z.testbit old i)
  /\ (forall reg, reg <> RADIOLIB_CC1101_REG_PKTCTRL1 ->
                  reg <> RADIOLIB_CC1101_REG_PKTCTRL0 ->
                  content (snd r) reg = content s reg)
  /\ trace (snd r)
     = trace s ++ [AcSetRegValue RADIOLIB_CC1101_REG_PKTCTRL1 0x0C;
                   AcGetRegValue RADIOLIB_CC1101_REG_PKTCTRL0;
                   AcSetRegValue RADIOLIB_CC1101_REG_PKTCTRL0 new;
                   AcDelayMicroseconds 5000].
Proof.
  cbv zeta. unfold packetMode, SPIsetRegValue, SPIgetRegValue, settle, failed.
  cbn [fst snd content accepts rejected parent trace].
  rewrite !Hacc. cbn [Status_eqb negb fst snd content trace].
  rewrite update_same.
  rewrite (update_other _ RADIOLIB_CC1101_REG_PKTCTRL1
                        RADIOLIB_CC1101_REG_PKTCTRL0) by discriminate.
  set (old := content s RADIOLIB_CC1101_REG_PKTCTRL0).
  rewrite (uint8_idem (Z.lor _ _)).
  split; [reflexivity|]. split.
  { rewrite update_other by discriminate. apply update_same. }
  split; [apply uint8_range|].
  split.
  { rewrite rmw_bits by lia.
    change (Z.testbit 252 0) with false. change (Z.testbit 1 0) with true.
    apply orb_true_r. }
  split.
  { rewrite rmw_bits by lia.
    change (Z.testbit 252 1) with false. change (Z.testbit 1 1) with false.
    now rewrite andb_false_r. }
  split.
  { intros i Hi. rewrite rmw_bits by lia.
    revert i Hi.
    assert (H : forall i, 2 <= i < 2 + 5 ->
                (Z.testbit old i && Z.testbit 252 i) || Z.testbit 1 i
                = Z.testbit old i).
    { apply bit_cases; cbn; now rewrite andb_true_r, orb_false_r. }
    intros i Hi.
    destruct (Z.eq_dec i 7) as [->|Hne]; [|apply H; lia].
    cbn. now rewrite andb_true_r, orb_false_r. }
  split.
  { intros reg H1 H0. now rewrite !update_other by assumption. }
  rewrite <- !app_assoc. reflexivity.
Qed.

Lemma packetMode_forces_variable_length_witness :
  let r := packetMode (scripted_regs 0x46 0 RADIOLIB_ERR_NONE) in
  always_accepts (scripted_regs 0x46 0 RADIOLIB_ERR_NONE)
  /\ fst r = RADIOLIB_ERR_NONE
  /\ content (snd r) RADIOLIB_CC1101_REG_PKTCTRL0 = 0x45.
Proof.
  cbv zeta.
  assert (H : always_accepts (scripted_regs 0x46 0 RADIOLIB_ERR_NONE))
    by (intros h reg v; reflexivity).
  split; [exact H|].
  split; [exact (proj1 (packetMode_forces_variable_length _ H))|].
  reflexivity.
Defined.

(** X15. [packetMode] stops at the first write the chip does not accept
    and returns that write's status: when the write of PKTCTRL1 fails,
    PKTCTRL0 is neither read nor written; when the write of PKTCTRL0 fails,
    the settling wait is skipped. *)
Theorem packetMode_stops_on_failure (s : Regs) :
  let r := packetMode s in
  let first :=
    accepts s (trace s) RADIOLIB_CC1101_REG_PKTCTRL1 0x0C in
  let new :=
    uint8 (Z.lor (Z.land (uint8 (content s RADIOLIB_CC1101_REG_PKTCTRL0))
                         0xFC) 0x01) in
  let history :=
    trace s ++ [AcSetRegValue RADIOLIB_CC1101_REG_PKTCTRL1 0x0C;
                AcGetRegValue RADIOLIB_CC1101_REG_PKTCTRL0] in
  let second := accepts s history RADIOLIB_CC1101_REG_PKTCTRL0 new in
  (first <> RADIOLIB_ERR_NONE ->
   fst r = first
   /\ trace (snd r)
      = trace s ++ [AcSetRegValue RADIOLIB_CC1101_REG_PKTCTRL1 0x0C]
   /\ content (snd r) RADIOLIB_CC1101_REG_PKTCTRL0
      = content s RADIOLIB_CC1101_REG_PKTCTRL0)
  /\ (first = RADIOLIB_ERR_NONE -> second <> RADIOLIB_ERR_NONE ->
      fst r = second
      /\ trace (snd r)
         = history ++ [AcSetRegValue RADIOLIB_CC1101_REG_PKTCTRL0 new]).
Proof.
  cbv zeta. unfold packetMode, SPIsetRegValue, SPIgetRegValue, settle, failed.
  cbn [fst snd content accepts rejected parent trace].
  split.
  - intros Hfirst.
    destruct (accepts s (trace s) RADIOLIB_CC1101_REG_PKTCTRL1 12) eqn:E;
      try (now contradiction Hfirst);
      cbn [Status_eqb negb fst snd content trace];
      (split; [reflexivity|]); (split; [reflexivity|]);
      now rewrite update_other by discriminate.
  - intros Hfirst Hsecond. rewrite Hfirst.
    cbn [Status_eqb negb fst snd content trace].
    rewrite (update_other _ RADIOLIB_CC1101_REG_PKTCTRL1
                          RADIOLIB_CC1101_REG_PKTCTRL0) by discriminate.
    rewrite (uint8_idem (content s RADIOLIB_CC1101_REG_PKTCTRL0)).
    rewrite <- !app_assoc. cbn [app].
    destruct (accepts s _ RADIOLIB_CC1101_REG_PKTCTRL0 _) eqn:E;
      try (now contradiction Hsecond);
      cbn [Status_eqb negb fst snd content trace];
      (split; [reflexivity|]); rewrite <- ?app_assoc; reflexivity.
Qed.

Lemma packetMode_stops_on_failure_witness :
  let s :=
    mkRegs (fun _ => 0) (fun _ _ _ => RADIOLIB_ERR_INVALID_FREQUENCY)
           (fun _ _ _ => 0) (fun _ _ c => (RADIOLIB_ERR_NONE, c)) [] in
  fst (packetMode s) = RADIOLIB_ERR_INVALID_FREQUENCY
  /\ trace (snd (packetMode s))
     = [AcSetRegValue RADIOLIB_CC1101_REG_PKTCTRL1 0x0C].
Proof.
  cbv zeta.
  pose proof (proj1 (packetMode_stops_on_failure
            (mkRegs (fun _ => 0) (fun _ _ _ => RADIOLIB_ERR_INVALID_FREQUENCY)
                    (fun _ _ _ => 0) (fun _ _ c => (RADIOLIB_ERR_NONE, c)) []))
            ltac:(discriminate)) as (H1 & H2 & _).
  split; [exact H1 | exact H2].
Defined.


Lemma restoreSyncMode_eq (s : Regs) :
  restoreSyncMode s =
  let new :=
    uint8 (Z.lor (Z.land (uint8 (uint8 (content s
                                   RADIOLIB_CC1101_REG_MDMCFG2))) 0xF8)
                 0x02) in
  let history := trace s ++ [AcGetRegValue RADIOLIB_CC1101_REG_MDMCFG2] in
  let state := accepts s history RADIOLIB_CC1101_REG_MDMCFG2 new in
  (state,
   mkRegs (update (content s) RADIOLIB_CC1101_REG_MDMCFG2
                  (if Status_eqb state RADIOLIB_ERR_NONE then uint8 new
                   else rejected s history RADIOLIB_CC1101_REG_MDMCFG2 new))
          (accepts s) (rejected s) (parent s)
          (history ++ [AcSetRegValue RADIOLIB_CC1101_REG_MDMCFG2 new])).
Proof. reflexivity. Qed.

Lemma sync_bits (c : Z) :
  let new := uint8 (Z.lor (Z.land (uint8 (uint8 c)) 0xF8) 0x02) in
  0 <= new < 256
  /\ Z.testbit new 0 = false /\ Z.testbit new 1 = true
  /\ Z.testbit new 2 = false
  /\ (forall i, 3 <= i < 8 -> Z.testbit new i = Z.testbit c i).
Proof.
  cbv zeta. split; [apply uint8_range|].
  rewrite !rmw_bits by lia.
  change (Z.testbit 248 0) with false. change (Z.testbit 2 0) with false.
  change (Z.testbit 248 1) with false. change (Z.testbit 2 1) with true.
  change (Z.testbit 248 2) with false. change (Z.testbit 2 2) with false.
  rewrite !andb_false_r. repeat split.
  intros i Hi. rewrite rmw_bits by lia. revert i Hi.
  apply (bit_cases (fun i => (Z.testbit c i && Z.testbit 248 i)
                             || Z.testbit 2 i = Z.testbit c i) 3);
    cbn; now rewrite andb_true_r, orb_false_r.
Qed.

(** X16. When the chip accepts the write, [restoreSyncMode] returns
    [RADIOLIB_ERR_NONE] and leaves MDMCFG2 with bits 2..0 equal to 010
    (16 of 16 sync bits) and bits 7..3 as they were; no other register
    changes, and running it again changes nothing more. *)
Theorem restoreSyncMode_forces_sync_bits (s : Regs)
        (Hacc : always_accepts s) :
  let r := restoreSyncMode s in
  let old := content s RADIOLIB_CC1101_REG_MDMCFG2 in
  let new := content (snd r) RADIOLIB_CC1101_REG_MDMCFG2 in
  fst r = RADIOLIB_ERR_NONE
  /\ 0 <= new < 256
  /\ Z.testbit new 0 = false /\ Z.testbit new 1 = true
  /\ Z.testbit new 2 = false
  /\ (forall i, 3 <= i < 8 -> Z.testbit new i = Z.testbit old i)
  /\ (forall reg, reg <> RADIOLIB_CC1101_REG_MDMCFG2 ->
                  content (snd r) reg = content s reg)
  /\ content (snd (restoreSyncMode (snd r))) RADIOLIB_CC1101_REG_MDMCFG2
     = new.
Proof.
  cbv zeta. rewrite !restoreSyncMode_eq. cbv zeta.
  cbn [fst snd content accepts rejected parent trace].
  rewrite !Hacc. cbn [Status_eqb]. rewrite !update_same.
  set (old := content s RADIOLIB_CC1101_REG_MDMCFG2).
  rewrite (uint8_idem (Z.lor (Z.land (uint8 (uint8 old)) 248) 2)).
  destruct (sync_bits old) as (Hr & H0 & H1 & H2 & Hhigh).
  cbv zeta in Hr, H0, H1, H2, Hhigh.
  set (new := uint8 (Z.lor (Z.land (uint8 (uint8 old)) 248) 2)) in *.
  split; [reflexivity|]. split; [exact Hr|].
  split; [exact H0|]. split; [exact H1|]. split; [exact H2|].
  split; [exact Hhigh|]. split.
  { intros reg Hreg. now apply update_other. }
  rewrite uint8_idem.
  apply Z.bits_inj'. intros i Hi.
  destruct (Z_lt_le_dec i 8) as [Hlt|Hge].
  - rewrite rmw_bits by lia.
    destruct (Z_lt_le_dec i 3) as [Hlow|Hup].
    + assert (Hc : i = 0 \/ i = 1 \/ i = 2) by lia.
      destruct Hc as [ -> | [ -> | -> ] ];
        rewrite ?H0, ?H1, ?H2; reflexivity.
    + revert i Hi Hlt Hup.
      assert (H : forall i, 3 <= i < 3 + 5 ->
                  (Z.testbit new i && Z.testbit 248 i) || Z.testbit 2 i
                  = Z.testbit new i).
      { apply bit_cases; cbn; now rewrite andb_true_r, orb_false_r. }
      intros i Hi Hlt Hup. apply H. lia.
  - unfold new at 2. unfold uint8 at 1.
    rewrite Z.mod_pow2_bits_high by lia.
    unfold uint8 at 1. now rewrite Z.mod_pow2_bits_high by lia.
Qed.

Lemma restoreSyncMode_forces_sync_bits_witness :
  let s := scripted_regs 0 0 RADIOLIB_ERR_NONE in
  let s := mkRegs (update (content s) RADIOLIB_CC1101_REG_MDMCFG2 0x30)
                  (accepts s) (rejected s) (parent s) [] in
  always_accepts s
  /\ fst (restoreSyncMode s) = RADIOLIB_ERR_NONE
  /\ content (snd (restoreSyncMode s)) RADIOLIB_CC1101_REG_MDMCFG2 = 0x32.
Proof.
  cbv zeta.
  set (s := mkRegs _ _ _ _ _).
  assert (H : always_accepts s) by (intros h reg v; reflexivity).
  split; [exact H|].
  split; [exact (proj1 (restoreSyncMode_forces_sync_bits s H))|].
  reflexivity.
Defined.

(** X17. [setOOK] first runs the inherited [CC1101::setOOK]. When that
    fails, its status is returned and MDMCFG2 is neither read nor written.
    When it succeeds and the chip accepts the write, [setOOK] returns
    [RADIOLIB_ERR_NONE] with bits 2..0 of MDMCFG2 equal to 010 and bits 7..3
    as the inherited method left them. *)
Theorem setOOK_restores_sync_mode (enableOOK : bool) (s : Regs) :
  let r := setOOK enableOOK s in
  let inherited := parent s (trace s) enableOOK (content s) in
  let new := content (snd r) RADIOLIB_CC1101_REG_MDMCFG2 in
  (fst inherited <> RADIOLIB_ERR_NONE ->
   fst r = fst inherited
   /\ content (snd r) = snd inherited
   /\ trace (snd r) = trace s ++ [AcParentSetOOK enableOOK])
  /\ (fst inherited = RADIOLIB_ERR_NONE -> always_accepts s ->
      fst r = RADIOLIB_ERR_NONE
      /\ Z.testbit new 0 = false /\ Z.testbit new 1 = true
      /\ Z.testbit new 2 = false
      /\ (forall i, 3 <= i < 8 ->
                    Z.testbit new i
                    = Z.testbit (snd inherited RADIOLIB_CC1101_REG_MDMCFG2) i)
      /\ (forall reg, reg <> RADIOLIB_CC1101_REG_MDMCFG2 ->
                      content (snd r) reg = snd inherited reg)).
Proof.
  cbv zeta. unfold setOOK, CC1101_setOOK, failed.
  split.
  - intros Hfail.
    destruct (fst (parent s (trace s) enableOOK (content s))) eqn:E;
      try (now contradiction Hfail); cbn [Status_eqb negb fst snd];
      repeat split.
  - intros Hok Hacc. rewrite Hok. cbn [Status_eqb negb].
    rewrite restoreSyncMode_eq. cbv zeta.
    cbn [fst snd content accepts rejected parent trace].
    rewrite !Hacc. cbn [Status_eqb negb fst snd content].
    rewrite update_same.
    set (left := snd (parent s (trace s) enableOOK (content s))
                     RADIOLIB_CC1101_REG_MDMCFG2).
    rewrite (uint8_idem (Z.lor (Z.land (uint8 (uint8 left)) 248) 2)).
    destruct (sync_bits left) as (_ & H0 & H1 & H2 & Hhigh).
    cbv zeta in H0, H1, H2, Hhigh.
    split; [reflexivity|].
    split; [exact H0|]. split; [exact H1|]. split; [exact H2|].
    split; [exact Hhigh|].
    intros reg Hreg. now apply update_other.
Qed.

Lemma setOOK_restores_sync_mode_witness :
  fst (setOOK true (scripted_regs 0 0x30 RADIOLIB_ERR_INVALID_FREQUENCY))
  = RADIOLIB_ERR_INVALID_FREQUENCY
  /\ fst (setOOK true (scripted_regs 0 0x30 RADIOLIB_ERR_NONE))
     = RADIOLIB_ERR_NONE
  /\ Z.testbit (content (snd (setOOK true
                                (scripted_regs 0 0x30 RADIOLIB_ERR_NONE)))
                        RADIOLIB_CC1101_REG_MDMCFG2) 1 = true.
Proof.
  split.
  - exact (proj1 (proj1 (setOOK_restores_sync_mode true
             (scripted_regs 0 0x30 RADIOLIB_ERR_INVALID_FREQUENCY))
             ltac:(discriminate))).
  - pose proof (proj2 (setOOK_restores_sync_mode true
                  (scripted_regs 0 0x30 RADIOLIB_ERR_NONE)) eq_refl
                  ltac:(intros h reg v; reflexivity)) as (H1 & _ & H2 & _).
    split; [exact H1 | exact H2].
Defined.

End ConfigMore.

(* ================================================================== *)
(** * Further properties: the life cycle of the spi_master HAL *)
(* ================================================================== *)

Section LifeCycleMore.
Import SpiMaster SpiBus.

Lemma reachable_consistent (h : EspHal) (s : Service) :
  reachable h s -> consistent h.
Proof.
  induction 1 as [sck miso mosi host s | h s _ IH | h s _ IH
                 | cs clk h s _ IH].
  - split; [split; [discriminate | intros H; now contradiction H]|].
    reflexivity.
  - destruct IH as [Hd Hb]. unfold init, spiBegin, request.
    destruct h as [k mi mo ho dev bi da [|]]; cbn in *;
      [split; assumption|].
    destruct (answer s (calls s) _); cbn; split; auto; discriminate.
  - destruct IH as [Hd Hb]. unfold term, spiEnd, request.
    destruct h as [k mi mo ho [dev|] [|] [|] [|]]; cbn in *;
      split; auto; try (split; [discriminate | intros H; now contradiction H]);
      try discriminate.
    all: try (destruct Hd as [H1 H2]; exfalso;
              first [ now apply H1 | discriminate (H2 ltac:(discriminate)) ]).
  - destruct IH as [Hd Hb]. unfold addSpiDevice, request.
    destruct (uint32 cs =? RADIOLIB_NC); [split; assumption|].
    destruct (answer s (calls s) _); cbn; [|split; assumption..].
    split; [split; [discriminate | reflexivity]|exact Hb].
Qed.

(** X18. From any state reached through the constructor, [init], [term]
    and [addSpiDevice] in which the HAL is initialised, [term] brings the
    object back to what the constructor built for the same pins and host:
    no device handle, no flag set. The device flag and the handle always go
    together, and the bus is only ever owned while the HAL is
    initialised. *)
Theorem term_restores_constructed_state (h : EspHal) (s : Service)
        (Hreach : reachable h s) :
  consistent h
  /\ (halInitialized h = true ->
      fst (term h s) = new (spiSCK h) (spiMISO h) (spiMOSI h) (spiHost h)).
Proof.
  pose proof (reachable_consistent h s Hreach) as Hc.
  split; [exact Hc|].
  intros Hinit. destruct Hc as [[H1 H2] _].
  unfold term, spiEnd, request, new. rewrite Hinit.
  destruct h as [k mi mo ho [dev|] [|] [|] hi]; cbn in *; try reflexivity.
  - discriminate (H2 ltac:(discriminate)).
  - discriminate (H2 ltac:(discriminate)).
  - exfalso. now apply H1.
  - exfalso. now apply H1.
Qed.

Lemma term_restores_constructed_state_witness :
  let s := mkService (fun _ _ => ESP_OK) (fun _ => 7) [] in
  let opened := init (new 18 19 23 2) s in
  let added := addSpiDevice 5 500000 (fst opened) (snd opened) in
  halInitialized (snd (fst added)) = true
  /\ fst (term (snd (fst added)) (snd added)) = new 18 19 23 2.
Proof.
  cbv zeta. split; [reflexivity|].
  apply (proj2 (term_restores_constructed_state _ _
                  (reach_add 5 500000 _ _
                     (reach_init _ _
                        (reach_new 18 19 23 2
                           (mkService (fun _ _ => ESP_OK) (fun _ => 7) [])))))).
  reflexivity.
Defined.

(** X19. Opening twice is opening once, and closing twice is closing once:
    a second [init] makes no call to the service and changes nothing, and
    so does a second [term], whatever the state they start from. *)
Theorem init_and_term_are_idempotent (h : EspHal) (s : Service) :
  init (fst (init h s)) (snd (init h s)) = init h s
  /\ term (fst (term h s)) (snd (term h s)) = term h s.
Proof.
  assert (Hopen : halInitialized (fst (init h s)) = true).
  { unfold init. destruct (halInitialized h) eqn:Hi; cbn [negb fst];
      [exact Hi|]. now destruct (spiBegin h s). }
  assert (Hclosed : halInitialized (fst (term h s)) = false).
  { unfold term. destruct (halInitialized h) eqn:Hi; cbn [fst];
      [|exact Hi]. now destruct (spiEnd h s). }
  split.
  - unfold init at 1. rewrite Hopen. cbn [negb].
    now destruct (init h s).
  - unfold term at 1. rewrite Hclosed.
    now destruct (term h s).
Qed.

Lemma addSpiDevice_success (cs clk : Z) (h : EspHal) (s : Service) :
  fst (fst (addSpiDevice cs clk h s)) = true ->
  snd (fst (addSpiDevice cs clk h s))
  = set_deviceAdded (set_spiDevice h (Some (handle s (calls s)))) true
  /\ snd (addSpiDevice cs clk h s)
     = mkService (answer s) (handle s)
                 (calls s ++ [spi_bus_add_device (spiHost h) cs clk]).
Proof.
  unfold addSpiDevice, request.
  destruct (uint32 cs =? RADIOLIB_NC); [discriminate|].
  destruct (answer s (calls s) _); cbn; try discriminate. auto.
Qed.

(** X20. [addSpiDevice] keeps a single handle. When it succeeds twice, the
    first handle is overwritten, and [term] then removes the second device
    only: the first is never removed from the bus. *)
Theorem second_addSpiDevice_drops_first_handle
        (cs1 clk1 cs2 clk2 : Z) (h : EspHal) (s : Service)
        (Hinit : halInitialized h = true) :
  let first := addSpiDevice cs1 clk1 h s in
  let second := addSpiDevice cs2 clk2 (snd (fst first)) (snd first) in
  let closed := term (snd (fst second)) (snd second) in
  fst (fst first) = true -> fst (fst second) = true ->
  exists dev1 dev2 evs,
    spiDevice (snd (fst first)) = Some dev1
    /\ spiDevice (snd (fst second)) = Some dev2
    /\ calls (snd closed) = calls (snd second) ++ evs
    /\ In (spi_bus_remove_device dev2) evs
    /\ (dev1 <> dev2 -> ~ In (spi_bus_remove_device dev1) evs).
Proof.
  cbv zeta. intros H1 H2.
  destruct (addSpiDevice_success cs1 clk1 h s H1) as [Hh1 Hs1].
  destruct (addSpiDevice_success cs2 clk2 _ _ H2) as [Hh2 Hs2].
  set (first := addSpiDevice cs1 clk1 h s) in *.
  set (second := addSpiDevice cs2 clk2 (snd (fst first)) (snd first)) in *.
  destruct (term_spec (snd (fst second)) (snd second)) as (Hc & _ & _).
  { rewrite Hh2, Hh1. exact Hinit. }
  exists (handle s (calls s)), (handle (snd first) (calls (snd first))),
    (closing_calls (snd (fst second))).
  split; [now rewrite Hh1|]. split; [now rewrite Hh2|].
  split; [exact Hc|].
  rewrite Hh2. unfold closing_calls. cbn [deviceAdded spiDevice
    set_deviceAdded set_spiDevice busInitialized spiHost].
  split; [left; reflexivity|].
  intros Hne Hin. cbn [app In] in Hin.
  destruct Hin as [Hin|Hin]; [injection Hin as Hin; now apply Hne|].
  destruct (busInitialized (snd (fst first))); cbn [In] in Hin;
    [destruct Hin as [Hin|[]]; discriminate | contradiction].
Qed.

Lemma second_addSpiDevice_drops_first_handle_witness :
  let s := mkService (fun _ _ => ESP_OK)
                     (fun h => Z.of_nat (length h)) [] in
  let h := fst (init (new 18 19 23 2) s) in
  let s := snd (init (new 18 19 23 2) s) in
  let first := addSpiDevice 5 500000 h s in
  let second := addSpiDevice 15 500000 (snd (fst first)) (snd first) in
  halInitialized h = true
  /\ calls (snd (term (snd (fst second)) (snd second)))
     = [spi_bus_initialize 2 23 19 18; spi_bus_add_device 2 5 500000;
        spi_bus_add_device 2 15 500000; spi_bus_remove_device 2;
        spi_bus_free 2].
Proof.
  cbv zeta. split; [reflexivity|].
  destruct (second_addSpiDevice_drops_first_handle 5 500000 15 500000
              (fst (init (new 18 19 23 2)
                      (mkService (fun _ _ => ESP_OK)
                                 (fun h => Z.of_nat (length h)) [])))
              (snd (init (new 18 19 23 2)
                      (mkService (fun _ _ => ESP_OK)
                                 (fun h => Z.of_nat (length h)) [])))
              eq_refl eq_refl eq_refl)
    as (dev1 & dev2 & evs & _ & _ & Hc & _).
  reflexivity.
Defined.

(** X21. [spiBegin] called on a HAL that already owns the bus, when the
    service answers that the bus is already initialised, makes the HAL
    forget that the bus is its own: a following [spiEnd] does not free
    it. *)
Theorem second_spiBegin_gives_up_the_bus (h : EspHal) (s : Service)
        (Hstate : answer s (calls s)
                    (spi_bus_initialize (spiHost h) (spiMOSI h) (spiMISO h)
                                        (spiSCK h))
                  = ESP_ERR_INVALID_STATE) :
  let again := spiBegin h s in
  let closed := spiEnd (fst again) (snd again) in
  busInitialized (fst again) = false
  /\ exists evs,
      calls (snd closed) = calls (snd again) ++ evs
      /\ forall host, ~ In (spi_bus_free host) evs.
Proof.
  cbv zeta. unfold spiBegin, request. rewrite Hstate. cbn [fst snd].
  split; [reflexivity|].
  destruct (spiEnd_spec (set_busInitialized h false)
              (mkService (answer s) (handle s)
                 (calls s ++ [spi_bus_initialize (spiHost h) (spiMOSI h)
                                (spiMISO h) (spiSCK h)])))
    as (Hc & _).
  eexists. split; [exact Hc|].
  intros host Hin. unfold closing_calls in Hin.
  cbn [set_busInitialized busInitialized deviceAdded spiDevice] in Hin.
  rewrite app_nil_r in Hin.
  destruct (deviceAdded h), (spiDevice h); cbn [In] in Hin;
    try contradiction.
  destruct Hin as [Hin|[]]. discriminate.
Qed.

Lemma second_spiBegin_gives_up_the_bus_witness :
  let s :=
    mkService (fun h _ => match h with
                          | [] => ESP_OK
                          | _ => ESP_ERR_INVALID_STATE
                          end) (fun _ => 7) [] in
  let opened := spiBegin (new 18 19 23 2) s in
  let again := spiBegin (fst opened) (snd opened) in
  busInitialized (fst opened) = true
  /\ busInitialized (fst again) = false
  /\ calls (snd (spiEnd (fst again) (snd again)))
     = [spi_bus_initialize 2 23 19 18; spi_bus_initialize 2 23 19 18].
Proof.
  cbv zeta. split; [reflexivity|]. split.
  - exact (proj1 (second_spiBegin_gives_up_the_bus
                    (fst (spiBegin (new 18 19 23 2) _))
                    (snd (spiBegin (new 18 19 23 2)
                            (mkService (fun h _ => match h with
                                                   | [] => ESP_OK
                                                   | _ => ESP_ERR_INVALID_STATE
                                                   end) (fun _ => 7) [])))
                    eq_refl)).
  - reflexivity.
Defined.

(** X22. Without a registered device the HAL never touches the bus: before
    any [addSpiDevice] has succeeded, and again after [term], a transaction
    bracket does nothing, [spiTransferByte] returns 0xFF and [spiTransfer]
    leaves the receive buffer as it is. *)
Theorem transfers_need_a_device (h : EspHal) (s : Service)
        (byte : Z) (out inb : list Z) (len : nat) (b : Bus)
        (Hreach : reachable h s)
        (Hstate : deviceAdded h = false
                  \/ exists h0 s0, reachable h0 s0
                                   /\ halInitialized h0 = true
                                   /\ h = fst (term h0 s0)) :
  spiDevice h = None
  /\ spiBeginTransaction h b = b
  /\ spiTransferByte byte h b = (0xFF, b)
  /\ spiTransfer out len inb h b = (inb, b)
  /\ spiEndTransaction h b = b.
Proof.
  assert (Hnone : spiDevice h = None).
  { destruct Hstate as [Hd | (h0 & s0 & Hr0 & Hi0 & ->)].
    - destruct (reachable_consistent h s Hreach) as [[_ H2] _].
      destruct (spiDevice h); [|reflexivity].
      rewrite H2 in Hd by discriminate. discriminate.
    - pose proof (reachable_consistent h0 s0 Hr0) as [[H1 H2] _].
      unfold term, spiEnd, request. rewrite Hi0.
      destruct h0 as [k mi mo ho [dev|] [|] [|] hi]; cbn in *;
        try reflexivity.
      + discriminate (H2 ltac:(discriminate)).
      + discriminate (H2 ltac:(discriminate)). }
  unfold spiBeginTransaction, spiTransferByte, spiTransfer, spiEndTransaction.
  rewrite Hnone. repeat split.
Qed.

Lemma transfers_need_a_device_witness :
  let s := mkService (fun _ _ => ESP_OK) (fun _ => 7) [] in
  let h := fst (init (new 18 19 23 2) s) in
  let b := mkBus (fun _ _ tx => (ESP_OK, tx)) [] in
  deviceAdded h = false
  /\ spiTransferByte 0x55 h b = (0xFF, b).
Proof.
  cbv zeta. split; [reflexivity|].
  exact (proj1 (proj2 (proj2 (transfers_need_a_device _ _ 0x55 [] [] 0
           (mkBus (fun _ _ tx => (ESP_OK, tx)) [])
           (reach_init _ _
              (reach_new 18 19 23 2
                 (mkService (fun _ _ => ESP_OK) (fun _ => 7) [])))
           (or_introl eq_refl))))).
Defined.

End LifeCycleMore.

(* ================================================================== *)
(** * Further properties: the microsecond wait of the register HAL *)
(* ================================================================== *)

Section ClockMore.
Import Clock.

Lemma uint64_small (z : Z) : 0 <= z < 2 ^ 64 -> uint64 z = z.
Proof. intros H. unfold uint64. now apply Z.mod_small. Qed.

Lemma spin_while_below_ends (e : Z) (fuel : nat) :
  forall t,
  advancing fuel t -> Z.max 0 (e - now t (reads t)) < Z.of_nat fuel ->
  exists k,
    spin_while_below fuel e t = Some (mkTimer (now t) (reads t + S k))
    /\ e <= now t (reads t + k)
    /\ (forall j, (j < k)%nat -> now t (reads t + j) < e)
    /\ Z.of_nat k <= Z.max 0 (e - now t (reads t)).
Proof.
  induction fuel as [|fuel IH]; intros t Hadv Hfuel; [lia|].
  cbn [spin_while_below esp_timer_get_time].
  destruct (Hadv (reads t) ltac:(lia)) as [Hrange Hnext].
  rewrite uint64_small by exact Hrange.
  destruct (Z.ltb_spec (now t (reads t)) e) as [Hlt|Hge].
  - destruct (IH (mkTimer (now t) (S (reads t))))
      as (k & Hrun & Hend & Hbelow & Hk).
    + intros i Hi. cbn [now reads] in *. apply Hadv. lia.
    + cbn [now reads]. lia.
    + cbn [now reads] in *. exists (S k).
      replace (reads t + S (S k))%nat with (S (reads t) + S k)%nat by lia.
      split; [exact Hrun|].
      replace (reads t + S k)%nat with (S (reads t) + k)%nat by lia.
      split; [exact Hend|]. split; [|lia].
      intros [|j] Hj.
      * now rewrite Nat.add_0_r.
      * replace (reads t + S j)%nat with (S (reads t) + j)%nat by lia.
        apply Hbelow. lia.
  - exists 0%nat. rewrite Nat.add_0_r.
    replace (reads t + 1)%nat with (S (reads t)) by lia.
    split; [reflexivity|]. split; [lia|]. split; [intros j Hj; lia | lia].
Qed.

(** X23. With a clock whose readings grow from one call to the next and a
    deadline that does not wrap around 64 bits, [delayMicroseconds(us)] for
    a non-zero [us] returns after at most [us] further polls of the clock,
    and not before a reading has reached the reading taken on entry plus
    [us]: every earlier reading of the wait is below that deadline. A zero
    [us] returns after the single reading taken on entry. *)
Theorem delayMicroseconds_waits_until_deadline (fuel : nat) (us : Z)
        (t : Timer)
        (Hclock : advancing (S fuel) t) (Hus : 0 <= us)
        (Hwrap : now t (reads t) + us < 2 ^ 64)
        (Hfuel : us <= Z.of_nat fuel) :
  let m := now t (reads t) in
  (us = 0 ->
   delayMicroseconds fuel us t = Some (mkTimer (now t) (S (reads t))))
  /\ (0 < us ->
      exists k,
        delayMicroseconds fuel us t
        = Some (mkTimer (now t) (S (reads t) + S k))
        /\ m + us <= now t (S (reads t) + k)
        /\ (forall j, (j < k)%nat -> now t (S (reads t) + j) < m + us)
        /\ Z.of_nat k < us).
Proof.
  cbv zeta. destruct (Hclock (reads t) ltac:(lia)) as [Hrange Hnext].
  unfold delayMicroseconds. cbn [esp_timer_get_time].
  rewrite (uint64_small (now t (reads t))) by exact Hrange.
  split.
  - intros ->. reflexivity.
  - intros Hpos.
    destruct (Z.eqb_spec us 0) as [->|_]; [lia|]. cbn [negb].
    rewrite (uint64_small (now t (reads t) + us)) by lia.
    destruct (Z.ltb_spec (now t (reads t) + us) (now t (reads t))); [lia|].
    destruct (spin_while_below_ends (now t (reads t) + us) fuel
                (mkTimer (now t) (S (reads t))))
      as (k & Hrun & Hend & Hbelow & Hk).
    + intros i Hi. cbn [now reads] in *. apply Hclock. lia.
    + cbn [now reads]. lia.
    + cbn [now reads] in *. exists k.
      split; [exact Hrun|]. split; [exact Hend|].
      split; [exact Hbelow | lia].
Qed.

Lemma delayMicroseconds_waits_until_deadline_witness :
  let t := mkTimer (fun i => 1000 + 2 * Z.of_nat i) 0 in
  advancing 6 t
  /\ delayMicroseconds 5 5 t = Some (mkTimer (now t) 4).
Proof.
  cbv zeta.
  assert (Hadv : advancing 6 (mkTimer (fun i => 1000 + 2 * Z.of_nat i) 0)).
  { intros i Hi. cbn [now reads] in *. lia. }
  split; [exact Hadv|].
  destruct (proj2 (delayMicroseconds_waits_until_deadline 5 5 _ Hadv
                     ltac:(lia) ltac:(cbn; lia) ltac:(lia)) ltac:(lia))
    as (k & Hrun & _).
  reflexivity.
Defined.

End ClockMore.
